(** * OpenWebNinja MCP server: request admission and shaping layer

    A shallow embedding of the rate limiter ([src/utils/rateLimiter.ts]),
    the parameter validator and query sanitizer ([src/utils/validation.ts]),
    the search orchestrator ([src/services/openWebNinja.ts]) and the three
    tool handlers ([src/handlers/*.ts]), followed by the properties of
    the specification that are stated about them.

    Conventions.
    - Instants and counts are integers ([Z]); [Date.now()] is an explicit
      argument of the pure limiter operations and an effect of programs.
    - A JavaScript string is the sequence of its UTF-16 code units; the
      development covers strings whose code units are below 256, written
      as [string] (one [ascii] per code unit).
    - Untyped tool arguments and provider payloads are JSON values
      ([JsValue]). *)

From Stdlib Require Import ZArith List Bool String Ascii Lia.
From Stdlib Require Import Numbers.DecimalString.
Import ListNotations.

Set Warnings "-register-all".

Open Scope string_scope.
Open Scope Z_scope.

(* ================================================================== *)
(** * Rate limiter *)
(* ================================================================== *)

Module RateLimiter.

(** The three private fields of [class RateLimiter]. *)
Record t : Type := mk {
  requests : list Z;
  maxRequests : Z;
  windowMs : Z
}.

(** [constructor(maxRequests = 100, windowMs = 60000)] *)
Definition create (maxRequests windowMs : Z) : t := mk [] maxRequests windowMs.
Definition default : t := create 100 60000.

(** The filter predicate [time => now - time < this.windowMs]. *)
Definition inWindow (l : t) (now time : Z) : bool := now - time <? windowMs l.

Definition prune (now : Z) (l : t) : t :=
  mk (filter (inWindow l now) (requests l)) (maxRequests l) (windowMs l).

(** [canMakeRequest()]: the answer and the limiter after pruning. *)
Definition canMakeRequest (now : Z) (l : t) : bool * t :=
  let l' := prune now l in
  (Z.of_nat (List.length (requests l')) <? maxRequests l', l').

(** [recordRequest()]: [this.requests.push(Date.now())]. *)
Definition recordRequest (now : Z) (l : t) : t :=
  mk (requests l ++ [now])%list (maxRequests l) (windowMs l).

(** [Math.min(...xs)] on a non-empty argument list [x :: xs]. *)
Definition mathMin (x : Z) (xs : list Z) : Z := fold_left Z.min xs x.

(** [getTimeUntilReset()] reads the clock and does not mutate. *)
Definition getTimeUntilReset (now : Z) (l : t) : Z :=
  match requests l with
  | [] => 0
  | x :: xs =>
      let oldestRequest := mathMin x xs in
      let timeUntilReset := windowMs l - (now - oldestRequest) in
      Z.max 0 timeUntilReset
  end.

(** [getCurrentCount()]: prunes, then the remaining length. *)
Definition getCurrentCount (now : Z) (l : t) : Z * t :=
  let l' := prune now l in
  (Z.of_nat (List.length (requests l')), l').

Definition reset (l : t) : t := mk [] (maxRequests l) (windowMs l).

(** The oldest recorded instant, if any: the [oldestRequest] of
    [getTimeUntilReset]. *)
Definition oldest (l : t) : option Z :=
  match requests l with
  | [] => None
  | x :: xs => Some (mathMin x xs)
  end.

(** A fresh limiter after [recordRequest] was called at each instant
    of [times], in that order. *)
Definition recordAll (times : list Z) (l : t) : t :=
  fold_left (fun acc now => recordRequest now acc) times l.

End RateLimiter.

(* ================================================================== *)
(** * JavaScript strings and values *)
(* ================================================================== *)

Module Js.

(** ** Strings *)

Definition codeUnit (c : ascii) : nat := nat_of_ascii c.

(** ECMAScript [WhiteSpace] and [LineTerminator] code units below 256:
    TAB, LF, VT, FF, CR, SPACE and NO-BREAK SPACE.  Both
    [String.prototype.trim] and the regular-expression class [\s] use
    this set. *)
Definition isWhiteSpace (c : ascii) : bool :=
  let n := codeUnit c in
  ((9 <=? n)%nat && (n <=? 13)%nat) || (n =? 32)%nat || (n =? 160)%nat.

Fixpoint trimStart (s : string) : string :=
  match s with
  | EmptyString => EmptyString
  | String c s' => if isWhiteSpace c then trimStart s' else s
  end.

Fixpoint trimEnd (s : string) : string :=
  match s with
  | EmptyString => EmptyString
  | String c s' =>
      match trimEnd s' with
      | EmptyString => if isWhiteSpace c then EmptyString else String c EmptyString
      | r => String c r
      end
  end.

(** [s.trim()] *)
Definition trim (s : string) : string := trimEnd (trimStart s).

(** A string that does not begin with white space. *)
Definition startsClean (s : string) : bool :=
  match s with
  | EmptyString => true
  | String c _ => negb (isWhiteSpace c)
  end.

(** [String.prototype.toLowerCase] on one code unit below 256: the
    basic Latin capitals and the Latin-1 capitals U+00C0..U+00DE
    (U+00D7, the multiplication sign, excepted) move up by 32. *)
Definition lowerUnit (c : ascii) : ascii :=
  let n := codeUnit c in
  if ((65 <=? n)%nat && (n <=? 90)%nat)
     || ((192 <=? n)%nat && (n <=? 222)%nat && negb (n =? 215)%nat)
  then ascii_of_nat (n + 32) else c.

Fixpoint toLowerCase (s : string) : string :=
  match s with
  | EmptyString => EmptyString
  | String c s' => String (lowerUnit c) (toLowerCase s')
  end.

(** [s.length] *)
Definition strLength (s : string) : Z := Z.of_nat (String.length s).

(** Decimal rendering of an integer, as [Number.prototype.toString]
    and template literals give it. *)
Definition decimal (z : Z) : string := NilZero.string_of_int (Z.to_int z).

(** [xs.includes(x)] on an array of strings. *)
Definition includes (xs : list string) (x : string) : bool :=
  existsb (String.eqb x) xs.

Arguments includes : simpl never.

(** [xs.join(sep)] *)
Fixpoint join (sep : string) (xs : list string) : string :=
  match xs with
  | [] => ""
  | [x] => x
  | x :: rest => x ++ sep ++ join sep rest
  end.

(** ** Values *)

(** A double: a finite value [num/den], [NaN], or an infinity. *)
Inductive JsNumber : Type :=
| Finite (num : Z) (den : positive)
| NaN
| Infinity (negative : bool).

Inductive JsValue : Type :=
| JsUndefined
| JsNull
| JsBool (b : bool)
| JsNum (n : JsNumber)
| JsStr (s : string)
| JsArr (items : list JsValue)
| JsObj (props : list (string * JsValue)).

Definition JsInt (z : Z) : JsValue := JsNum (Finite z 1).

(** [typeof v] *)
Definition typeof (v : JsValue) : string :=
  match v with
  | JsUndefined => "undefined"
  | JsNull => "object"
  | JsBool _ => "boolean"
  | JsNum _ => "number"
  | JsStr _ => "string"
  | JsArr _ => "object"
  | JsObj _ => "object"
  end.

(** [ToBoolean]: what [!v], [v || w] and [if (v)] test. *)
Definition truthy (v : JsValue) : bool :=
  match v with
  | JsUndefined | JsNull => false
  | JsBool b => b
  | JsNum (Finite n _) => negb (n =? 0)
  | JsNum NaN => false
  | JsNum (Infinity _) => true
  | JsStr s => negb (s =? "")%string
  | JsArr _ | JsObj _ => true
  end.

Definition isArray (v : JsValue) : bool :=
  match v with JsArr _ => true | _ => false end.

(** [Number.isInteger(v)] for a [v] whose [typeof] is number. *)
Definition isInteger (v : JsValue) : bool :=
  match v with
  | JsNum (Finite n d) => n mod Z.pos d =? 0
  | _ => false
  end.

(** The payloads of a value once its type has been tested. *)
Definition str (v : JsValue) : string :=
  match v with JsStr s => s | _ => "" end.
Definition int (v : JsValue) : Z :=
  match v with JsNum (Finite n d) => n / Z.pos d | _ => 0 end.
Definition bool_of (v : JsValue) : bool :=
  match v with JsBool b => b | _ => false end.
Definition items (v : JsValue) : list JsValue :=
  match v with JsArr xs => xs | _ => [] end.

Fixpoint lookup (k : string) (props : list (string * JsValue)) : JsValue :=
  match props with
  | [] => JsUndefined
  | (k', v) :: rest => if (k =? k')%string then v else lookup k rest
  end.

(** [v.k] for a [v] that is neither [null] nor [undefined] and a
    property name [k] that no built-in prototype defines (every name
    read by this program except [length]): the own property of an
    object, [undefined] otherwise. *)
Definition field (v : JsValue) (k : string) : JsValue :=
  match v with
  | JsObj props => lookup k props
  | _ => JsUndefined
  end.

Definition isNullish (v : JsValue) : bool :=
  match v with JsUndefined | JsNull => true | _ => false end.

End Js.

(* ================================================================== *)
(** * Parameter records ([src/types/api.ts]) *)
(* ================================================================== *)

Record SearchParams : Type := mkSearchParams {
  query : string;
  max_results : option Z;
  region : option string;
  safe_search : option bool;
  site_restrict : option string;
  file_type : option string;
  date_range : option string
}.

Record BulkSearchParams : Type := mkBulkSearchParams {
  queries : list string;
  max_results_per_query : option Z;
  bulk_region : option string;
  bulk_safe_search : option bool
}.

(** Assignments to the fields of a record under construction. *)
Definition set_query (q : string) (p : SearchParams) : SearchParams :=
  mkSearchParams q (max_results p) (region p) (safe_search p)
                 (site_restrict p) (file_type p) (date_range p).
Definition set_max_results (v : Z) (p : SearchParams) : SearchParams :=
  mkSearchParams (query p) (Some v) (region p) (safe_search p)
                 (site_restrict p) (file_type p) (date_range p).
Definition set_region (v : string) (p : SearchParams) : SearchParams :=
  mkSearchParams (query p) (max_results p) (Some v) (safe_search p)
                 (site_restrict p) (file_type p) (date_range p).
Definition set_safe_search (v : bool) (p : SearchParams) : SearchParams :=
  mkSearchParams (query p) (max_results p) (region p) (Some v)
                 (site_restrict p) (file_type p) (date_range p).
Definition set_site_restrict (v : string) (p : SearchParams) : SearchParams :=
  mkSearchParams (query p) (max_results p) (region p) (safe_search p)
                 (Some v) (file_type p) (date_range p).
Definition set_file_type (v : string) (p : SearchParams) : SearchParams :=
  mkSearchParams (query p) (max_results p) (region p) (safe_search p)
                 (site_restrict p) (Some v) (date_range p).
Definition set_date_range (v : string) (p : SearchParams) : SearchParams :=
  mkSearchParams (query p) (max_results p) (region p) (safe_search p)
                 (site_restrict p) (file_type p) (Some v).

Definition set_queries (v : list string) (p : BulkSearchParams) : BulkSearchParams :=
  mkBulkSearchParams v (max_results_per_query p) (bulk_region p) (bulk_safe_search p).
Definition set_max_results_per_query (v : Z) (p : BulkSearchParams) : BulkSearchParams :=
  mkBulkSearchParams (queries p) (Some v) (bulk_region p) (bulk_safe_search p).
Definition set_bulk_region (v : string) (p : BulkSearchParams) : BulkSearchParams :=
  mkBulkSearchParams (queries p) (max_results_per_query p) (Some v) (bulk_safe_search p).
Definition set_bulk_safe_search (v : bool) (p : BulkSearchParams) : BulkSearchParams :=
  mkBulkSearchParams (queries p) (max_results_per_query p) (bulk_region p) (Some v).

(* ================================================================== *)
(** * Validation ([src/utils/validation.ts]) *)
(* ================================================================== *)

Module Validation.
Import Js.

(** [class ValidationError extends Error]: the message and the optional
    [field] of the constructor. *)
Record ValidationError : Type := mkValidationError {
  message : string;
  field_name : option string
}.

(** A call either returns or throws a [ValidationError]. *)
Inductive Result (A : Type) : Type :=
| Returns (a : A)
| Throws (e : ValidationError).
Arguments Returns {A} a.
Arguments Throws {A} e.

Definition bind {A B : Type} (r : Result A) (k : A -> Result B) : Result B :=
  match r with
  | Returns a => k a
  | Throws e => Throws e
  end.

Local Notation "x <- r ;; k" := (bind r (fun x => k))
  (at level 61, r at next level, right associativity).

Definition throw {A : Type} (msg : string) (fld : option string) : Result A :=
  Throws (mkValidationError msg fld).

(** The regular expression [/^[a-z]{2}$/] (no flags). *)
Definition isLowerLetter (c : ascii) : bool :=
  let n := codeUnit c in (97 <=? n)%nat && (n <=? 122)%nat.

Definition regionPattern (s : string) : bool :=
  match s with
  | String a (String b EmptyString) => isLowerLetter a && isLowerLetter b
  | _ => false
  end.

Definition allowedTypes : list string :=
  ["pdf"; "doc"; "docx"; "ppt"; "pptx"; "xls"; "xlsx"; "txt"; "rtf"].

Definition allowedRanges : list string :=
  ["past_day"; "past_week"; "past_month"; "past_year"].

(** ** [validateSearchParams]

    One definition per block of the source.  A block either throws or
    yields the value it assigns to [validated], if any. *)

Definition checkObject (params : JsValue) : Result unit :=
  if negb (truthy params) || negb (typeof params =? "object")%string
  then throw "Parameters must be an object" None
  else Returns tt.

Definition checkQuery (params : JsValue) : Result string :=
  let q := field params "query" in
  if negb (truthy q) || negb (typeof q =? "string")%string
  then throw "Query is required and must be a string" (Some "query")
  else if strLength (trim (str q)) =? 0
  then throw "Query cannot be empty" (Some "query")
  else if strLength (str q) >? 500
  then throw "Query cannot exceed 500 characters" (Some "query")
  else Returns (trim (str q)).

Definition checkMaxResults (params : JsValue) : Result (option Z) :=
  let v := field params "max_results" in
  match v with
  | JsUndefined => Returns None
  | _ =>
      if negb (typeof v =? "number")%string || negb (isInteger v)
      then throw "max_results must be an integer" (Some "max_results")
      else if (int v <? 1) || (int v >? 300)
      then throw "max_results must be between 1 and 300" (Some "max_results")
      else Returns (Some (int v))
  end.

(** The [region] and [safe_search] blocks are textually the same in
    both validators. *)
Definition checkRegion (params : JsValue) : Result (option string) :=
  let v := field params "region" in
  match v with
  | JsUndefined => Returns None
  | _ =>
      if negb (typeof v =? "string")%string
      then throw "region must be a string" (Some "region")
      else if negb (regionPattern (str v))
      then throw "region must be a 2-letter country code" (Some "region")
      else Returns (Some (toLowerCase (str v)))
  end.

Definition checkSafeSearch (params : JsValue) : Result (option bool) :=
  let v := field params "safe_search" in
  match v with
  | JsUndefined => Returns None
  | _ =>
      if negb (typeof v =? "boolean")%string
      then throw "safe_search must be a boolean" (Some "safe_search")
      else Returns (Some (bool_of v))
  end.

Definition checkSiteRestrict (params : JsValue) : Result (option string) :=
  let v := field params "site_restrict" in
  match v with
  | JsUndefined => Returns None
  | _ =>
      if negb (typeof v =? "string")%string
      then throw "site_restrict must be a string" (Some "site_restrict")
      else if strLength (trim (str v)) =? 0
      then throw "site_restrict cannot be empty" (Some "site_restrict")
      else Returns (Some (trim (str v)))
  end.

Definition checkFileType (params : JsValue) : Result (option string) :=
  let v := field params "file_type" in
  match v with
  | JsUndefined => Returns None
  | _ =>
      if negb (typeof v =? "string")%string
      then throw "file_type must be a string" (Some "file_type")
      else if negb (includes allowedTypes (toLowerCase (str v)))
      then throw ("file_type must be one of: " ++ join ", " allowedTypes)
                 (Some "file_type")
      else Returns (Some (toLowerCase (str v)))
  end.

Definition checkDateRange (params : JsValue) : Result (option string) :=
  let v := field params "date_range" in
  match v with
  | JsUndefined => Returns None
  | _ =>
      if negb (typeof v =? "string")%string
      then throw "date_range must be a string" (Some "date_range")
      else if negb (includes allowedRanges (str v))
      then throw ("date_range must be one of: " ++ join ", " allowedRanges)
                 (Some "date_range")
      else Returns (Some (str v))
  end.

(** [validated.k = v] when the block for [k] yielded [v]. *)
Definition assign {R V : Type} (set : V -> R -> R) (o : option V) (r : R) : R :=
  match o with Some v => set v r | None => r end.

Definition validateSearchParams (params : JsValue) : Result SearchParams :=
  _ <- checkObject params ;;
  q <- checkQuery params ;;
  let validated := mkSearchParams q None None None None None None in
  v <- checkMaxResults params ;;
  let validated := assign set_max_results v validated in
  v <- checkRegion params ;;
  let validated := assign set_region v validated in
  v <- checkSafeSearch params ;;
  let validated := assign set_safe_search v validated in
  v <- checkSiteRestrict params ;;
  let validated := assign set_site_restrict v validated in
  v <- checkFileType params ;;
  let validated := assign set_file_type v validated in
  v <- checkDateRange params ;;
  let validated := assign set_date_range v validated in
  Returns validated.

(** ** [validateBulkSearchParams] *)

(** The loop [for (let i = 0; i < params.queries.length; i++)], entered
    at index [i] with the elements from [i] on and the queries pushed
    so far. *)
Fixpoint validateEach (i : nat) (rest : list JsValue) (validatedQueries : list string)
  : Result (list string) :=
  match rest with
  | [] => Returns validatedQueries
  | q :: rest' =>
      let at_i := "Query at index " ++ decimal (Z.of_nat i) in
      if negb (typeof q =? "string")%string
      then throw (at_i ++ " must be a string") (Some "queries")
      else if strLength (trim (str q)) =? 0
      then throw (at_i ++ " cannot be empty") (Some "queries")
      else if strLength (str q) >? 500
      then throw (at_i ++ " cannot exceed 500 characters") (Some "queries")
      else validateEach (S i) rest' (validatedQueries ++ [trim (str q)])%list
  end.

Definition checkQueries (params : JsValue) : Result (list string) :=
  let qs := field params "queries" in
  if negb (truthy qs) || negb (isArray qs)
  then throw "queries is required and must be an array" (Some "queries")
  else if Z.of_nat (List.length (items qs)) =? 0
  then throw "queries array cannot be empty" (Some "queries")
  else if Z.of_nat (List.length (items qs)) >? 20
  then throw "queries array cannot exceed 20 items" (Some "queries")
  else validateEach 0 (items qs) [].

Definition checkMaxResultsPerQuery (params : JsValue) : Result (option Z) :=
  let v := field params "max_results_per_query" in
  match v with
  | JsUndefined => Returns None
  | _ =>
      if negb (typeof v =? "number")%string || negb (isInteger v)
      then throw "max_results_per_query must be an integer"
                 (Some "max_results_per_query")
      else if (int v <? 1) || (int v >? 50)
      then throw "max_results_per_query must be between 1 and 50"
                 (Some "max_results_per_query")
      else Returns (Some (int v))
  end.

Definition validateBulkSearchParams (params : JsValue) : Result BulkSearchParams :=
  _ <- checkObject params ;;
  validatedQueries <- checkQueries params ;;
  let validated := mkBulkSearchParams validatedQueries None None None in
  v <- checkMaxResultsPerQuery params ;;
  let validated := assign set_max_results_per_query v validated in
  v <- checkRegion params ;;
  let validated := assign set_bulk_region v validated in
  v <- checkSafeSearch params ;;
  let validated := assign set_bulk_safe_search v validated in
  Returns validated.

(** ** [sanitizeQuery] *)

(** The first [replace] of the source deletes every occurrence of the
    four code units 60 (less-than), 62 (greater-than), 34 (double
    quote) and 39 (apostrophe). *)
Definition isInjectionChar (c : ascii) : bool :=
  let n := codeUnit c in
  (n =? 60)%nat || (n =? 62)%nat || (n =? 34)%nat || (n =? 39)%nat.

Fixpoint removeInjectionChars (s : string) : string :=
  match s with
  | EmptyString => EmptyString
  | String c s' =>
      if isInjectionChar c then removeInjectionChars s'
      else String c (removeInjectionChars s')
  end.

(** [.replace(/\s+/g, ' ')]: [inRun] tells that the previous code unit
    belonged to the run of white space being replaced. *)
Fixpoint collapseFrom (inRun : bool) (s : string) : string :=
  match s with
  | EmptyString => EmptyString
  | String c s' =>
      if isWhiteSpace c
      then if inRun then collapseFrom true s'
           else String " "%char (collapseFrom true s')
      else String c (collapseFrom false s')
  end.

Definition collapseWhiteSpace (s : string) : string := collapseFrom false s.

Definition sanitizeQuery (query : string) : string :=
  trim (collapseWhiteSpace (removeInjectionChars query)).

(** ** The single-query rules, as the specification words them *)

(** A query string is acceptable when it is non-empty after trimming
    and has at most 500 code units. *)
Definition validQuery (s : string) : bool :=
  negb (strLength (trim s) =? 0) && negb (strLength s >? 500).

(** What is wrong with an element of [queries], as the tail of the
    message that reports it. *)
Definition elementFault (v : JsValue) : option string :=
  match v with
  | JsStr s =>
      if strLength (trim s) =? 0 then Some " cannot be empty"
      else if strLength s >? 500 then Some " cannot exceed 500 characters"
      else None
  | _ => Some " must be a string"
  end.

(** ** A validated record read back as a raw argument object *)

Definition optValue {V : Type} (inj : V -> JsValue) (o : option V) : JsValue :=
  match o with Some v => inj v | None => JsUndefined end.

Definition optProp {V : Type} (k : string) (inj : V -> JsValue) (o : option V)
  : list (string * JsValue) :=
  match o with Some v => [(k, inj v)] | None => [] end.

Definition searchParamsObject (p : SearchParams) : JsValue :=
  JsObj ([("query", JsStr (query p))]
         ++ optProp "max_results" JsInt (max_results p)
         ++ optProp "region" JsStr (region p)
         ++ optProp "safe_search" JsBool (safe_search p)
         ++ optProp "site_restrict" JsStr (site_restrict p)
         ++ optProp "file_type" JsStr (file_type p)
         ++ optProp "date_range" JsStr (date_range p))%list.

Definition bulkSearchParamsObject (p : BulkSearchParams) : JsValue :=
  JsObj ([("queries", JsArr (map JsStr (queries p)))]
         ++ optProp "max_results_per_query" JsInt (max_results_per_query p)
         ++ optProp "region" JsStr (bulk_region p)
         ++ optProp "safe_search" JsBool (bulk_safe_search p))%list.

End Validation.

(* ================================================================== *)
(** * Effects: the clock, the provider and timers *)
(* ================================================================== *)

(** What the JavaScript engine computes and this development leaves
    abstract: every statement below holds for any such engine. *)
Class Engine : Type := {
  (** [parseInt(s)] *)
  parseInt : string -> Js.JsNumber;
  (** the message of the [TypeError] raised by reading property [k] of
      [null] or [undefined] *)
  typeErrorMessage : Js.JsValue -> string -> string;
  (** the string conversion of the member of [Object.prototype] with
      the given name *)
  inheritedToString : string -> string;
  (** [count + v > bound] when [v] is not an integer-valued number
      (string concatenation, non-integer doubles, object coercion) *)
  looseSumExceeds : Z -> Js.JsValue -> Z -> bool
}.

Module Effects.
Import Js.

(** The query-string object handed to [client.get('/search', ...)]. *)
Record Request : Type := mkRequest {
  q : string;
  num : option string;
  gl : option string;
  safe : option string
}.

(** A value caught by a [catch] clause: a [TypeError] of the engine, or
    the error a rejected axios call carries ([message], [code] and, for
    an HTTP error response, its [status] and [data]). *)
Inductive Thrown : Type :=
| TypeError (target : JsValue) (prop : string)
| AxiosError (message code : JsValue) (response : option (Z * JsValue)).

(** How [await this.client.get(...)] settles. *)
Inductive HttpReply : Type :=
| Resolved (data : JsValue) (headers : list (string * string))
| Rejected (error : Thrown).

(** Programs over the three effects of the source. *)
Inductive Prog (A : Type) : Type :=
| Ret (a : A)
| DateNow (k : Z -> Prog A)
| HttpGet (req : Request) (k : HttpReply -> Prog A)
| Delay (ms : Z) (k : Prog A).
Arguments Ret {A} a.
Arguments DateNow {A} k.
Arguments HttpGet {A} req k.
Arguments Delay {A} ms k.

Fixpoint bind {A B : Type} (p : Prog A) (f : A -> Prog B) : Prog B :=
  match p with
  | Ret a => f a
  | DateNow k => DateNow (fun t => bind (k t) f)
  | HttpGet req k => HttpGet req (fun r => bind (k r) f)
  | Delay ms k => Delay ms (bind k f)
  end.

Notation "x <- p ;; k" := (bind p (fun x => k))
  (at level 61, p at next level, right associativity).
Notation "' pat <- p ;; k" := (bind p (fun x => let pat := x in k))
  (at level 61, pat pattern, p at next level, right associativity).

Definition dateNow : Prog Z := DateNow Ret.
Definition httpGet (req : Request) : Prog HttpReply := HttpGet req Ret.
Definition delay (ms : Z) : Prog unit := Delay ms (Ret tt).

(** The surroundings a program runs in: a state [W] with the answer of
    the clock, of the provider and the passing of a pause. *)
Class World (W : Type) : Type := {
  readClock : W -> Z * W;
  provider : Request -> W -> HttpReply * W;
  sleep : Z -> W -> W
}.

Inductive Event : Type :=
| Clock (t : Z)
| Call (req : Request) (reply : HttpReply)
| Pause (ms : Z).

(** Running a program: its result, the events in order, the world left. *)
Fixpoint exec {W : Type} `{World W} {A : Type} (p : Prog A) (w : W)
  : A * list Event * W :=
  match p with
  | Ret a => (a, [], w)
  | DateNow k =>
      let '(t, w1) := readClock w in
      let '(a, tr, w2) := exec (k t) w1 in
      (a, Clock t :: tr, w2)
  | HttpGet req k =>
      let '(r, w1) := provider req w in
      let '(a, tr, w2) := exec (k r) w1 in
      (a, Call req r :: tr, w2)
  | Delay ms k =>
      let '(a, tr, w2) := exec k (sleep ms w) in
      (a, Pause ms :: tr, w2)
  end.

Definition result {W A : Type} (x : A * list Event * W) : A := fst (fst x).
Definition trace {W A : Type} (x : A * list Event * W) : list Event := snd (fst x).

(** The provider calls of a trace, in order. *)
Fixpoint calls (tr : list Event) : list (Request * HttpReply) :=
  match tr with
  | [] => []
  | Call req r :: tr' => (req, r) :: calls tr'
  | _ :: tr' => calls tr'
  end.

(** The limiter operations read the clock. *)
Definition canMakeRequest (l : RateLimiter.t) : Prog (bool * RateLimiter.t) :=
  now <- dateNow ;; Ret (RateLimiter.canMakeRequest now l).
Definition recordRequest (l : RateLimiter.t) : Prog RateLimiter.t :=
  now <- dateNow ;; Ret (RateLimiter.recordRequest now l).
Definition getTimeUntilReset (l : RateLimiter.t) : Prog Z :=
  match RateLimiter.requests l with
  | [] => Ret 0
  | _ => now <- dateNow ;; Ret (RateLimiter.getTimeUntilReset now l)
  end.
Definition getCurrentCount (l : RateLimiter.t) : Prog (Z * RateLimiter.t) :=
  now <- dateNow ;; Ret (RateLimiter.getCurrentCount now l).

End Effects.

(* ================================================================== *)
(** * Search orchestrator ([src/services/openWebNinja.ts]) *)
(* ================================================================== *)

Module Service.
Import Js Effects.

Record SearchResult : Type := mkSearchResult {
  title : JsValue;
  url : JsValue;
  snippet : JsValue;
  position : Z;
  domain : JsValue;
  favicon : JsValue;
  date : JsValue
}.

Record WebSearchResponse : Type := mkWebSearchResponse {
  results : list SearchResult;
  total_results : JsValue;
  search_time : JsValue;
  response_query : string
}.

(** One element of [BulkSearchResponse.searches]. *)
Record BulkEntry : Type := mkBulkEntry {
  entry_query : string;
  entry_results : list SearchResult;
  entry_total_results : JsValue
}.

Record BulkSearchResponse : Type := mkBulkSearchResponse {
  searches : list BulkEntry;
  bulk_search_time : Z
}.

Record RapidAPIError : Type := mkRapidAPIError {
  error_message : JsValue;
  error_code : JsValue;
  error_status : option Z
}.

Record APIResponse (T : Type) : Type := mkAPIResponse {
  success : bool;
  data : option T;
  error : option RapidAPIError;
  rate_limit : option (JsNumber * JsNumber)
}.
Arguments mkAPIResponse {T} _ _ _ _.
Arguments success {T} _.
Arguments data {T} _.
Arguments error {T} _.
Arguments rate_limit {T} _.

(** [a || b] *)
Definition orElse (a b : JsValue) : JsValue := if truthy a then a else b.

(** A computation inside a [try] block: a value, or the value thrown. *)
Definition Try (A : Type) : Type := (Thrown + A)%type.

(** [v.k], which throws a [TypeError] on [null] and [undefined]. *)
Definition prop (v : JsValue) (k : string) : Try JsValue :=
  if isNullish v then inl (TypeError v k) else inr (field v k).

Section WithEngine.
Context {engine : Engine}.

(** The body of the loop of [parseSearchResponse] for the item at
    index [i]. *)
Definition parseItem (i : nat) (item : JsValue) : Try SearchResult :=
  if isNullish item then inl (TypeError item "title")
  else inr (mkSearchResult
              (orElse (field item "title") (JsStr ""))
              (orElse (field item "url") (JsStr ""))
              (orElse (field item "snippet") (JsStr ""))
              (Z.of_nat i + 1)
              (field item "domain")
              (field item "favicon")
              (field item "date")).

Fixpoint parseItems (i : nat) (rest : list JsValue) (results : list SearchResult)
  : Try (list SearchResult) :=
  match rest with
  | [] => inr results
  | item :: rest' =>
      match parseItem i item with
      | inl e => inl e
      | inr r => parseItems (S i) rest' (results ++ [r])%list
      end
  end.

Definition parseSearchResponse (data : JsValue) (originalQuery : string)
  : Prog (Try WebSearchResponse) :=
  match prop data "data" with
  | inl e => Ret (inl e)
  | inr items =>
      let parsed :=
        if truthy items && isArray items
        then parseItems 0 (Js.items items) []
        else inr [] in
      match parsed with
      | inl e => Ret (inl e)
      | inr results =>
          let total :=
            orElse (field data "total_results")
                   (JsInt (Z.of_nat (List.length results))) in
          if truthy (field data "search_time")
          then Ret (inr (mkWebSearchResponse results total
                           (field data "search_time") originalQuery))
          else now <- dateNow ;;
               Ret (inr (mkWebSearchResponse results total (JsInt now)
                           originalQuery))
      end
  end.

(** [error.response.data?.message] and [...?.code] *)
Definition optField (v : JsValue) (k : string) : JsValue :=
  if isNullish v then JsUndefined else field v k.

Definition parseError (error : Thrown) : RapidAPIError :=
  match error with
  | AxiosError message code (Some (status, data)) =>
      mkRapidAPIError
        (orElse (orElse (optField data "message") message)
                (JsStr "API request failed"))
        (orElse (optField data "code") code)
        (Some status)
  | AxiosError message code None =>
      mkRapidAPIError (orElse message (JsStr "Unknown error occurred")) code None
  | TypeError v k =>
      mkRapidAPIError
        (orElse (JsStr (typeErrorMessage v k)) (JsStr "Unknown error occurred"))
        JsUndefined None
  end.

Fixpoint header (k : string) (headers : list (string * string)) : option string :=
  match headers with
  | [] => None
  | (k', v) :: rest => if (k =? k')%string then Some v else header k rest
  end.

(** [headers[k] || '0'] *)
Definition headerOrZero (k : string) (headers : list (string * string)) : string :=
  match header k headers with
  | Some v => if (v =? "")%string then "0" else v
  | None => "0"
  end.

Definition extractRateLimit (headers : list (string * string))
  : JsNumber * JsNumber :=
  (parseInt (headerOrZero "x-ratelimit-remaining" headers),
   parseInt (headerOrZero "x-ratelimit-reset" headers)).

(** The query-string entries built by [search]. *)
Definition buildRequest (params : SearchParams) : Request :=
  mkRequest
    (query params)
    (match max_results params with
     | Some n => if n =? 0 then None else Some (decimal (Z.min n 300))
     | None => None
     end)
    (match region params with
     | Some r => if (r =? "")%string then None else Some r
     | None => None
     end)
    (match safe_search params with
     | Some b => Some (if b then "active" else "off")
     | None => None
     end).

Definition failure {T : Type} (e : Thrown) : APIResponse T :=
  mkAPIResponse false None (Some (parseError e)) None.

Definition search (params : SearchParams) : Prog (APIResponse WebSearchResponse) :=
  response <- httpGet (buildRequest params) ;;
  match response with
  | Rejected e => Ret (failure e)
  | Resolved body headers =>
      parsed <- parseSearchResponse body (query params) ;;
      match parsed with
      | inl e => Ret (failure e)
      | inr d => Ret (mkAPIResponse true (Some d) None
                        (Some (extractRateLimit headers)))
      end
  end.

(** [xs.indexOf(x)], with [-1] when absent. *)
Fixpoint indexOfFrom (i : Z) (x : string) (xs : list string) : Z :=
  match xs with
  | [] => -1
  | y :: rest => if (x =? y)%string then i else indexOfFrom (i + 1) x rest
  end.
Definition indexOf (x : string) (xs : list string) : Z := indexOfFrom 0 x xs.

(** [params.max_results_per_query || 10] *)
Definition perQueryOrTen (o : option Z) : Z :=
  match o with
  | Some n => if n =? 0 then 10 else n
  | None => 10
  end.

(** The entry pushed for one sub-query. *)
Definition entryOf (query : string) (searchResult : APIResponse WebSearchResponse)
  : BulkEntry :=
  match success searchResult, data searchResult with
  | true, Some d => mkBulkEntry query (results d) (total_results d)
  | _, _ => mkBulkEntry query [] (JsInt 0)
  end.

(** The object literal passed to [search] for one query of the batch. *)
Definition subSearch (params : BulkSearchParams) (query : string) : SearchParams :=
  mkSearchParams query (Some (perQueryOrTen (max_results_per_query params)))
                 (bulk_region params) (bulk_safe_search params) None None None.

(** The [for (const query of params.queries)] loop, entered with the
    queries still to run and the entries pushed so far. *)
Fixpoint bulkLoop (params : BulkSearchParams) (rest : list string)
  (searches : list BulkEntry) : Prog (list BulkEntry) :=
  match rest with
  | [] => Ret searches
  | query :: rest' =>
      searchResult <- search (subSearch params query) ;;
      let searches := (searches ++ [entryOf query searchResult])%list in
      _ <- (if indexOf query (queries params)
               <? Z.of_nat (List.length (queries params)) - 1
            then delay 100 else Ret tt) ;;
      bulkLoop params rest' searches
  end.

Definition bulkSearch (params : BulkSearchParams)
  : Prog (APIResponse BulkSearchResponse) :=
  searches <- bulkLoop params (queries params) [] ;;
  now <- dateNow ;;
  Ret (mkAPIResponse true (Some (mkBulkSearchResponse searches now)) None None).

(** ** Advanced search *)

(** The names every object literal inherits from [Object.prototype]. *)
Definition objectPrototypeNames : list string :=
  ["constructor"; "__proto__"; "hasOwnProperty"; "isPrototypeOf";
   "propertyIsEnumerable"; "toLocaleString"; "toString"; "valueOf";
   "__defineGetter__"; "__defineSetter__"; "__lookupGetter__";
   "__lookupSetter__"].

Definition dateMap : list (string * string) :=
  [("past_day", "after:1d"); ("past_week", "after:1w");
   ("past_month", "after:1m"); ("past_year", "after:1y")].

(** What [dateMap[dateRange] || null] evaluates to. *)
Inductive DateParam : Type :=
| Fragment (s : string)
| Inherited (name : string)
| Null.

Definition mapDateRange (dateRange : string) : DateParam :=
  match header dateRange dateMap with
  | Some s => Fragment s
  | None =>
      if includes objectPrototypeNames dateRange then Inherited dateRange
      else Null
  end.

(** The query string built by [advancedSearch]. *)
Definition advancedQuery (params : SearchParams) : string :=
  let query := query params in
  let query :=
    match site_restrict params with
    | Some s => if (s =? "")%string then query else query ++ " site:" ++ s
    | None => query
    end in
  let query :=
    match file_type params with
    | Some t => if (t =? "")%string then query else query ++ " filetype:" ++ t
    | None => query
    end in
  match date_range params with
  | Some d =>
      if (d =? "")%string then query
      else match mapDateRange d with
           | Fragment s => query ++ " " ++ s
           | Inherited name => query ++ " " ++ inheritedToString name
           | Null => query
           end
  | None => query
  end.

Definition advancedSearch (params : SearchParams)
  : Prog (APIResponse WebSearchResponse) :=
  search (set_query (advancedQuery params) params).

End WithEngine.

(** ** The composed query, as the specification words it *)

(** [prefix] followed by the value of a field that is present. *)
Definition fragment (prefix : string) (o : option string) : string :=
  match o with Some v => prefix ++ v | None => "" end.

(** The fixed table of the specification; any other value adds
    nothing. *)
Definition dateFragment (o : option string) : string :=
  match o with
  | Some d =>
      if (d =? "past_day")%string then " after:1d"
      else if (d =? "past_week")%string then " after:1w"
      else if (d =? "past_month")%string then " after:1m"
      else if (d =? "past_year")%string then " after:1y"
      else ""
  | None => ""
  end.

Definition specAdvancedQuery (params : SearchParams) : string :=
  query params ++ fragment " site:" (site_restrict params)
               ++ fragment " filetype:" (file_type params)
               ++ dateFragment (date_range params).

End Service.

(* ================================================================== *)
(** * Tool handlers ([src/handlers/*.ts]) *)
(* ================================================================== *)

Module Handlers.
Import Js Effects Validation Service.

(** Which [return] of a handler was taken and with what data; the
    markdown text built from it is not modelled. *)
Inductive ToolResult : Type :=
| RateLimitExceeded (resetTime : Z)
| RateLimitWouldBeExceeded (estimatedRequests : JsValue) (resetTime : Z)
| ValidationFailed (e : ValidationError)
| UnexpectedError (e : Thrown)
| SearchFailed (e : option RapidAPIError)
| NoResults (validatedParams : SearchParams)
| NoBulkResults
| SearchResults (d : WebSearchResponse) (validatedParams : SearchParams)
| BulkResults (d : BulkSearchResponse).

Definition isError (r : ToolResult) : bool :=
  match r with
  | RateLimitExceeded _ | RateLimitWouldBeExceeded _ _ | ValidationFailed _
  | UnexpectedError _ | SearchFailed _ => true
  | _ => false
  end.

Section WithEngine.
Context {engine : Engine}.

(** The part shared by [WebSearchHandler.handle] and
    [AdvancedSearchHandler.handle], which differ in the service method
    they call. *)
Definition handleWith
  (call : SearchParams -> Prog (APIResponse WebSearchResponse))
  (params : JsValue) (rateLimiter : RateLimiter.t)
  : Prog (ToolResult * RateLimiter.t) :=
  '(admitted, rateLimiter) <- canMakeRequest rateLimiter ;;
  if negb admitted then
    resetTime <- getTimeUntilReset rateLimiter ;;
    Ret (RateLimitExceeded resetTime, rateLimiter)
  else
    match validateSearchParams params with
    | Throws e => Ret (ValidationFailed e, rateLimiter)
    | Returns validatedParams =>
        let validatedParams :=
          set_query (sanitizeQuery (query validatedParams)) validatedParams in
        rateLimiter <- recordRequest rateLimiter ;;
        result <- call validatedParams ;;
        if negb (success result) then Ret (SearchFailed (error result), rateLimiter)
        else match data result with
             | None => Ret (NoResults validatedParams, rateLimiter)
             | Some d =>
                 if Z.of_nat (List.length (results d)) =? 0
                 then Ret (NoResults validatedParams, rateLimiter)
                 else Ret (SearchResults d validatedParams, rateLimiter)
             end
    end.

Definition WebSearchHandler_handle := handleWith search.
Definition AdvancedSearchHandler_handle := handleWith advancedSearch.

(** [v?.length] *)
Definition optLength (v : JsValue) : JsValue :=
  match v with
  | JsStr s => JsInt (strLength s)
  | JsArr xs => JsInt (Z.of_nat (List.length xs))
  | JsObj props => lookup "length" props
  | _ => JsUndefined
  end.

(** [params.queries?.length || 1] for a [params] that is not nullish. *)
Definition estimatedRequests (params : JsValue) : JsValue :=
  orElse (optLength (field params "queries")) (JsInt 1).

(** [count + estimatedRequests > 100] *)
Definition wouldExceed (count : Z) (estimated : JsValue) : bool :=
  if isInteger estimated then count + int estimated >? 100
  else looseSumExceeds count estimated 100.

Definition BulkSearchHandler_handle (params : JsValue) (rateLimiter : RateLimiter.t)
  : Prog (ToolResult * RateLimiter.t) :=
  if isNullish params
  then Ret (UnexpectedError (TypeError params "queries"), rateLimiter)
  else
    let estimatedRequests := estimatedRequests params in
    '(count, rateLimiter) <- getCurrentCount rateLimiter ;;
    if wouldExceed count estimatedRequests then
      resetTime <- getTimeUntilReset rateLimiter ;;
      Ret (RateLimitWouldBeExceeded estimatedRequests resetTime, rateLimiter)
    else
      match validateBulkSearchParams params with
      | Throws e => Ret (ValidationFailed e, rateLimiter)
      | Returns validatedParams =>
          let validatedParams :=
            set_queries (map sanitizeQuery (queries validatedParams))
                        validatedParams in
          result <- bulkSearch validatedParams ;;
          if negb (success result) then Ret (SearchFailed (error result), rateLimiter)
          else match data result with
               | None => Ret (NoBulkResults, rateLimiter)
               | Some d =>
                   if Z.of_nat (List.length (searches d)) =? 0
                   then Ret (NoBulkResults, rateLimiter)
                   else Ret (BulkResults d, rateLimiter)
               end
      end.

(** The three names dispatched by [CallToolRequestSchema]. *)
Inductive Tool : Type := web_search | advanced_web_search | bulk_web_search.

Definition handle (tool : Tool) : JsValue -> RateLimiter.t -> Prog (ToolResult * RateLimiter.t) :=
  match tool with
  | web_search => WebSearchHandler_handle
  | advanced_web_search => AdvancedSearchHandler_handle
  | bulk_web_search => BulkSearchHandler_handle
  end.

End WithEngine.
End Handlers.

(* ================================================================== *)
(** * A scripted environment *)
(* ================================================================== *)

(** A concrete world and engine on which programs can be run: the
    clock advances only across pauses, and the provider answers with
    the next reply of a script (a network error once it is used up). *)
Module Scripted.
Import Js Effects.

Record Script : Type := mkScript {
  clock : Z;
  replies : list HttpReply
}.

Definition networkError : Thrown :=
  AxiosError (JsStr "Network Error") (JsStr "ERR_NETWORK") None.

#[export] Instance scriptedWorld : World Script := {
  readClock w := (clock w, w);
  provider _ w :=
    match replies w with
    | r :: rest => (r, mkScript (clock w) rest)
    | [] => (Rejected networkError, w)
    end;
  sleep ms w := mkScript (clock w + ms) (replies w)
}.

(** Leading decimal digits of a string, as an integer. *)
Fixpoint digitsFrom (acc : option Z) (s : string) : option Z :=
  match s with
  | EmptyString => acc
  | String c s' =>
      let n := codeUnit c in
      if ((48 <=? n)%nat && (n <=? 57)%nat)
      then digitsFrom (Some (match acc with Some a => 10 * a | None => 0 end
                             + Z.of_nat (n - 48))) s'
      else acc
  end.

#[export] Instance scriptedEngine : Engine := {
  parseInt s := match digitsFrom None s with Some z => Finite z 1 | None => NaN end;
  typeErrorMessage _ k := "Cannot read properties of null (reading '" ++ k ++ "')";
  inheritedToString name := "function " ++ name ++ "() { [native code] }";
  looseSumExceeds _ _ _ := false
}.

(** A provider payload with one result. *)
Definition oneResult (title : string) : JsValue :=
  JsObj [("data", JsArr [JsObj [("title", JsStr title);
                                ("url", JsStr "https://example.org/")]]);
         ("total_results", JsInt 1);
         ("search_time", JsInt 12)].

(** The four characters the sanitizer removes, as a query. *)
Definition injectionOnly : string :=
  String "<" (String ">" (String (ascii_of_nat 34) (String "'" EmptyString))).

End Scripted.

(* ================================================================== *)
(** * Further operations and notions *)
(* ================================================================== *)

Module Further.
Import Js Effects Validation Service Handlers.

(** ** Shapes of strings *)

(** No code unit of the string is one of the four the sanitizer
    deletes. *)
Fixpoint noInjectionChars (s : string) : bool :=
  match s with
  | EmptyString => true
  | String c s' => negb (isInjectionChar c) && noInjectionChars s'
  end.

(** No code unit of the string is white space. *)
Fixpoint noWhiteSpace (s : string) : bool :=
  match s with
  | EmptyString => true
  | String c s' => negb (isWhiteSpace c) && noWhiteSpace s'
  end.

(** Every white-space code unit of the string is a SPACE that follows
    a code unit that is not white space; [afterSpace] tells that the
    string comes right after white space. *)
Fixpoint singleSpaced (afterSpace : bool) (s : string) : bool :=
  match s with
  | EmptyString => true
  | String c s' =>
      if isWhiteSpace c
      then negb afterSpace && (codeUnit c =? 32)%nat && singleSpaced true s'
      else singleSpaced false s'
  end.

(** The code units of the string that are neither white space nor
    deleted by the sanitizer, in order. *)
Fixpoint visible (s : string) : string :=
  match s with
  | EmptyString => EmptyString
  | String c s' =>
      if isWhiteSpace c || isInjectionChar c then visible s'
      else String c (visible s')
  end.

(** ** The properties the validators read *)

Definition searchFieldNames : list string :=
  ["query"; "max_results"; "region"; "safe_search"; "site_restrict";
   "file_type"; "date_range"].

Definition bulkFieldNames : list string :=
  ["queries"; "max_results_per_query"; "region"; "safe_search"].

(** ** Provider payloads *)

(** A payload [parseSearchResponse] can read without a [TypeError]: it
    is not [null] or [undefined], and when its [data] is an array no
    element of that array is. *)
Definition parseable (body : JsValue) : bool :=
  negb (isNullish body)
  && (if truthy (field body "data") && isArray (field body "data")
      then forallb (fun item => negb (isNullish item)) (items (field body "data"))
      else true).

(** The items [parseSearchResponse] turns into results. *)
Definition payloadItems (body : JsValue) : list JsValue :=
  if truthy (field body "data") && isArray (field body "data")
  then items (field body "data") else [].

(** ** [healthCheck] *)

Section WithEngine.
Context {engine : Engine}.

(** [search] converts every failure into an outcome, so the [catch]
    of [healthCheck] is never entered. *)
Definition healthCheck : Prog bool :=
  result <- search (mkSearchParams "test" (Some 1) None None None None None) ;;
  Ret (success result).

(** ** The single-search handlers *)

(** The parameters the service method of a single-search tool hands to
    [search]: [search] itself for [web_search], and [advancedSearch],
    which replaces the query by the composed one, for
    [advanced_web_search]. *)
Definition searched (tool : Tool) (validatedParams : SearchParams) : SearchParams :=
  match tool with
  | advanced_web_search =>
      set_query (advancedQuery validatedParams) validatedParams
  | _ => validatedParams
  end.

End WithEngine.

(** What a single-search handler returns once its service call has
    resolved to [result]: the three [if] statements after the call. *)
Definition outcome (result : APIResponse WebSearchResponse)
  (validatedParams : SearchParams) : ToolResult :=
  if negb (success result) then SearchFailed (error result)
  else match data result with
       | None => NoResults validatedParams
       | Some d =>
           if Z.of_nat (List.length (results d)) =? 0
           then NoResults validatedParams
           else SearchResults d validatedParams
       end.

(** ** Traces *)

(** The provider calls and the pauses of a trace, in order: the query
    text of each call, the length of each pause. *)
Fixpoint rhythm (tr : list Event) : list (string + Z) :=
  match tr with
  | [] => []
  | Call req _ :: tr' => inl (q req) :: rhythm tr'
  | Pause ms :: tr' => inr ms :: rhythm tr'
  | Clock _ :: tr' => rhythm tr'
  end.

(** The test [params.queries.indexOf(query) < params.queries.length - 1]
    of [bulkSearch]. *)
Definition pauseFollows (qs : list string) (query : string) : bool :=
  indexOf query qs <? Z.of_nat (List.length qs) - 1.

(** What one iteration of the loop of [bulkSearch] adds to the rhythm. *)
Definition beat (qs : list string) (query : string) : list (string + Z) :=
  inl query :: (if pauseFollows qs query then [inr 100] else []).

(** ** The summary of [formatBulkSearchResults]

    The four numbers printed under [## Summary]: the queries, the
    results summed with [reduce], and the two [filter] counts. *)
Record Summary : Type := mkSummary {
  totalQueries : Z;
  totalResults : Z;
  successfulQueries : Z;
  failedQueries : Z
}.

Definition resultCount (s : BulkEntry) : Z :=
  Z.of_nat (List.length (entry_results s)).

Definition summary (searches : list BulkEntry) : Summary :=
  mkSummary
    (Z.of_nat (List.length searches))
    (fold_left (fun sum search => sum + resultCount search) searches 0)
    (Z.of_nat (List.length (filter (fun s => resultCount s >? 0) searches)))
    (Z.of_nat (List.length (filter (fun s => resultCount s =? 0) searches))).

End Further.

(* ================================================================== *)
(** * The HTTP route (the Next.js API route) *)
(* ================================================================== *)

(** [handleToolCall] of the route re-implements the three tools inline.
    Modelled here is what it does to the limiter and to the provider,
    with the limiter it leaves as result; the text it returns or
    throws is not modelled, and [initializeServices] is taken to have
    succeeded. *)
Module Route.
Import Js Effects Validation Service Handlers.

(** The names under which the tools are dispatched. *)
Definition toolName (tool : Tool) : string :=
  match tool with
  | web_search => "web_search"
  | advanced_web_search => "advanced_web_search"
  | bulk_web_search => "bulk_web_search"
  end.

Section WithEngine.
Context {engine : Engine}.

(** The cases [web_search] and [advanced_web_search], which differ in
    the service method they call. *)
Definition singleCase
  (call : SearchParams -> Prog (APIResponse WebSearchResponse))
  (args : JsValue) (rateLimiter : RateLimiter.t) : Prog RateLimiter.t :=
  '(admitted, rateLimiter) <- canMakeRequest rateLimiter ;;
  if negb admitted then
    _ <- getTimeUntilReset rateLimiter ;;
    Ret rateLimiter
  else
    match validateSearchParams args with
    | Throws _ => Ret rateLimiter
    | Returns validatedParams =>
        rateLimiter <- recordRequest rateLimiter ;;
        _ <- call validatedParams ;;
        Ret rateLimiter
    end.

(** The case [bulk_web_search]. *)
Definition bulkCase (args : JsValue) (rateLimiter : RateLimiter.t)
  : Prog RateLimiter.t :=
  if isNullish args then Ret rateLimiter
  else
    let estimatedRequests := estimatedRequests args in
    '(count, rateLimiter) <- getCurrentCount rateLimiter ;;
    if wouldExceed count estimatedRequests then
      _ <- getTimeUntilReset rateLimiter ;;
      Ret rateLimiter
    else
      match validateBulkSearchParams args with
      | Throws _ => Ret rateLimiter
      | Returns validatedParams =>
          _ <- bulkSearch validatedParams ;;
          Ret rateLimiter
      end.

Definition handleToolCall (name : string) (args : JsValue)
  (rateLimiter : RateLimiter.t) : Prog RateLimiter.t :=
  if (name =? "web_search")%string then singleCase search args rateLimiter
  else if (name =? "bulk_web_search")%string then bulkCase args rateLimiter
  else if (name =? "advanced_web_search")%string
       then singleCase advancedSearch args rateLimiter
  else Ret rateLimiter.

End WithEngine.
End Route.

(* ================================================================== *)
(** * Properties of the rate limiter *)
(* ================================================================== *)

Section RateLimiterFacts.
Import RateLimiter.

Lemma requests_recordAll (times : list Z) (l : t) :
  requests (recordAll times l) = (requests l ++ times)%list.
Proof.
  unfold recordAll. revert l.
  induction times as [|now times IH]; intro l; simpl.
  - now rewrite app_nil_r.
  - rewrite IH. simpl. now rewrite <- app_assoc.
Qed.

Lemma maxRequests_recordAll (times : list Z) (l : t) :
  maxRequests (recordAll times l) = maxRequests l.
Proof.
  unfold recordAll. revert l.
  induction times as [|now times IH]; intro l; simpl; [easy | now rewrite IH].
Qed.

Lemma windowMs_recordAll (times : list Z) (l : t) :
  windowMs (recordAll times l) = windowMs l.
Proof.
  unfold recordAll. revert l.
  induction times as [|now times IH]; intro l; simpl; [easy | now rewrite IH].
Qed.

Lemma filter_all {A : Type} (f : A -> bool) (xs : list A) :
  (forall x, In x xs -> f x = true) -> filter f xs = xs.
Proof.
  induction xs as [|x xs IH]; intro H; simpl; [easy|].
  rewrite (H x (or_introl eq_refl)). f_equal. apply IH.
  intros y Hy. apply H. now right.
Qed.

Lemma filter_length_le {A : Type} (f : A -> bool) (xs : list A) :
  (List.length (filter f xs) <= List.length xs)%nat.
Proof.
  induction xs as [|x xs IH]; simpl; [lia|]. destruct (f x); simpl; lia.
Qed.

Lemma filter_drops {A : Type} (f : A -> bool) (xs : list A) (x : A) :
  In x xs -> f x = false -> (List.length (filter f xs) < List.length xs)%nat.
Proof.
  induction xs as [|y xs IH]; simpl; [easy|].
  intros [-> | Hin] Hx.
  - rewrite Hx. pose proof (filter_length_le f xs). lia.
  - specialize (IH Hin Hx). destruct (f y); simpl; lia.
Qed.

(** [Math.min] returns one of its arguments, and the least of them. *)
Lemma mathMin_spec (xs : list Z) (x : Z) :
  In (mathMin x xs) (x :: xs) /\ forall y, In y (x :: xs) -> mathMin x xs <= y.
Proof.
  unfold mathMin. revert x.
  induction xs as [|z xs IH]; intro x; simpl.
  - split; [now left | intros y [<- | []]; lia].
  - destruct (IH (Z.min x z)) as [Hin Hle]. split.
    + destruct Hin as [Heq | Hin]; [|now right; right].
      rewrite <- Heq. destruct (Z.min_spec x z) as [[_ ->] | [_ ->]]; auto.
    + intros y [Hy | [Hy | Hy]].
      * specialize (Hle (Z.min x z) (or_introl eq_refl)). lia.
      * specialize (Hle (Z.min x z) (or_introl eq_refl)). lia.
      * apply Hle. now right.
Qed.

Lemma oldest_spec (l : t) (o : Z) :
  oldest l = Some o ->
  In o (requests l) /\ forall y, In y (requests l) -> o <= y.
Proof.
  unfold oldest. destruct (requests l) as [|x xs]; [discriminate|].
  intros [= <-]. apply mathMin_spec.
Qed.

Lemma oldest_recordAll_create (times : list Z) (m w : Z) :
  times <> [] -> exists o, oldest (recordAll times (create m w)) = Some o.
Proof.
  intro Hne. unfold oldest. rewrite requests_recordAll. simpl.
  destruct times as [|x xs]; [contradiction|]. eauto.
Qed.

(** C1, as stated, fails: after one recorded request, fewer than the
    capacity of two, and still inside the window, the limiter admits. *)
Lemma C1_counterexample :
  let l := recordAll [0] (create 2 60000) in
  Z.of_nat (List.length [0]) <= maxRequests l
  /\ (forall t, In t [0] -> inWindow l 1 t = true)
  /\ fst (canMakeRequest 1 l) = true.
Proof.
  cbv zeta. split; [vm_compute; discriminate|]. split; [|reflexivity].
  intros t [<- | []]. reflexivity.
Qed.

(** C1 (amended).  Start from a fresh limiter and call [recordRequest]
    at the instants [times], [n] of them.  When every recorded instant
    is still inside the window at [now], [canMakeRequest] at [now]
    returns [false] if [maxRequests <= n] and [true] if
    [n < maxRequests]: among the [n <= maxRequests] of the claim it
    blocks exactly at [n = maxRequests].  And for every
    [n <= maxRequests], once the oldest recorded instant is no longer
    inside the window at a reading [later] of the clock,
    [canMakeRequest] at [later] returns [true]. *)
Theorem C1_capacity_then_release
  (maxR window : Z) (times : list Z) :
  let l := recordAll times (create maxR window) in
  let n := Z.of_nat (List.length times) in
  (forall now,
     (forall t, In t times -> now - t < window) ->
     (maxR <= n -> fst (canMakeRequest now l) = false)
     /\ (n < maxR -> fst (canMakeRequest now l) = true)
     /\ (n <= maxR -> (fst (canMakeRequest now l) = false <-> n = maxR)))
  /\ (forall later o,
        n <= maxR ->
        oldest l = Some o ->
        window <= later - o ->
        fst (canMakeRequest later l) = true).
Proof.
  cbv zeta. split.
  - intros now Hwin.
    assert (Hcount : fst (canMakeRequest now (recordAll times (create maxR window)))
                     = (Z.of_nat (List.length times) <? maxR)).
    { unfold canMakeRequest, prune. simpl.
      rewrite requests_recordAll, maxRequests_recordAll. simpl.
      rewrite filter_all; [reflexivity|].
      intros t Ht. unfold inWindow. rewrite windowMs_recordAll. simpl.
      apply Z.ltb_lt. now apply Hwin. }
    rewrite Hcount. split; [|split].
    + intro Hfull. now apply Z.ltb_ge.
    + intro Hfew. now apply Z.ltb_lt.
    + intro Hle. rewrite Z.ltb_ge. lia.
  - intros later o Hn Ho Hgone.
    destruct (oldest_spec _ _ Ho) as [Hin _].
    unfold canMakeRequest, prune. simpl.
    rewrite maxRequests_recordAll. simpl.
    apply Z.ltb_lt.
    assert (Hdrop : (List.length (filter (inWindow (recordAll times (create maxR window)) later)
                                  (requests (recordAll times (create maxR window))))
                     < List.length (requests (recordAll times (create maxR window))))%nat).
    { apply filter_drops with (x := o); [exact Hin|].
      unfold inWindow. rewrite windowMs_recordAll. simpl.
      apply Z.ltb_ge. exact Hgone. }
    rewrite requests_recordAll in Hdrop at 2. simpl in Hdrop. lia.
Qed.

(** The amended C1 at a limiter of capacity two with a one-minute
    window: two requests at 0 and 10 block a third at 20, and at 60000
    the limiter admits again; a single request at 0 does not block at
    20, and is released at 60000 as well. *)
Lemma C1_capacity_then_release_witness :
  (forall t, In t [0; 10] -> 20 - t < 60000)
  /\ fst (canMakeRequest 20 (recordAll [0; 10] (create 2 60000))) = false
  /\ fst (canMakeRequest 60000 (recordAll [0; 10] (create 2 60000))) = true
  /\ fst (canMakeRequest 20 (recordAll [0] (create 2 60000))) = true
  /\ fst (canMakeRequest 60000 (recordAll [0] (create 2 60000))) = true.
Proof.
  assert (Hwin : forall t, In t [0; 10] -> 20 - t < 60000)
    by (intros t [<- | [<- | []]]; lia).
  assert (Hwin1 : forall t, In t [0] -> 20 - t < 60000)
    by (intros t [<- | []]; lia).
  destruct (C1_capacity_then_release 2 60000 [0; 10]) as [Hnow Hfree].
  destruct (C1_capacity_then_release 2 60000 [0]) as [Hnow1 Hfree1].
  destruct (Hnow 20 Hwin) as (Hblocked & _ & _).
  destruct (Hnow1 20 Hwin1) as (_ & Hadmitted & _).
  split; [exact Hwin|]. split; [|split; [|split]].
  - apply Hblocked. simpl. lia.
  - apply (Hfree 60000 0); [simpl; lia | reflexivity | lia].
  - apply Hadmitted. simpl. lia.
  - apply (Hfree1 60000 0); [simpl; lia | reflexivity | lia].
Defined.

(** C8, as stated, fails: with a window of 60 and requests recorded at
    0 and 50, the wait read at 59 is 1.  No request is recorded after
    that; the admission check at 60 prunes the instant 0, the oldest
    instant has then left the window, and the wait read at 60 is 50:
    it has grown as time advanced, and it is not 0. *)
Lemma C8_counterexample :
  let l := recordAll [0; 50] (create 100 60) in
  let l' := snd (canMakeRequest 60 l) in
  getTimeUntilReset 59 l = 1
  /\ oldest l = Some 0
  /\ inWindow l 60 0 = false
  /\ requests l' = [50]
  /\ getTimeUntilReset 60 l' = 50
  /\ ~ getTimeUntilReset 60 l' <= getTimeUntilReset 59 l
  /\ getTimeUntilReset 60 l' <> 0.
Proof.
  cbv zeta.
  assert (Hbefore : getTimeUntilReset 59 (recordAll [0; 50] (create 100 60)) = 1)
    by reflexivity.
  assert (Hafter : getTimeUntilReset 60
                     (snd (canMakeRequest 60 (recordAll [0; 50] (create 100 60)))) = 50)
    by reflexivity.
  split; [exact Hbefore|]. split; [reflexivity|]. split; [reflexivity|].
  split; [reflexivity|]. split; [exact Hafter|].
  rewrite Hbefore, Hafter. split; [lia | discriminate].
Qed.

(** C8 (amended).  [getTimeUntilReset] is 0 when nothing is recorded;
    otherwise it is [windowMs - (now - oldest)] floored at 0, where
    [oldest] is the least recorded instant.  As long as the stored
    sequence of instants is the same limiter state [l], neither
    recorded to nor pruned between the readings, it never increases as
    the clock advances, and it is exactly 0 as soon as the oldest
    instant is outside the window. *)
Theorem C8_time_until_reset (l : t) (now : Z) :
  (requests l = [] -> getTimeUntilReset now l = 0)
  /\ (forall o, oldest l = Some o ->
        (In o (requests l) /\ forall y, In y (requests l) -> o <= y)
        /\ getTimeUntilReset now l = Z.max 0 (windowMs l - (now - o)))
  /\ (forall later, now <= later ->
        getTimeUntilReset later l <= getTimeUntilReset now l)
  /\ (forall o, oldest l = Some o -> inWindow l now o = false ->
        getTimeUntilReset now l = 0)
  /\ 0 <= getTimeUntilReset now l.
Proof.
  unfold getTimeUntilReset, oldest, inWindow.
  destruct (requests l) as [|x xs] eqn:E.
  - repeat split; try discriminate; intros; lia.
  - split; [discriminate|]. split; [|split; [|split]].
    + intros o [= <-]. split; [apply mathMin_spec | reflexivity].
    + intros later Hle. cbv zeta. lia.
    + intros o [= <-] Hout. apply Z.ltb_ge in Hout. cbv zeta. lia.
    + cbv zeta. lia.
Qed.

(** The amended C8 on the stored requests 50 and 0 with a window of
    60: 59 ms after the oldest, 1 ms is left; from 60 ms on nothing
    is. *)
Lemma C8_time_until_reset_witness :
  getTimeUntilReset 59 (mk [50; 0] 100 60) = 1
  /\ getTimeUntilReset 75 (mk [50; 0] 100 60) <= getTimeUntilReset 59 (mk [50; 0] 100 60)
  /\ getTimeUntilReset 60 (mk [50; 0] 100 60) = 0
  /\ getTimeUntilReset 7 (mk [] 100 60) = 0.
Proof.
  destruct (C8_time_until_reset (mk [50; 0] 100 60) 59) as (_ & Hval & Hmono & _ & _).
  destruct (C8_time_until_reset (mk [50; 0] 100 60) 60) as (_ & _ & _ & Hzero & _).
  destruct (C8_time_until_reset (mk [] 100 60) 7) as (Hempty & _).
  split; [|split; [|split]].
  - destruct (Hval 0 eq_refl) as [_ ->]. reflexivity.
  - apply Hmono. lia.
  - apply (Hzero 0); reflexivity.
  - apply Hempty. reflexivity.
Defined.

End RateLimiterFacts.

(* ================================================================== *)
(** * Properties of strings *)
(* ================================================================== *)

Section StringFacts.
Import Js.

Lemma trimStart_length (s : string) :
  (String.length (trimStart s) <= String.length s)%nat.
Proof.
  induction s as [|c s IH]; simpl; [lia|].
  destruct (isWhiteSpace c); simpl; lia.
Qed.

Lemma trimEnd_length (s : string) :
  (String.length (trimEnd s) <= String.length s)%nat.
Proof.
  induction s as [|c s IH]; simpl; [lia|].
  destruct (trimEnd s) as [|d r]; [destruct (isWhiteSpace c)|]; simpl in *; lia.
Qed.

Lemma trim_length (s : string) : strLength (trim s) <= strLength s.
Proof.
  unfold strLength, trim.
  pose proof (trimEnd_length (trimStart s)). pose proof (trimStart_length s). lia.
Qed.

Lemma trimStart_clean (s : string) : startsClean (trimStart s) = true.
Proof.
  induction s as [|c s IH]; simpl; [reflexivity|].
  destruct (isWhiteSpace c) eqn:E; [exact IH | simpl; now rewrite E].
Qed.

Lemma trimEnd_clean (s : string) :
  startsClean s = true -> startsClean (trimEnd s) = true.
Proof.
  destruct s as [|c s]; simpl; [reflexivity|].
  destruct (isWhiteSpace c) eqn:E; simpl; [discriminate|]. intros _.
  destruct (trimEnd s); simpl; now rewrite E.
Qed.

Lemma trimStart_id (s : string) : startsClean s = true -> trimStart s = s.
Proof.
  destruct s as [|c s]; simpl; [reflexivity|].
  destruct (isWhiteSpace c); [discriminate | reflexivity].
Qed.

Lemma trimEnd_idem (s : string) : trimEnd (trimEnd s) = trimEnd s.
Proof.
  induction s as [|c s IH]; simpl; [reflexivity|].
  destruct (trimEnd s) as [|d r] eqn:E.
  - destruct (isWhiteSpace c) eqn:Ec; simpl; [reflexivity | now rewrite Ec].
  - change (trimEnd (String c (String d r))) with
      (match trimEnd (String d r) with
       | EmptyString => if isWhiteSpace c then EmptyString else String c EmptyString
       | r' => String c r'
       end).
    rewrite IH. reflexivity.
Qed.

Lemma trim_idem (s : string) : trim (trim s) = trim s.
Proof.
  unfold trim.
  rewrite (trimStart_id (trimEnd (trimStart s))).
  - apply trimEnd_idem.
  - apply trimEnd_clean, trimStart_clean.
Qed.

Lemma strLength_zero (s : string) : (strLength s =? 0) = true <-> s = EmptyString.
Proof.
  unfold strLength. rewrite Z.eqb_eq. destruct s; simpl; split; intro H;
    try reflexivity; try discriminate; lia.
Qed.

Lemma lowerUnit_lower (c : ascii) :
  Validation.isLowerLetter c = true -> lowerUnit c = c.
Proof.
  unfold Validation.isLowerLetter, lowerUnit. cbv zeta.
  intro H. apply andb_prop in H as [H1 H2].
  apply Nat.leb_le in H1. apply Nat.leb_le in H2.
  replace ((65 <=? codeUnit c)%nat && (codeUnit c <=? 90)%nat) with false.
  2:{ symmetry. apply andb_false_iff. right. apply Nat.leb_gt. lia. }
  replace ((192 <=? codeUnit c)%nat) with false.
  2:{ symmetry. apply Nat.leb_gt. lia. }
  reflexivity.
Qed.

Lemma toLowerCase_region (s : string) :
  Validation.regionPattern s = true -> toLowerCase s = s.
Proof.
  destruct s as [|a [|b [|c s]]]; simpl; try discriminate.
  intro H. apply andb_prop in H as [Ha Hb].
  now rewrite (lowerUnit_lower a Ha), (lowerUnit_lower b Hb).
Qed.

Lemma includes_In (xs : list string) (x : string) :
  includes xs x = true <-> In x xs.
Proof.
  unfold includes. rewrite existsb_exists. split.
  - intros (y & Hy & E). apply String.eqb_eq in E. now subst.
  - intro H. exists x. split; [exact H | apply String.eqb_refl].
Qed.

Lemma toLowerCase_allowedType (s : string) :
  includes Validation.allowedTypes s = true -> toLowerCase s = s.
Proof.
  rewrite includes_In. unfold Validation.allowedTypes. simpl.
  intros H. repeat (destruct H as [<- | H]; [reflexivity|]). contradiction.
Qed.

End StringFacts.

(* ================================================================== *)
(** * Properties of the validators *)
(* ================================================================== *)

Section ValidationFacts.
Import Js Validation.

(** A successful run of [validateSearchParams] is a successful run of
    every block, and the record holds what the blocks yielded. *)
Lemma validateSearchParams_returns (raw : JsValue) (p : SearchParams) :
  validateSearchParams raw = Returns p ->
  exists q m r s sr ft dr,
    checkObject raw = Returns tt /\ checkQuery raw = Returns q
    /\ checkMaxResults raw = Returns m /\ checkRegion raw = Returns r
    /\ checkSafeSearch raw = Returns s /\ checkSiteRestrict raw = Returns sr
    /\ checkFileType raw = Returns ft /\ checkDateRange raw = Returns dr
    /\ p = mkSearchParams q m r s sr ft dr.
Proof.
  unfold validateSearchParams, bind.
  destruct (checkObject raw) as [[]|]; [|discriminate].
  destruct (checkQuery raw) as [q|]; [|discriminate].
  destruct (checkMaxResults raw) as [m|]; [|discriminate].
  destruct (checkRegion raw) as [r|]; [|discriminate].
  destruct (checkSafeSearch raw) as [s|]; [|discriminate].
  destruct (checkSiteRestrict raw) as [sr|]; [|discriminate].
  destruct (checkFileType raw) as [ft|]; [|discriminate].
  destruct (checkDateRange raw) as [dr|]; [|discriminate].
  intros [= <-]. exists q, m, r, s, sr, ft, dr.
  repeat split; try reflexivity.
  destruct m, r, s, sr, ft, dr; reflexivity.
Qed.

Lemma validateSearchParams_blocks (raw : JsValue) q m r s sr ft dr :
  checkObject raw = Returns tt -> checkQuery raw = Returns q ->
  checkMaxResults raw = Returns m -> checkRegion raw = Returns r ->
  checkSafeSearch raw = Returns s -> checkSiteRestrict raw = Returns sr ->
  checkFileType raw = Returns ft -> checkDateRange raw = Returns dr ->
  validateSearchParams raw = Returns (mkSearchParams q m r s sr ft dr).
Proof.
  intros H0 H1 H2 H3 H4 H5 H6 H7. unfold validateSearchParams, bind.
  rewrite H0, H1, H2, H3, H4, H5, H6, H7.
  destruct m, r, s, sr, ft, dr; reflexivity.
Qed.

Lemma validateBulkSearchParams_returns (raw : JsValue) (p : BulkSearchParams) :
  validateBulkSearchParams raw = Returns p ->
  exists qs m r s,
    checkObject raw = Returns tt /\ checkQueries raw = Returns qs
    /\ checkMaxResultsPerQuery raw = Returns m /\ checkRegion raw = Returns r
    /\ checkSafeSearch raw = Returns s
    /\ p = mkBulkSearchParams qs m r s.
Proof.
  unfold validateBulkSearchParams, bind.
  destruct (checkObject raw) as [[]|]; [|discriminate].
  destruct (checkQueries raw) as [qs|]; [|discriminate].
  destruct (checkMaxResultsPerQuery raw) as [m|]; [|discriminate].
  destruct (checkRegion raw) as [r|]; [|discriminate].
  destruct (checkSafeSearch raw) as [s|]; [|discriminate].
  intros [= <-]. exists qs, m, r, s.
  repeat split; try reflexivity.
  destruct m, r, s; reflexivity.
Qed.

Lemma validateBulkSearchParams_blocks (raw : JsValue) qs m r s :
  checkObject raw = Returns tt -> checkQueries raw = Returns qs ->
  checkMaxResultsPerQuery raw = Returns m -> checkRegion raw = Returns r ->
  checkSafeSearch raw = Returns s ->
  validateBulkSearchParams raw = Returns (mkBulkSearchParams qs m r s).
Proof.
  intros H0 H1 H2 H3 H4. unfold validateBulkSearchParams, bind.
  rewrite H0, H1, H2, H3, H4. destruct m, r, s; reflexivity.
Qed.

(** ** The element loop of the bulk validator *)

Lemma validateEach_clean (elems : list JsValue) (i : nat) (acc : list string) :
  Forall (fun v => elementFault v = None) elems ->
  validateEach i elems acc
  = Returns (acc ++ map (fun v => trim (str v)) elems)%list.
Proof.
  revert i acc. induction elems as [|v elems IH]; intros i acc Hall; simpl.
  - now rewrite app_nil_r.
  - inversion Hall as [|? ? Hv Hrest]; subst.
    unfold elementFault in Hv. destruct v; try discriminate. simpl in *.
    destruct (strLength (trim s) =? 0); [discriminate|].
    destruct (strLength s >? 500); [discriminate|].
    rewrite IH by assumption. now rewrite <- app_assoc.
Qed.

Lemma validateEach_fault (pre post : list JsValue) (bad : JsValue) (m : string)
  (i : nat) (acc : list string) :
  Forall (fun v => elementFault v = None) pre ->
  elementFault bad = Some m ->
  validateEach i (pre ++ bad :: post)%list acc
  = throw ("Query at index " ++ decimal (Z.of_nat (i + List.length pre)) ++ m)
          (Some "queries").
Proof.
  revert i acc. induction pre as [|v pre IH]; intros i acc Hall Hbad.
  - simpl. rewrite Nat.add_0_r. unfold elementFault in Hbad.
    destruct bad; simpl; try (injection Hbad as <-; reflexivity).
    destruct (strLength (trim s) =? 0); [injection Hbad as <-; reflexivity|].
    destruct (strLength s >? 500); [injection Hbad as <-; reflexivity|].
    discriminate.
  - inversion Hall as [|? ? Hv Hrest]; subst.
    unfold elementFault in Hv. destruct v; try discriminate. simpl in *.
    destruct (strLength (trim s) =? 0); [discriminate|].
    destruct (strLength s >? 500); [discriminate|].
    rewrite IH by assumption. now rewrite Nat.add_succ_r.
Qed.

Lemma validateEach_returns (elems : list JsValue) (i : nat) (acc out : list string) :
  validateEach i elems acc = Returns out ->
  Forall (fun v => elementFault v = None) elems.
Proof.
  revert i acc. induction elems as [|v elems IH]; intros i acc H; [constructor|].
  simpl in H. unfold elementFault.
  destruct v; simpl in H; try discriminate.
  destruct (strLength (trim s) =? 0) eqn:E1; [discriminate|].
  destruct (strLength s >? 500) eqn:E2; [discriminate|].
  constructor; [now rewrite E1, E2 | eapply IH; eassumption].
Qed.

Lemma elementFault_valid (s : string) :
  elementFault (JsStr s) = None <-> validQuery s = true.
Proof.
  unfold elementFault, validQuery.
  destruct (strLength (trim s) =? 0), (strLength s >? 500); simpl;
    split; intro; try discriminate; reflexivity.
Qed.

Lemma validQuery_trim (s : string) : validQuery s = true -> validQuery (trim s) = true.
Proof.
  unfold validQuery. intro H. apply andb_prop in H as [H1 H2].
  rewrite trim_idem, H1. simpl.
  apply negb_true_iff in H2. apply negb_true_iff.
  pose proof (trim_length s). destruct (strLength s >? 500) eqn:E; [discriminate|].
  destruct (strLength (trim s) >? 500) eqn:E'; [|reflexivity].
  apply Z.gtb_lt in E'. rewrite Z.gtb_ltb in E. apply Z.ltb_ge in E. lia.
Qed.

(** ** Validating a validated record again *)

Lemma trim_nonempty_truthy (s : string) :
  (strLength (trim s) =? 0) = false -> truthy (JsStr (trim s)) = true.
Proof.
  intro H. simpl. apply negb_true_iff.
  destruct (trim s =? "")%string eqn:E; [|reflexivity].
  apply String.eqb_eq in E. rewrite E in H. discriminate.
Qed.

Lemma gtb_500_trim (s : string) :
  (strLength s >? 500) = false -> (strLength (trim s) >? 500) = false.
Proof.
  intro H. pose proof (trim_length s).
  rewrite Z.gtb_ltb in *. apply Z.ltb_ge. apply Z.ltb_ge in H. lia.
Qed.

Lemma typeof_string (v : JsValue) :
  (typeof v =? "string")%string = true -> v = JsStr (str v).
Proof. destruct v; simpl; intro H; try discriminate; reflexivity. Qed.

Lemma typeof_number (v : JsValue) :
  (typeof v =? "number")%string = true -> exists n, v = JsNum n.
Proof. destruct v; simpl; intro H; try discriminate; eauto. Qed.

Lemma checkQuery_again (raw raw' : JsValue) (q : string) :
  checkQuery raw = Returns q ->
  field raw' "query" = JsStr q ->
  checkQuery raw' = Returns q.
Proof.
  unfold checkQuery. cbv zeta. intros H F. rewrite F.
  destruct (negb (truthy (field raw "query"))
            || negb (typeof (field raw "query") =? "string")%string);
    [discriminate|].
  destruct (strLength (trim (str (field raw "query"))) =? 0) eqn:E1; [discriminate|].
  destruct (strLength (str (field raw "query")) >? 500) eqn:E2; [discriminate|].
  injection H as <-.
  rewrite (trim_nonempty_truthy _ E1). simpl.
  rewrite trim_idem, E1, (gtb_500_trim _ E2). reflexivity.
Qed.

Lemma JsInt_integer (z : Z) : isInteger (JsInt z) = true /\ int (JsInt z) = z.
Proof.
  unfold JsInt, isInteger, int. rewrite Z.mod_1_r, Z.div_1_r. now split.
Qed.

Lemma checkMaxResults_again (raw raw' : JsValue) (m : option Z) :
  checkMaxResults raw = Returns m ->
  field raw' "max_results" = optValue JsInt m ->
  checkMaxResults raw' = Returns m.
Proof.
  unfold checkMaxResults. cbv zeta. intros H F. rewrite F.
  destruct m as [z|]; [|reflexivity].
  assert (R : (z <? 1) || (z >? 300) = false).
  { destruct (field raw "max_results") as [| |b|n|s|xs|ps]; try discriminate;
      match type of H with
      | (if ?c then _ else _) = _ => destruct c; [discriminate|]
      end;
      match type of H with
      | (if ?c then _ else _) = _ => destruct c eqn:E; [discriminate|]
      end;
      injection H as <-; exact E. }
  destruct (JsInt_integer z) as [Hi Hv].
  unfold optValue. change (JsInt z) with (JsNum (Finite z 1)) in *.
  cbv beta iota. simpl typeof. rewrite Hi, Hv. simpl. rewrite R. reflexivity.
Qed.

Lemma checkMaxResultsPerQuery_again (raw raw' : JsValue) (m : option Z) :
  checkMaxResultsPerQuery raw = Returns m ->
  field raw' "max_results_per_query" = optValue JsInt m ->
  checkMaxResultsPerQuery raw' = Returns m.
Proof.
  unfold checkMaxResultsPerQuery. cbv zeta. intros H F. rewrite F.
  destruct m as [z|]; [|reflexivity].
  assert (R : (z <? 1) || (z >? 50) = false).
  { destruct (field raw "max_results_per_query") as [| |b|n|s|xs|ps]; try discriminate;
      match type of H with
      | (if ?c then _ else _) = _ => destruct c; [discriminate|]
      end;
      match type of H with
      | (if ?c then _ else _) = _ => destruct c eqn:E; [discriminate|]
      end;
      injection H as <-; exact E. }
  destruct (JsInt_integer z) as [Hi Hv].
  unfold optValue. change (JsInt z) with (JsNum (Finite z 1)) in *.
  cbv beta iota. simpl typeof. rewrite Hi, Hv. simpl. rewrite R. reflexivity.
Qed.

(** An accepted region is returned as it was given: it already
    matched the lower-case pattern. *)
Lemma checkRegion_returns (raw : JsValue) (r : string) :
  checkRegion raw = Returns (Some r) ->
  field raw "region" = JsStr r /\ regionPattern r = true.
Proof.
  unfold checkRegion. cbv zeta.
  destruct (field raw "region") as [| |b|n|s|xs|ps]; simpl; try discriminate.
  destruct (regionPattern s) eqn:E; simpl; [|discriminate].
  intros [= <-]. rewrite (toLowerCase_region s E). now split.
Qed.

Lemma checkRegion_again (raw raw' : JsValue) (r : option string) :
  checkRegion raw = Returns r ->
  field raw' "region" = optValue JsStr r ->
  checkRegion raw' = Returns r.
Proof.
  intros H F. destruct r as [r|].
  - destruct (checkRegion_returns raw r H) as [_ E].
    unfold checkRegion. cbv zeta. rewrite F. simpl.
    rewrite E. simpl. now rewrite (toLowerCase_region r E).
  - unfold checkRegion. cbv zeta. rewrite F. reflexivity.
Qed.

Lemma checkSafeSearch_again (raw raw' : JsValue) (b : option bool) :
  checkSafeSearch raw = Returns b ->
  field raw' "safe_search" = optValue JsBool b ->
  checkSafeSearch raw' = Returns b.
Proof.
  intros _ F. unfold checkSafeSearch. cbv zeta. rewrite F.
  destruct b; reflexivity.
Qed.

Lemma checkSiteRestrict_again (raw raw' : JsValue) (o : option string) :
  checkSiteRestrict raw = Returns o ->
  field raw' "site_restrict" = optValue JsStr o ->
  checkSiteRestrict raw' = Returns o.
Proof.
  unfold checkSiteRestrict. cbv zeta. intros H F. rewrite F.
  destruct o as [v|]; [|reflexivity].
  destruct (field raw "site_restrict") as [| |b|n|s|xs|ps]; simpl in H; try discriminate.
  destruct (strLength (trim s) =? 0) eqn:E; [discriminate|].
  injection H as <-. simpl. rewrite trim_idem, E. reflexivity.
Qed.

Lemma checkFileType_again (raw raw' : JsValue) (o : option string) :
  checkFileType raw = Returns o ->
  field raw' "file_type" = optValue JsStr o ->
  checkFileType raw' = Returns o.
Proof.
  unfold checkFileType. cbv zeta. intros H F. rewrite F.
  destruct o as [v|]; [|reflexivity].
  destruct (field raw "file_type") as [| |b|n|s|xs|ps]; simpl typeof in H;
    simpl negb in H; cbv iota in H; try discriminate.
  simpl str in H.
  destruct (includes allowedTypes (toLowerCase s)) eqn:E; simpl in H; [|discriminate].
  injection H as <-. unfold optValue. simpl typeof. simpl negb. cbv iota. simpl str.
  rewrite (toLowerCase_allowedType _ E), E. reflexivity.
Qed.

Lemma checkDateRange_again (raw raw' : JsValue) (o : option string) :
  checkDateRange raw = Returns o ->
  field raw' "date_range" = optValue JsStr o ->
  checkDateRange raw' = Returns o.
Proof.
  unfold checkDateRange. cbv zeta. intros H F. rewrite F.
  destruct o as [v|]; [|reflexivity].
  destruct (field raw "date_range") as [| |b|n|s|xs|ps]; simpl typeof in H;
    simpl negb in H; cbv iota in H; try discriminate.
  simpl str in H.
  destruct (includes allowedRanges s) eqn:E; simpl in H; [|discriminate].
  injection H as <-. unfold optValue. simpl typeof. simpl negb. cbv iota. simpl str.
  rewrite E. reflexivity.
Qed.

Lemma map_trim_clean (qs : list string) :
  Forall (fun v => elementFault v = None) (map JsStr qs) <->
  Forall (fun s => validQuery s = true) qs.
Proof.
  rewrite Forall_map. rewrite !Forall_forall.
  split; intros H s Hs; apply elementFault_valid; auto.
Qed.

Lemma checkQueries_returns (raw : JsValue) (qs : list string) :
  checkQueries raw = Returns qs ->
  exists elems,
    field raw "queries" = JsArr elems
    /\ (1 <= List.length elems <= 20)%nat
    /\ Forall (fun v => elementFault v = None) elems
    /\ qs = map (fun v => trim (str v)) elems.
Proof.
  unfold checkQueries. cbv zeta.
  destruct (field raw "queries") as [| |b|n|s|elems|ps]; simpl; try discriminate.
  - destruct b; discriminate.
  - destruct n as [z d| |neg]; simpl; try discriminate. destruct (z =? 0); discriminate.
  - destruct (s =? "")%string; discriminate.
  - destruct (Z.of_nat (List.length elems) =? 0) eqn:E0; [discriminate|].
    destruct (Z.of_nat (List.length elems) >? 20) eqn:E20; [discriminate|].
    intro H. exists elems. apply Z.eqb_neq in E0.
    rewrite Z.gtb_ltb in E20. apply Z.ltb_ge in E20.
    pose proof (validateEach_returns _ _ _ _ H) as Hall.
    rewrite (validateEach_clean _ _ _ Hall) in H. injection H as <-.
    repeat split; try assumption; lia.
Qed.

Lemma checkQueries_again (raw raw' : JsValue) (qs : list string) :
  checkQueries raw = Returns qs ->
  field raw' "queries" = JsArr (map JsStr qs) ->
  checkQueries raw' = Returns qs.
Proof.
  intros H F. destruct (checkQueries_returns raw qs H) as (elems & _ & Hlen & Hall & ->).
  unfold checkQueries. cbv zeta. rewrite F. simpl.
  rewrite !length_map.
  replace (Z.of_nat (List.length elems) =? 0) with false
    by (symmetry; apply Z.eqb_neq; lia).
  replace (Z.of_nat (List.length elems) >? 20) with false
    by (symmetry; rewrite Z.gtb_ltb; apply Z.ltb_ge; lia).
  rewrite validateEach_clean.
  - simpl. f_equal. rewrite !map_map. apply map_ext_Forall.
    eapply Forall_impl; [|exact Hall]. intros v _. simpl. apply trim_idem.
  - rewrite Forall_map. rewrite Forall_map.
    eapply Forall_impl; [|exact Hall]. intros v Hv. simpl.
    destruct v; try discriminate. simpl.
    apply elementFault_valid, validQuery_trim, elementFault_valid. exact Hv.
Qed.

Lemma field_searchParamsObject (p : SearchParams) :
  let o := searchParamsObject p in
  checkObject o = Returns tt
  /\ field o "query" = JsStr (query p)
  /\ field o "max_results" = optValue JsInt (max_results p)
  /\ field o "region" = optValue JsStr (region p)
  /\ field o "safe_search" = optValue JsBool (safe_search p)
  /\ field o "site_restrict" = optValue JsStr (site_restrict p)
  /\ field o "file_type" = optValue JsStr (file_type p)
  /\ field o "date_range" = optValue JsStr (date_range p).
Proof.
  destruct p as [q [m|] [r|] [s|] [sr|] [ft|] [dr|]]; cbv zeta;
    repeat split; reflexivity.
Qed.

Lemma field_bulkSearchParamsObject (p : BulkSearchParams) :
  let o := bulkSearchParamsObject p in
  checkObject o = Returns tt
  /\ field o "queries" = JsArr (map JsStr (queries p))
  /\ field o "max_results_per_query" = optValue JsInt (max_results_per_query p)
  /\ field o "region" = optValue JsStr (bulk_region p)
  /\ field o "safe_search" = optValue JsBool (bulk_safe_search p).
Proof.
  destruct p as [qs [m|] [r|] [s|]]; cbv zeta; repeat split; reflexivity.
Qed.

(** C9.  Validation is idempotent: when [validateSearchParams]
    (respectively [validateBulkSearchParams]) accepts a raw argument
    and returns a record, validating that record, read back as an
    argument object, succeeds and returns the same record. *)
Theorem C9_validation_idempotent :
  (forall raw p,
      validateSearchParams raw = Returns p ->
      validateSearchParams (searchParamsObject p) = Returns p)
  /\ (forall raw p,
      validateBulkSearchParams raw = Returns p ->
      validateBulkSearchParams (bulkSearchParamsObject p) = Returns p).
Proof.
  split; intros raw p H.
  - destruct (validateSearchParams_returns raw p H)
      as (q & m & r & s & sr & ft & dr & _ & Hq & Hm & Hr & Hs & Hsr & Hft & Hdr & ->).
    destruct (field_searchParamsObject (mkSearchParams q m r s sr ft dr))
      as (F0 & Fq & Fm & Fr & Fs & Fsr & Fft & Fdr).
    cbv zeta in *. simpl query in *. simpl max_results in *. simpl region in *.
    simpl safe_search in *. simpl site_restrict in *. simpl file_type in *.
    simpl date_range in *.
    apply validateSearchParams_blocks; [exact F0| | | | | | |].
    + exact (checkQuery_again _ _ _ Hq Fq).
    + exact (checkMaxResults_again _ _ _ Hm Fm).
    + exact (checkRegion_again _ _ _ Hr Fr).
    + exact (checkSafeSearch_again _ _ _ Hs Fs).
    + exact (checkSiteRestrict_again _ _ _ Hsr Fsr).
    + exact (checkFileType_again _ _ _ Hft Fft).
    + exact (checkDateRange_again _ _ _ Hdr Fdr).
  - destruct (validateBulkSearchParams_returns raw p H)
      as (qs & m & r & s & _ & Hq & Hm & Hr & Hs & ->).
    destruct (field_bulkSearchParamsObject (mkBulkSearchParams qs m r s))
      as (F0 & Fq & Fm & Fr & Fs).
    cbv zeta in *. simpl queries in *. simpl max_results_per_query in *.
    simpl bulk_region in *. simpl bulk_safe_search in *.
    apply validateBulkSearchParams_blocks; [exact F0| | | |].
    + exact (checkQueries_again _ _ _ Hq Fq).
    + exact (checkMaxResultsPerQuery_again _ _ _ Hm Fm).
    + exact (checkRegion_again _ _ _ Hr Fr).
    + exact (checkSafeSearch_again _ _ _ Hs Fs).
Qed.

(** C9 on a search argument that needs trimming and lower-casing and
    on a bulk argument that needs trimming. *)
Lemma C9_validation_idempotent_witness :
  validateSearchParams
    (searchParamsObject
       (mkSearchParams "rust" (Some 300) (Some "us") (Some false)
                       (Some "x.com") (Some "pdf") (Some "past_year")))
  = Returns (mkSearchParams "rust" (Some 300) (Some "us") (Some false)
                            (Some "x.com") (Some "pdf") (Some "past_year"))
  /\ validateBulkSearchParams
       (bulkSearchParamsObject (mkBulkSearchParams ["a"; "b c"] (Some 50) None (Some true)))
     = Returns (mkBulkSearchParams ["a"; "b c"] (Some 50) None (Some true)).
Proof.
  destruct C9_validation_idempotent as [Hsearch Hbulk].
  split.
  - apply (Hsearch (JsObj [("query", JsStr "  rust ");
                           ("max_results", JsNum (Finite 600 2));
                           ("region", JsStr "us"); ("safe_search", JsBool false);
                           ("site_restrict", JsStr " x.com"); ("file_type", JsStr "PDF");
                           ("date_range", JsStr "past_year")])).
    reflexivity.
  - apply (Hbulk (JsObj [("queries", JsArr [JsStr " a"; JsStr "b c  "]);
                         ("max_results_per_query", JsInt 50);
                         ("safe_search", JsBool true)])).
    reflexivity.
Defined.

(** ** Region *)

(** C4.  What the code does with the regions of the claim: the upper
    case [US] is rejected by the lower-case pattern, with the error of
    the [region] block, exactly like the three-letter [usa]; only
    [us] is accepted, and is returned unchanged. *)
Theorem C4_region_upper_case_rejected :
  validateSearchParams (JsObj [("query", JsStr "news"); ("region", JsStr "US")])
  = Throws (mkValidationError "region must be a 2-letter country code" (Some "region"))
  /\ validateSearchParams (JsObj [("query", JsStr "news"); ("region", JsStr "usa")])
     = Throws (mkValidationError "region must be a 2-letter country code" (Some "region"))
  /\ validateSearchParams (JsObj [("query", JsStr "news"); ("region", JsStr "us")])
     = Returns (mkSearchParams "news" None (Some "us") None None None None)
  /\ validateBulkSearchParams (JsObj [("queries", JsArr [JsStr "news"]); ("region", JsStr "US")])
     = Throws (mkValidationError "region must be a 2-letter country code" (Some "region")).
Proof. repeat split; reflexivity. Qed.

(** ** Errors and their field *)

Ltac block_throws :=
  let H := fresh "H" in
  cbv zeta; intro H;
  repeat match type of H with
         | match ?v with _ => _ end = _ => destruct v; try discriminate H
         end;
  unfold throw in H; injection H as <-; simpl;
  (split; [reflexivity | discriminate]).

Lemma checkQuery_throws (raw : JsValue) (e : ValidationError) :
  checkQuery raw = Throws e ->
  field_name e = Some "query" /\ message e <> "".
Proof. unfold checkQuery. block_throws. Qed.

Lemma checkMaxResults_throws (raw : JsValue) (e : ValidationError) :
  checkMaxResults raw = Throws e ->
  field_name e = Some "max_results" /\ message e <> "".
Proof. unfold checkMaxResults. block_throws. Qed.

Lemma checkMaxResultsPerQuery_throws (raw : JsValue) (e : ValidationError) :
  checkMaxResultsPerQuery raw = Throws e ->
  field_name e = Some "max_results_per_query" /\ message e <> "".
Proof. unfold checkMaxResultsPerQuery. block_throws. Qed.

Lemma checkRegion_throws (raw : JsValue) (e : ValidationError) :
  checkRegion raw = Throws e ->
  field_name e = Some "region" /\ message e <> "".
Proof. unfold checkRegion. block_throws. Qed.

Lemma checkSafeSearch_throws (raw : JsValue) (e : ValidationError) :
  checkSafeSearch raw = Throws e ->
  field_name e = Some "safe_search" /\ message e <> "".
Proof. unfold checkSafeSearch. block_throws. Qed.

Lemma checkSiteRestrict_throws (raw : JsValue) (e : ValidationError) :
  checkSiteRestrict raw = Throws e ->
  field_name e = Some "site_restrict" /\ message e <> "".
Proof. unfold checkSiteRestrict. block_throws. Qed.

Lemma checkFileType_throws (raw : JsValue) (e : ValidationError) :
  checkFileType raw = Throws e ->
  field_name e = Some "file_type" /\ message e <> "".
Proof. unfold checkFileType. block_throws. Qed.

Lemma checkDateRange_throws (raw : JsValue) (e : ValidationError) :
  checkDateRange raw = Throws e ->
  field_name e = Some "date_range" /\ message e <> "".
Proof. unfold checkDateRange. block_throws. Qed.

Lemma validateEach_throws (elems : list JsValue) (i : nat) (acc : list string)
  (e : ValidationError) :
  validateEach i elems acc = Throws e ->
  field_name e = Some "queries" /\ message e <> "".
Proof.
  revert i acc. induction elems as [|v elems IH]; intros i acc; simpl; [discriminate|].
  destruct (negb (typeof v =? "string")%string);
    [intros [= <-]; simpl; split; [reflexivity | discriminate]|].
  destruct (strLength (trim (str v)) =? 0);
    [intros [= <-]; simpl; split; [reflexivity | discriminate]|].
  destruct (strLength (str v) >? 500);
    [intros [= <-]; simpl; split; [reflexivity | discriminate]|].
  apply IH.
Qed.

Lemma checkQueries_throws (raw : JsValue) (e : ValidationError) :
  checkQueries raw = Throws e ->
  field_name e = Some "queries" /\ message e <> "".
Proof.
  unfold checkQueries. cbv zeta.
  destruct (negb (truthy (field raw "queries")) || negb (isArray (field raw "queries")));
    [intros [= <-]; simpl; split; [reflexivity | discriminate]|].
  destruct (Z.of_nat (List.length (items (field raw "queries"))) =? 0);
    [intros [= <-]; simpl; split; [reflexivity | discriminate]|].
  destruct (Z.of_nat (List.length (items (field raw "queries"))) >? 20);
    [intros [= <-]; simpl; split; [reflexivity | discriminate]|].
  apply validateEach_throws.
Qed.

Lemma checkObject_throws (raw : JsValue) (e : ValidationError) :
  checkObject raw = Throws e ->
  e = mkValidationError "Parameters must be an object" None.
Proof.
  unfold checkObject.
  destruct (negb (truthy raw) || negb (typeof raw =? "object")%string);
    [intros [= <-]; reflexivity | discriminate].
Qed.

(** C6, as stated, fails: the error raised for an argument that is not
    an object carries no field, in both validators. *)
Lemma C6_counterexample :
  validateSearchParams JsNull
  = Throws (mkValidationError "Parameters must be an object" None)
  /\ validateBulkSearchParams (JsStr "news")
     = Throws (mkValidationError "Parameters must be an object" None).
Proof. split; reflexivity. Qed.

(** C6 (amended).  Every [ValidationError] raised by either validator
    has a non-empty message.  It is either the error of the first
    test, raised when the argument is not a non-null object, which is
    [Parameters must be an object] and carries no field; or it was
    raised by the block of one field and carries the name of that
    field. *)
Theorem C6_errors_name_their_field (raw : JsValue) (e : ValidationError) :
  (validateSearchParams raw = Throws e ->
   message e <> ""
   /\ ((checkObject raw = Throws e /\ field_name e = None)
       \/ (checkQuery raw = Throws e /\ field_name e = Some "query")
       \/ (checkMaxResults raw = Throws e /\ field_name e = Some "max_results")
       \/ (checkRegion raw = Throws e /\ field_name e = Some "region")
       \/ (checkSafeSearch raw = Throws e /\ field_name e = Some "safe_search")
       \/ (checkSiteRestrict raw = Throws e /\ field_name e = Some "site_restrict")
       \/ (checkFileType raw = Throws e /\ field_name e = Some "file_type")
       \/ (checkDateRange raw = Throws e /\ field_name e = Some "date_range")))
  /\ (validateBulkSearchParams raw = Throws e ->
      message e <> ""
      /\ ((checkObject raw = Throws e /\ field_name e = None)
          \/ (checkQueries raw = Throws e /\ field_name e = Some "queries")
          \/ (checkMaxResultsPerQuery raw = Throws e
              /\ field_name e = Some "max_results_per_query")
          \/ (checkRegion raw = Throws e /\ field_name e = Some "region")
          \/ (checkSafeSearch raw = Throws e /\ field_name e = Some "safe_search"))).
Proof.
  split.
  - unfold validateSearchParams, bind.
    destruct (checkObject raw) as [[]|e0] eqn:E0.
    2:{ intros [= <-]. rewrite (checkObject_throws _ _ E0).
        split; [discriminate | left; now split]. }
    destruct (checkQuery raw) as [q|e1] eqn:E1.
    2:{ intros [= <-]. destruct (checkQuery_throws _ _ E1). auto 10. }
    destruct (checkMaxResults raw) as [m|e2] eqn:E2.
    2:{ intros [= <-]. destruct (checkMaxResults_throws _ _ E2). auto 10. }
    destruct (checkRegion raw) as [r|e3] eqn:E3.
    2:{ intros [= <-]. destruct (checkRegion_throws _ _ E3). auto 10. }
    destruct (checkSafeSearch raw) as [s|e4] eqn:E4.
    2:{ intros [= <-]. destruct (checkSafeSearch_throws _ _ E4). auto 10. }
    destruct (checkSiteRestrict raw) as [sr|e5] eqn:E5.
    2:{ intros [= <-]. destruct (checkSiteRestrict_throws _ _ E5). auto 12. }
    destruct (checkFileType raw) as [ft|e6] eqn:E6.
    2:{ intros [= <-]. destruct (checkFileType_throws _ _ E6). auto 12. }
    destruct (checkDateRange raw) as [dr|e7] eqn:E7.
    2:{ intros [= <-]. destruct (checkDateRange_throws _ _ E7). auto 12. }
    discriminate.
  - unfold validateBulkSearchParams, bind.
    destruct (checkObject raw) as [[]|e0] eqn:E0.
    2:{ intros [= <-]. rewrite (checkObject_throws _ _ E0).
        split; [discriminate | left; now split]. }
    destruct (checkQueries raw) as [q|e1] eqn:E1.
    2:{ intros [= <-]. destruct (checkQueries_throws _ _ E1). auto 10. }
    destruct (checkMaxResultsPerQuery raw) as [m|e2] eqn:E2.
    2:{ intros [= <-]. destruct (checkMaxResultsPerQuery_throws _ _ E2). auto 10. }
    destruct (checkRegion raw) as [r|e3] eqn:E3.
    2:{ intros [= <-]. destruct (checkRegion_throws _ _ E3). auto 10. }
    destruct (checkSafeSearch raw) as [s|e4] eqn:E4.
    2:{ intros [= <-]. destruct (checkSafeSearch_throws _ _ E4). auto 10. }
    discriminate.
Qed.

(** The amended C6 on an out-of-range [max_results] and on a blank
    bulk query: the errors name [max_results] and [queries]. *)
Lemma C6_errors_name_their_field_witness :
  (exists e,
      validateSearchParams (JsObj [("query", JsStr "news"); ("max_results", JsInt 301)])
      = Throws e
      /\ message e <> "" /\ field_name e = Some "max_results")
  /\ (exists e,
         validateBulkSearchParams (JsObj [("queries", JsArr [JsStr "news"; JsStr " "])])
         = Throws e
         /\ message e <> "" /\ field_name e = Some "queries").
Proof.
  split.
  - exists (mkValidationError "max_results must be between 1 and 300" (Some "max_results")).
    destruct (C6_errors_name_their_field
                (JsObj [("query", JsStr "news"); ("max_results", JsInt 301)])
                (mkValidationError "max_results must be between 1 and 300"
                                   (Some "max_results"))) as [Hsearch _].
    destruct (Hsearch eq_refl) as [Hmsg _].
    split; [reflexivity|]. split; [exact Hmsg | reflexivity].
  - exists (mkValidationError "Query at index 1 cannot be empty" (Some "queries")).
    destruct (C6_errors_name_their_field
                (JsObj [("queries", JsArr [JsStr "news"; JsStr " "])])
                (mkValidationError "Query at index 1 cannot be empty"
                                   (Some "queries"))) as [_ Hbulk].
    destruct (Hbulk eq_refl) as [Hmsg _].
    split; [reflexivity|]. split; [exact Hmsg | reflexivity].
Defined.

End ValidationFacts.

(* ================================================================== *)
(** * Properties of the search orchestrator *)
(* ================================================================== *)

Section ServiceFacts.
Import Js Effects Validation Service.
Context {engine : Engine}.

Lemma append_assoc (a b c : string) : ((a ++ b) ++ c = a ++ (b ++ c))%string.
Proof. induction a as [|x a IH]; simpl; [reflexivity | now rewrite IH]. Qed.

Lemma append_empty_r (a : string) : (a ++ "" = a)%string.
Proof. induction a as [|x a IH]; simpl; [reflexivity | now rewrite IH]. Qed.

(** ** What validation guarantees about the optional filters *)

Lemma checkSiteRestrict_returns (raw : JsValue) (v : string) :
  checkSiteRestrict raw = Returns (Some v) -> v <> "".
Proof.
  unfold checkSiteRestrict. cbv zeta.
  destruct (field raw "site_restrict"); try discriminate;
    (destruct (negb _); [discriminate|]);
    (destruct (strLength _ =? 0) eqn:E; [discriminate|]);
    intros [= <-] Hempty; simpl str in *; rewrite Hempty in E; discriminate.
Qed.

Lemma checkFileType_returns (raw : JsValue) (v : string) :
  checkFileType raw = Returns (Some v) -> In v allowedTypes.
Proof.
  unfold checkFileType. cbv zeta.
  destruct (field raw "file_type"); try discriminate;
    (destruct (negb (typeof _ =? _)%string); [discriminate|]);
    (destruct (includes _ _) eqn:E; simpl; [|discriminate]);
    intros [= <-]; exact (proj1 (includes_In _ _) E).
Qed.

Lemma checkDateRange_returns (raw : JsValue) (v : string) :
  checkDateRange raw = Returns (Some v) -> In v allowedRanges.
Proof.
  unfold checkDateRange. cbv zeta.
  destruct (field raw "date_range"); try discriminate;
    (destruct (negb (typeof _ =? _)%string); [discriminate|]);
    (destruct (includes _ _) eqn:E; simpl; [|discriminate]);
    intros [= <-]; exact (proj1 (includes_In _ _) E).
Qed.

(** On the filters validation lets through, the query built by the
    code is the query of the specification. *)
Lemma advancedQuery_spec (q : string) (m : option Z) (r : option string)
  (s : option bool) (sr ft dr : option string) :
  (forall v, sr = Some v -> v <> "") ->
  (forall v, ft = Some v -> In v allowedTypes) ->
  (forall v, dr = Some v -> In v allowedRanges) ->
  advancedQuery (mkSearchParams q m r s sr ft dr)
  = specAdvancedQuery (mkSearchParams q m r s sr ft dr).
Proof.
  intros Hsr Hft Hdr.
  assert (Esr : forall v, sr = Some v -> (v =? "")%string = false).
  { intros v Hv. apply String.eqb_neq. now apply Hsr. }
  assert (Eft : forall v, ft = Some v -> (v =? "")%string = false).
  { intros v Hv. apply String.eqb_neq. intros ->.
    specialize (Hft "" Hv). simpl in Hft.
    repeat (destruct Hft as [Hft | Hft]; [discriminate|]). contradiction. }
  unfold advancedQuery, specAdvancedQuery, fragment.
  cbn [query site_restrict file_type date_range].
  destruct sr as [v|]; [rewrite (Esr v eq_refl)|];
    (destruct ft as [t|]; [rewrite (Eft t eq_refl)|]);
    (destruct dr as [d|];
     [specialize (Hdr d eq_refl); simpl in Hdr;
      destruct Hdr as [<- | [<- | [<- | [<- | []]]]]|]);
    cbv - [String.append];
    rewrite ?append_assoc, ?append_empty_r; reflexivity.
Qed.

(** C3.  For every record [v] returned by [validateSearchParams], with
    its query replaced by any text [q] (the handler puts the sanitized
    query there), [advancedSearch] calls [search] on the same record
    with the query [q] followed, in this order, by [ site:<site_restrict>]
    if present, [ filetype:<file_type>] if present, and the date
    fragment of the fixed table if [date_range] is present.  A
    [date_range] that is neither in the table nor a name inherited from
    [Object.prototype] adds nothing, on any record.  With
    [x.com], [pdf] and [past_year] the query is
    [<query> site:x.com filetype:pdf after:1y]. *)
Theorem C3_advanced_query_composition :
  (forall raw v q,
      validateSearchParams raw = Returns v ->
      let params := set_query q v in
      advancedQuery params
      = (q ++ fragment " site:" (site_restrict v)
           ++ fragment " filetype:" (file_type v)
           ++ dateFragment (date_range v))%string
      /\ advancedSearch params = search (set_query (advancedQuery params) params))
  /\ (forall params d,
         date_range params = Some d ->
         ~ In d allowedRanges -> ~ In d objectPrototypeNames ->
         mapDateRange d = Null
         /\ advancedQuery params
            = advancedQuery (mkSearchParams (query params) (max_results params)
                               (region params) (safe_search params)
                               (site_restrict params) (file_type params) None))
  /\ (forall q m r s,
         advancedQuery (mkSearchParams q m r s (Some "x.com") (Some "pdf")
                                       (Some "past_year"))
         = (q ++ " site:x.com filetype:pdf after:1y")%string).
Proof.
  split; [|split].
  - intros raw v q H. cbv zeta.
    destruct (validateSearchParams_returns raw v H)
      as (q0 & m & r & s & sr & ft & dr & _ & _ & _ & _ & _ & Hsr & Hft & Hdr & ->).
    split; [|reflexivity].
    unfold set_query. simpl.
    rewrite advancedQuery_spec; [reflexivity| | |].
    + intros x ->. exact (checkSiteRestrict_returns raw x Hsr).
    + intros x ->. exact (checkFileType_returns raw x Hft).
    + intros x ->. exact (checkDateRange_returns raw x Hdr).
  - intros params d Hd Hrange Hproto.
    assert (Hnull : mapDateRange d = Null).
    { unfold mapDateRange.
      assert (Hhead : header d dateMap = None).
      { unfold dateMap. simpl.
        repeat match goal with
               | |- context [(d =? ?k)%string] =>
                   destruct (d =? k)%string eqn:?;
                   [exfalso; apply Hrange;
                    match goal with E : (d =? _)%string = true |- _ =>
                      apply String.eqb_eq in E; subst d; simpl; tauto end|]
               end.
        reflexivity. }
      rewrite Hhead.
      destruct (includes objectPrototypeNames d) eqn:E; [|reflexivity].
      apply includes_In in E. contradiction. }
    split; [exact Hnull|].
    unfold advancedQuery. simpl. rewrite Hd, Hnull.
    destruct (d =? "")%string; reflexivity.
  - intros q m r s. cbv - [String.append].
    rewrite !append_assoc. reflexivity.
Qed.

(** ** Running programs *)

Context {W : Type} {world : World W}.

Lemma exec_bind {A B : Type} (p : Prog A) (f : A -> Prog B) (w : W) :
  exec (Effects.bind p f) w
  = let '(a, tr, w1) := exec p w in
    let '(b, tr', w2) := exec (f a) w1 in
    (b, (tr ++ tr')%list, w2).
Proof.
  revert w. induction p as [a|k IH|req k IH|ms k IH]; intro w; simpl.
  - destruct (exec (f a) w) as [[b tr'] w2]. reflexivity.
  - destruct (readClock w) as [t w1]. rewrite IH.
    destruct (exec (k t) w1) as [[a tr] w2].
    destruct (exec (f a) w2) as [[b tr'] w3]. reflexivity.
  - destruct (provider req w) as [r w1]. rewrite IH.
    destruct (exec (k r) w1) as [[a tr] w2].
    destruct (exec (f a) w2) as [[b tr'] w3]. reflexivity.
  - rewrite IH.
    destruct (exec k (sleep ms w)) as [[a tr] w2].
    destruct (exec (f a) w2) as [[b tr'] w3]. reflexivity.
Qed.

Lemma calls_app (tr tr' : list Event) :
  calls (tr ++ tr') = (calls tr ++ calls tr')%list.
Proof.
  induction tr as [|ev tr IH]; simpl; [reflexivity|].
  destruct ev; simpl; now rewrite IH.
Qed.

(** [parseSearchResponse] reads the clock at most; it calls nobody. *)
Lemma parseSearchResponse_calls (body : JsValue) (originalQuery : string) (w : W) :
  calls (trace (exec (parseSearchResponse body originalQuery) w)) = [].
Proof.
  unfold parseSearchResponse.
  destruct (prop body "data") as [e|its]; [reflexivity|].
  destruct (if truthy its && isArray its then parseItems 0 (items its) [] else inr [])
    as [e|rs]; [reflexivity|].
  destruct (truthy (field body "search_time")); [reflexivity|].
  unfold trace. simpl. destruct (readClock w) as [t w1]. reflexivity.
Qed.

(** One [search] is one provider call, with the request built from its
    parameters; when the call is rejected the outcome is the failure
    built from the rejection. *)
Lemma search_exec (params : SearchParams) (w : W) :
  exists reply,
    calls (trace (exec (search params) w)) = [(buildRequest params, reply)]
    /\ reply = fst (provider (buildRequest params) w)
    /\ (forall e, reply = Rejected e ->
          result (exec (search params) w) = failure e).
Proof.
  unfold search, httpGet. simpl.
  destruct (provider (buildRequest params) w) as [reply w1] eqn:P.
  exists reply. simpl.
  destruct reply as [body headers|e].
  - pose proof (parseSearchResponse_calls body (query params) w1) as Hc.
    rewrite exec_bind.
    destruct (exec (parseSearchResponse body (query params)) w1) as [[parsed tr] w2].
    unfold trace in Hc. simpl in Hc.
    destruct parsed as [e|d]; simpl; unfold trace; simpl;
      rewrite app_nil_r, Hc; repeat split; try reflexivity; intros e' H'; discriminate.
  - unfold trace, result. simpl. repeat split; try reflexivity.
    intros e' [= <-]. reflexivity.
Qed.

Lemma bulkLoop_cons (params : BulkSearchParams) (query : string)
  (rest : list string) (acc : list BulkEntry) :
  bulkLoop params (query :: rest) acc
  = Effects.bind (search (subSearch params query)) (fun searchResult =>
      Effects.bind (if indexOf query (queries params)
                       <? Z.of_nat (List.length (queries params)) - 1
                    then delay 100 else Ret tt) (fun _ =>
        bulkLoop params rest (acc ++ [entryOf query searchResult])%list)).
Proof. reflexivity. Qed.

Lemma bulkLoop_exec (params : BulkSearchParams) (rest : list string)
  (acc : list BulkEntry) (w : W) :
  exists entries,
    result (exec (bulkLoop params rest acc) w) = (acc ++ entries)%list
    /\ map entry_query entries = rest
    /\ map fst (calls (trace (exec (bulkLoop params rest acc) w)))
       = map (fun query => buildRequest (subSearch params query)) rest
    /\ forall i req e,
         nth_error (calls (trace (exec (bulkLoop params rest acc) w))) i
         = Some (req, Rejected e) ->
         exists query,
           nth_error rest i = Some query
           /\ nth_error entries i = Some (mkBulkEntry query [] (JsInt 0)).
Proof.
  revert acc w. induction rest as [|query rest IH]; intros acc w.
  - exists []. simpl. unfold result, trace. simpl.
    rewrite app_nil_r. repeat split; try reflexivity.
    intros i req e H. destruct i; discriminate.
  - rewrite bulkLoop_cons, exec_bind.
    destruct (search_exec (subSearch params query) w) as (reply & Hcalls & _ & Hfail).
    destruct (exec (search (subSearch params query)) w) as [[searchResult tr1] w1].
    unfold trace, result in Hcalls, Hfail. simpl in Hcalls, Hfail.
    rewrite exec_bind.
    set (pause := if indexOf query (queries params)
                       <? Z.of_nat (List.length (queries params)) - 1
                  then delay 100 else Ret tt).
    assert (Hpause : calls (trace (exec pause w1)) = []).
    { unfold pause. destruct (_ <? _); reflexivity. }
    destruct (exec pause w1) as [[u tr2] w2].
    unfold trace in Hpause. simpl in Hpause.
    destruct (IH (acc ++ [entryOf query searchResult])%list w2)
      as (entries & Hres & Hq & Hreqs & Hrej).
    destruct (exec (bulkLoop params rest (acc ++ [entryOf query searchResult])%list) w2)
      as [[out tr3] w3].
    unfold trace, result in *. simpl in *.
    exists (entryOf query searchResult :: entries).
    rewrite !calls_app, Hcalls, Hpause. simpl.
    split; [rewrite Hres; now rewrite <- app_assoc|].
    split; [f_equal; [destruct searchResult as [[] [d|] ? ?]; reflexivity | exact Hq]|].
    split; [f_equal; exact Hreqs|].
    intros i req e H. destruct i as [|i]; simpl in *.
    + injection H as <- ->. exists query. split; [reflexivity|].
      rewrite (Hfail e eq_refl). reflexivity.
    + exact (Hrej i req e H).
Qed.

(** C2.  [bulkSearch] always reports success and carries no error.
    Its batch has exactly one entry per input query, in input order,
    and exactly one provider call was made per query, in the same
    order.  Whenever the provider call of the sub-query at index [i]
    was rejected, the entry at index [i] is that query with an empty
    result list and a total of 0. *)
Theorem C2_bulk_failure_isolated (params : BulkSearchParams) (w : W) :
  let run := exec (bulkSearch params) w in
  success (result run) = true
  /\ error (result run) = None
  /\ exists d,
       data (result run) = Some d
       /\ map entry_query (searches d) = queries params
       /\ List.length (searches d) = List.length (queries params)
       /\ map fst (calls (trace run))
          = map (fun query => buildRequest (subSearch params query)) (queries params)
       /\ forall i req e,
            nth_error (calls (trace run)) i = Some (req, Rejected e) ->
            exists query,
              nth_error (queries params) i = Some query
              /\ nth_error (searches d) i = Some (mkBulkEntry query [] (JsInt 0)).
Proof.
  cbv zeta. unfold bulkSearch. rewrite exec_bind.
  destruct (bulkLoop_exec params (queries params) [] w)
    as (entries & Hres & Hq & Hreqs & Hrej).
  destruct (exec (bulkLoop params (queries params) []) w) as [[out tr] w1].
  unfold result, trace in *. simpl in *. subst out.
  destruct (readClock w1) as [t w2]. simpl.
  split; [reflexivity|]. split; [reflexivity|].
  eexists. split; [reflexivity|]. simpl.
  rewrite calls_app. simpl. rewrite app_nil_r.
  split; [exact Hq|].
  split; [rewrite <- Hq; now rewrite length_map|].
  split; [exact Hreqs | exact Hrej].
Qed.

End ServiceFacts.

(* ================================================================== *)
(** * Properties of the tool handlers *)
(* ================================================================== *)

Section HandlerFacts.
Import Js Effects Validation Service Handlers.
Context {engine : Engine} {W : Type} {world : World W}.

Lemma exec_canMakeRequest (l : RateLimiter.t) (w : W) :
  exec (canMakeRequest l) w
  = (RateLimiter.canMakeRequest (fst (readClock w)) l,
     [Clock (fst (readClock w))], snd (readClock w)).
Proof. unfold canMakeRequest. simpl. destruct (readClock w). reflexivity. Qed.

Lemma exec_getCurrentCount (l : RateLimiter.t) (w : W) :
  exec (getCurrentCount l) w
  = (RateLimiter.getCurrentCount (fst (readClock w)) l,
     [Clock (fst (readClock w))], snd (readClock w)).
Proof. unfold getCurrentCount. simpl. destruct (readClock w). reflexivity. Qed.

Lemma exec_recordRequest (l : RateLimiter.t) (w : W) :
  exec (recordRequest l) w
  = (RateLimiter.recordRequest (fst (readClock w)) l,
     [Clock (fst (readClock w))], snd (readClock w)).
Proof. unfold recordRequest. simpl. destruct (readClock w). reflexivity. Qed.

Lemma getTimeUntilReset_calls (l : RateLimiter.t) (w : W) :
  calls (trace (exec (getTimeUntilReset l) w)) = [].
Proof.
  unfold getTimeUntilReset. destruct (RateLimiter.requests l); [reflexivity|].
  unfold trace. simpl. destruct (readClock w). reflexivity.
Qed.

(** What [exec] gives for a program that ends by returning a pair. *)
Lemma exec_bind_ret {A B : Type} (p : Prog A) (f : A -> B) (w : W) :
  exec (Effects.bind p (fun a => Ret (f a))) w
  = (f (result (exec p w)), trace (exec p w), snd (exec p w)).
Proof.
  rewrite exec_bind. destruct (exec p w) as [[a tr] w1]. simpl.
  unfold result, trace. simpl. now rewrite app_nil_r.
Qed.

(** The bulk handler never calls [recordRequest]: the limiter it
    leaves is the one it was given, pruned at most. *)
Lemma BulkSearchHandler_never_records (raw : JsValue) (l : RateLimiter.t) (w : W) :
  let run := exec (BulkSearchHandler_handle raw l) w in
  snd (result run) = l
  \/ snd (result run) = RateLimiter.prune (fst (readClock w)) l.
Proof.
  cbv zeta. unfold BulkSearchHandler_handle.
  destruct (isNullish raw); [left; reflexivity|]. right.
  rewrite exec_bind, exec_getCurrentCount. cbn [RateLimiter.getCurrentCount].
  cbv zeta.
  set (l1 := RateLimiter.prune (fst (readClock w)) l).
  set (w1 := snd (readClock w)).
  destruct (wouldExceed _ _).
  - rewrite exec_bind_ret.
    destruct (exec (getTimeUntilReset l1) w1) as [[rt tr] w2]. reflexivity.
  - destruct (validateBulkSearchParams raw) as [p|e].
    + rewrite exec_bind.
      destruct (exec (bulkSearch _) w1) as [[res tr] w2].
      destruct (negb (success res)); [reflexivity|].
      destruct (data res) as [d|]; [|reflexivity].
      destruct (_ =? 0); reflexivity.
    + reflexivity.
Qed.

(** A bulk request that validation rejects reaches no provider. *)
Lemma BulkSearchHandler_rejected_calls (raw : JsValue) (e : ValidationError)
  (l : RateLimiter.t) (w : W) :
  validateBulkSearchParams raw = Throws e ->
  calls (trace (exec (BulkSearchHandler_handle raw l) w)) = [].
Proof.
  intro H. unfold BulkSearchHandler_handle.
  destruct (isNullish raw); [reflexivity|].
  rewrite exec_bind, exec_getCurrentCount. cbn [RateLimiter.getCurrentCount].
  cbv zeta.
  set (l1 := RateLimiter.prune (fst (readClock w)) l).
  set (w1 := snd (readClock w)).
  destruct (wouldExceed _ _).
  - rewrite exec_bind_ret.
    pose proof (getTimeUntilReset_calls l1 w1) as Hc.
    destruct (exec (getTimeUntilReset l1) w1) as [[rt tr] w2].
    unfold trace in *. simpl in *. now rewrite Hc.
  - rewrite H. reflexivity.
Qed.

Lemma exec_httpGet (req : Request) (w : W) :
  exec (httpGet req) w
  = (fst (provider req w), [Call req (fst (provider req w))], snd (provider req w)).
Proof. unfold httpGet. simpl. destruct (provider req w). reflexivity. Qed.

(** A [search] starts with its provider call and makes no other. *)
Lemma search_trace (params : SearchParams) (w : W) :
  exists reply after,
    trace (exec (search params) w) = Call (buildRequest params) reply :: after
    /\ calls after = [].
Proof.
  unfold search. rewrite exec_bind, exec_httpGet.
  set (reply := fst (provider (buildRequest params) w)).
  set (w1 := snd (provider (buildRequest params) w)).
  destruct reply as [body headers|e].
  - rewrite exec_bind.
    pose proof (parseSearchResponse_calls body (query params) w1) as Hc.
    destruct (exec (parseSearchResponse body (query params)) w1) as [[parsed tr] w2].
    unfold trace in *. simpl in Hc.
    exists (Resolved body headers), tr.
    destruct parsed; simpl; rewrite app_nil_r; now split.
  - exists (Rejected e), []. now split.
Qed.

(** The single-search handlers.  When the limiter admits and the
    arguments validate, the instant read after validation is recorded
    and then the one provider call is made, for the sanitized query. *)
Lemma handleWith_search_admitted (f : SearchParams -> SearchParams)
  (raw : JsValue) (p : SearchParams) (l : RateLimiter.t) (w : W) :
  fst (RateLimiter.canMakeRequest (fst (readClock w)) l) = true ->
  validateSearchParams raw = Returns p ->
  let run := exec (handleWith (fun p => search (f p)) raw l) w in
  let t1 := fst (readClock w) in
  let t2 := fst (readClock (snd (readClock w))) in
  exists reply after,
    snd (result run) = RateLimiter.recordRequest t2 (RateLimiter.prune t1 l)
    /\ trace run
       = Clock t1 :: Clock t2
           :: Call (buildRequest (f (set_query (sanitizeQuery (query p)) p))) reply
           :: after
    /\ calls after = [].
Proof.
  intros Hadm Hval. cbv zeta. unfold handleWith.
  rewrite exec_bind, exec_canMakeRequest.
  destruct (RateLimiter.canMakeRequest (fst (readClock w)) l) as [admitted l1] eqn:E.
  simpl in Hadm. subst admitted. cbn [negb].
  assert (El : l1 = RateLimiter.prune (fst (readClock w)) l)
    by (unfold RateLimiter.canMakeRequest in E; now injection E as _ <-).
  rewrite Hval, exec_bind, exec_recordRequest.
  set (w1 := snd (readClock w)). set (w2 := snd (readClock w1)).
  set (p' := f (set_query (sanitizeQuery (query p)) p)).
  rewrite exec_bind.
  destruct (search_trace p' w2) as (reply & after & Htr & Hafter).
  destruct (exec (search p') w2) as [[res tr] w3].
  unfold trace in Htr. simpl in Htr. subst tr l1.
  exists reply, after.
  destruct (negb (success res));
    [|destruct (data res) as [d|]; [destruct (_ =? 0)|]];
    unfold result, trace; simpl; rewrite app_nil_r;
    repeat split; try reflexivity; assumption.
Qed.

(** When the limiter denies or validation throws, no provider is
    called and nothing is recorded. *)
Lemma handleWith_search_denied (f : SearchParams -> SearchParams)
  (raw : JsValue) (l : RateLimiter.t) (w : W) :
  fst (RateLimiter.canMakeRequest (fst (readClock w)) l) = false
  \/ (exists e, validateSearchParams raw = Throws e) ->
  let run := exec (handleWith (fun p => search (f p)) raw l) w in
  calls (trace run) = []
  /\ snd (result run) = RateLimiter.prune (fst (readClock w)) l.
Proof.
  intros H. cbv zeta. unfold handleWith.
  rewrite exec_bind, exec_canMakeRequest.
  destruct (RateLimiter.canMakeRequest (fst (readClock w)) l) as [admitted l1] eqn:E.
  assert (El : l1 = RateLimiter.prune (fst (readClock w)) l)
    by (unfold RateLimiter.canMakeRequest in E; now injection E as _ <-).
  simpl in H. destruct admitted; cbn [negb].
  - destruct H as [H | [e H]]; [discriminate|]. rewrite H.
    unfold result, trace. simpl. now split.
  - rewrite exec_bind_ret.
    pose proof (getTimeUntilReset_calls l1 (snd (readClock w))) as Hc.
    destruct (exec (getTimeUntilReset l1) (snd (readClock w))) as [[rt tr] w2].
    unfold trace, result in *. simpl in *. rewrite Hc. now split.
Qed.

(** C7.  Take an argument object whose [queries] is an array.  With
    more than 20 elements (21 in particular) the validator throws the
    size error, and the bulk handler run on it calls no provider,
    whatever the limiter and the world.  With 1 to 20 elements (20 in
    particular) that all satisfy the single-query rules (a string,
    non-empty after trimming, at most 500 code units) the [queries]
    block accepts and yields the trimmed queries, and the validator
    returns them whenever its other three blocks accept.  If the first
    element breaking a rule is at index [i], the validator throws the
    error whose message is [Query at index i] followed by the rule
    broken. *)
Theorem C7_bulk_queries_bounds (raw : JsValue) (elems : list JsValue)
  (Hobj : checkObject raw = Returns tt)
  (Hq : field raw "queries" = JsArr elems) :
  ((20 < List.length elems)%nat ->
     validateBulkSearchParams raw
     = Throws (mkValidationError "queries array cannot exceed 20 items"
                                 (Some "queries"))
     /\ forall l w, calls (trace (exec (BulkSearchHandler_handle raw l) w)) = [])
  /\ ((1 <= List.length elems <= 20)%nat ->
      Forall (fun v => elementFault v = None) elems ->
      checkQueries raw = Returns (map (fun v => trim (str v)) elems)
      /\ forall m r s,
           checkMaxResultsPerQuery raw = Returns m ->
           checkRegion raw = Returns r ->
           checkSafeSearch raw = Returns s ->
           validateBulkSearchParams raw
           = Returns (mkBulkSearchParams (map (fun v => trim (str v)) elems) m r s))
  /\ (forall pre bad post m,
        (List.length elems <= 20)%nat ->
        elems = (pre ++ bad :: post)%list ->
        Forall (fun v => elementFault v = None) pre ->
        elementFault bad = Some m ->
        validateBulkSearchParams raw
        = Throws (mkValidationError
                    ("Query at index " ++ decimal (Z.of_nat (List.length pre)) ++ m)
                    (Some "queries"))).
Proof.
  assert (Hsize : forall n, (n <= 20)%nat -> (Z.of_nat n >? 20) = false).
  { intros n Hn. rewrite Z.gtb_ltb. apply Z.ltb_ge. lia. }
  split; [|split].
  - intro Hlen.
    assert (Hthrow : validateBulkSearchParams raw
                     = Throws (mkValidationError "queries array cannot exceed 20 items"
                                                 (Some "queries"))).
    { unfold validateBulkSearchParams, bind. rewrite Hobj.
      unfold checkQueries. cbv zeta. rewrite Hq. simpl.
      replace (Z.of_nat (List.length elems) =? 0) with false
        by (symmetry; apply Z.eqb_neq; lia).
      replace (Z.of_nat (List.length elems) >? 20) with true
        by (symmetry; rewrite Z.gtb_ltb; apply Z.ltb_lt; lia).
      reflexivity. }
    split; [exact Hthrow|].
    intros l w. exact (BulkSearchHandler_rejected_calls raw _ l w Hthrow).
  - intros Hlen Hall.
    assert (Hcheck : checkQueries raw = Returns (map (fun v => trim (str v)) elems)).
    { unfold checkQueries. cbv zeta. rewrite Hq. simpl.
      replace (Z.of_nat (List.length elems) =? 0) with false
        by (symmetry; apply Z.eqb_neq; lia).
      rewrite (Hsize _ (proj2 Hlen)).
      now rewrite validateEach_clean. }
    split; [exact Hcheck|].
    intros m r s Hm Hr Hs.
    now apply validateBulkSearchParams_blocks.
  - intros pre bad post m Hlen -> Hpre Hbad.
    unfold validateBulkSearchParams, bind. rewrite Hobj.
    unfold checkQueries. cbv zeta. rewrite Hq. simpl.
    replace (Z.of_nat (List.length (pre ++ bad :: post)) =? 0) with false
      by (symmetry; apply Z.eqb_neq; rewrite length_app; simpl; lia).
    rewrite (Hsize _ Hlen).
    rewrite (validateEach_fault pre post bad m 0 [] Hpre Hbad).
    reflexivity.
Qed.

(** C10.  The query made of the four characters the sanitizer removes
    is accepted by [validateSearchParams] as a non-empty query, and
    [sanitizeQuery] turns it into the empty string.  Run on it with a
    fresh limiter, in any world, the single-search handler makes
    exactly one provider call, and the query text of that call is
    empty. *)
Theorem C10_sanitized_query_may_be_empty :
  exists raw p,
    validateSearchParams raw = Returns p
    /\ query p <> ""
    /\ sanitizeQuery (query p) = ""
    /\ forall w : W,
         exists reply,
           calls (trace (exec (WebSearchHandler_handle raw RateLimiter.default) w))
           = [(mkRequest "" None None None, reply)].
Proof.
  exists (JsObj [("query", JsStr Scripted.injectionOnly)]),
         (mkSearchParams Scripted.injectionOnly None None None None None None).
  split; [reflexivity|]. split; [discriminate|]. split; [reflexivity|].
  intro w.
  destruct (handleWith_search_admitted (fun p => p)
              (JsObj [("query", JsStr Scripted.injectionOnly)])
              (mkSearchParams Scripted.injectionOnly None None None None None None)
              RateLimiter.default w eq_refl eq_refl)
    as (reply & after & _ & Htr & Hafter).
  exists reply. unfold WebSearchHandler_handle. cbv zeta in Htr.
  etransitivity; [exact (f_equal calls Htr)|].
  simpl. now rewrite Hafter.
Qed.

End HandlerFacts.

(* ================================================================== *)
(** * Runs in the scripted environment *)
(* ================================================================== *)

Section ScriptedRuns.
Import Js Effects Validation Service Handlers Scripted.

(** C2 on three queries of which the second is rejected by the
    provider: three entries, the second empty with total 0, success. *)
Lemma C2_bulk_failure_isolated_witness :
  let w := mkScript 1000 [Resolved (oneResult "A") []; Rejected networkError;
                          Resolved (oneResult "C") []] in
  let run := exec (bulkSearch (mkBulkSearchParams ["a"; "b"; "c"] None None None)) w in
  success (result run) = true
  /\ exists d,
       data (result run) = Some d
       /\ List.length (searches d) = 3%nat
       /\ nth_error (searches d) 1 = Some (mkBulkEntry "b" [] (JsInt 0)).
Proof.
  cbv zeta.
  destruct (C2_bulk_failure_isolated
              (mkBulkSearchParams ["a"; "b"; "c"] None None None)
              (mkScript 1000 [Resolved (oneResult "A") []; Rejected networkError;
                              Resolved (oneResult "C") []]))
    as (Hsuccess & _ & d & Hd & _ & Hlen & _ & Hrej).
  split; [exact Hsuccess|].
  exists d. split; [exact Hd|]. split; [exact Hlen|].
  destruct (Hrej 1%nat (mkRequest "b" (Some "10") None None) networkError eq_refl)
    as (query & Hquery & Hentry).
  injection Hquery as <-. exact Hentry.
Defined.

(** C3 on the validated arguments of the example. *)
Lemma C3_advanced_query_composition_witness :
  advancedQuery (mkSearchParams "rust" None None None
                   (Some "x.com") (Some "pdf") (Some "past_year"))
  = "rust site:x.com filetype:pdf after:1y".
Proof.
  destruct (C3_advanced_query_composition (engine := scriptedEngine)) as [Hvalidated _].
  pose (raw := JsObj [("query", JsStr " rust "); ("site_restrict", JsStr "x.com");
                      ("file_type", JsStr "PDF"); ("date_range", JsStr "past_year")]).
  destruct (Hvalidated raw
              (mkSearchParams "rust" None None None
                 (Some "x.com") (Some "pdf") (Some "past_year"))
              "rust" eq_refl) as [Hq _].
  exact Hq.
Defined.

(** C5.  The bulk handler, run on one query with a fresh limiter, is
    admitted and calls the provider once, yet the limiter it leaves
    holds no timestamp; the single-search handler in the same
    situation leaves the instant of its request in the limiter.  In
    general the bulk handler leaves the limiter as it was given, pruned
    at most: an admitted bulk invocation is never recorded. *)
Theorem C5_bulk_admission_not_recorded :
  let w := mkScript 1000 [Resolved (oneResult "A") []] in
  let bulk := exec (BulkSearchHandler_handle (JsObj [("queries", JsArr [JsStr "a"])])
                                             RateLimiter.default) w in
  let web := exec (WebSearchHandler_handle (JsObj [("query", JsStr "a")])
                                           RateLimiter.default) w in
  (isError (fst (result bulk)) = false
   /\ List.length (calls (trace bulk)) = 1%nat
   /\ RateLimiter.requests (snd (result bulk)) = [])
  /\ (isError (fst (result web)) = false
      /\ List.length (calls (trace web)) = 1%nat
      /\ RateLimiter.requests (snd (result web)) = [1000])
  /\ forall (engine : Engine) (W : Type) (world : World W)
            (raw : JsValue) (l : RateLimiter.t) (w' : W),
       let run := exec (BulkSearchHandler_handle raw l) w' in
       snd (result run) = l
       \/ snd (result run) = RateLimiter.prune (fst (readClock w')) l.
Proof.
  cbv zeta. split; [|split].
  - repeat split; reflexivity.
  - repeat split; reflexivity.
  - intros engine W world raw l w'. apply BulkSearchHandler_never_records.
Qed.

(** C7 on arrays of 21 and of 20 queries, and on an array whose
    element at index 2 is a number. *)
Lemma C7_bulk_queries_bounds_witness :
  validateBulkSearchParams (JsObj [("queries", JsArr (repeat (JsStr "a") 21))])
  = Throws (mkValidationError "queries array cannot exceed 20 items" (Some "queries"))
  /\ calls (trace (exec (BulkSearchHandler_handle
                           (JsObj [("queries", JsArr (repeat (JsStr "a") 21))])
                           RateLimiter.default)
                        (mkScript 1000 [])))
     = []
  /\ validateBulkSearchParams (JsObj [("queries", JsArr (repeat (JsStr " a ") 20))])
     = Returns (mkBulkSearchParams (repeat "a" 20) None None None)
  /\ validateBulkSearchParams
       (JsObj [("queries", JsArr [JsStr "a"; JsStr "b"; JsInt 7; JsStr "c"])])
     = Throws (mkValidationError "Query at index 2 must be a string" (Some "queries")).
Proof.
  pose (raw21 := JsObj [("queries", JsArr (repeat (JsStr "a") 21))]).
  pose (raw20 := JsObj [("queries", JsArr (repeat (JsStr " a ") 20))]).
  pose (raw4 := JsObj [("queries", JsArr [JsStr "a"; JsStr "b"; JsInt 7; JsStr "c"])]).
  destruct (C7_bulk_queries_bounds (W := Script) raw21 (repeat (JsStr "a") 21)
              eq_refl eq_refl) as (Hmany & _ & _).
  destruct (C7_bulk_queries_bounds (W := Script) raw20 (repeat (JsStr " a ") 20)
              eq_refl eq_refl) as (_ & Hfine & _).
  destruct (C7_bulk_queries_bounds (W := Script) raw4
              [JsStr "a"; JsStr "b"; JsInt 7; JsStr "c"]
              eq_refl eq_refl) as (_ & _ & Hbad).
  assert (H21 : (20 < List.length (repeat (JsStr "a") 21))%nat) by (simpl; lia).
  destruct (Hmany H21) as [Hthrow Hquiet].
  assert (H20 : (1 <= List.length (repeat (JsStr " a ") 20) <= 20)%nat) by (simpl; lia).
  assert (Hall : Forall (fun v => elementFault v = None) (repeat (JsStr " a ") 20))
    by (simpl; repeat constructor).
  destruct (Hfine H20 Hall) as [_ Hreturns].
  assert (H4 : (List.length [JsStr "a"; JsStr "b"; JsInt 7; JsStr "c"] <= 20)%nat)
    by (simpl; lia).
  assert (Hpre : Forall (fun v => elementFault v = None) [JsStr "a"; JsStr "b"])
    by (repeat constructor).
  split; [exact Hthrow|].
  split; [exact (Hquiet RateLimiter.default (mkScript 1000 []))|].
  split; [exact (Hreturns None None None eq_refl eq_refl eq_refl)|].
  exact (Hbad [JsStr "a"; JsStr "b"] (JsInt 7) [JsStr "c"] " must be a string"
           H4 eq_refl Hpre eq_refl).
Defined.

End ScriptedRuns.

(* ================================================================== *)
(** * Further properties of the rate limiter *)
(* ================================================================== *)

Section RateLimiterMore.
Import RateLimiter.

Lemma filter_filter_implied {A : Type} (f g : A -> bool) (xs : list A) :
  (forall x, In x xs -> g x = true -> f x = true) ->
  filter g (filter f xs) = filter g xs.
Proof.
  induction xs as [|x xs IH]; intro H; simpl; [reflexivity|].
  assert (IH' : filter g (filter f xs) = filter g xs)
    by (apply IH; intros y Hy; apply H; now right).
  destruct (f x) eqn:Ef; simpl.
  - now rewrite IH'.
  - destruct (g x) eqn:Eg; [|exact IH'].
    rewrite (H x (or_introl eq_refl) Eg) in Ef. discriminate.
Qed.

Lemma prune_prune (now1 now2 : Z) (l : t) :
  now1 <= now2 -> prune now2 (prune now1 l) = prune now2 l.
Proof.
  intro H. unfold prune. simpl. f_equal.
  apply filter_filter_implied. intros x _.
  unfold inWindow. simpl. rewrite !Z.ltb_lt. lia.
Qed.

(** X1.  A check made at an earlier instant does not change the answer
    of a later one: [canMakeRequest] and [getCurrentCount] at [now2]
    give the same answer and leave the same limiter whether or not the
    limiter was pruned by a check at [now1 <= now2] in between. *)
Theorem X1_earlier_check_is_harmless (l : t) (now1 now2 : Z) (H : now1 <= now2) :
  canMakeRequest now2 (snd (canMakeRequest now1 l)) = canMakeRequest now2 l
  /\ getCurrentCount now2 (snd (getCurrentCount now1 l)) = getCurrentCount now2 l
  /\ canMakeRequest now2 (snd (getCurrentCount now1 l)) = canMakeRequest now2 l.
Proof.
  unfold canMakeRequest, getCurrentCount. cbn [snd].
  rewrite (prune_prune now1 now2 l H). repeat split; reflexivity.
Qed.

Lemma X1_earlier_check_is_harmless_witness :
  canMakeRequest 70 (snd (canMakeRequest 65 (mk [0; 10; 20] 2 60)))
  = canMakeRequest 70 (mk [0; 10; 20] 2 60).
Proof.
  assert (H : 65 <= 70) by lia.
  exact (proj1 (X1_earlier_check_is_harmless (mk [0; 10; 20] 2 60) 65 70 H)).
Defined.

(** X2.  When a limiter of positive capacity denies at [now], the wait
    reported by [getTimeUntilReset] at the same instant is positive and
    exact for the oldest kept timestamp: that timestamp is still inside
    the window at every instant before [now + wait] and outside it at
    [now + wait]. *)
Theorem X2_denial_gives_positive_exact_wait (l l' : t) (now : Z)
  (Hcap : 0 < maxRequests l)
  (Hdenied : canMakeRequest now l = (false, l')) :
  let wait := getTimeUntilReset now l' in
  0 < wait
  /\ exists o,
       oldest l' = Some o
       /\ wait = windowMs l - (now - o)
       /\ inWindow l (now + wait) o = false
       /\ forall t, t < now + wait -> inWindow l t o = true.
Proof.
  cbv zeta. unfold canMakeRequest in Hdenied. injection Hdenied as Hlen <-.
  apply Z.ltb_ge in Hlen.
  change (maxRequests (prune now l)) with (maxRequests l) in Hlen.
  destruct (oldest (prune now l)) as [o|] eqn:Eo.
  2:{ unfold oldest in Eo.
      destruct (requests (prune now l)) eqn:Er; [|discriminate].
      simpl in Er. rewrite Er in Hlen. simpl in Hlen. lia. }
  destruct (oldest_spec _ _ Eo) as [Hin _].
  simpl in Hin. apply filter_In in Hin as [_ Hwin].
  unfold inWindow in Hwin. apply Z.ltb_lt in Hwin.
  assert (Hval : getTimeUntilReset now (prune now l) = windowMs l - (now - o)).
  { unfold getTimeUntilReset. unfold oldest in Eo.
    destruct (requests (prune now l)) as [|x xs]; [discriminate|].
    injection Eo as <-. cbv zeta. simpl windowMs. lia. }
  rewrite Hval. split; [lia|]. exists o.
  split; [reflexivity|]. split; [reflexivity|].
  unfold inWindow. split.
  - apply Z.ltb_ge. lia.
  - intros t Ht. apply Z.ltb_lt. lia.
Qed.

Lemma X2_denial_gives_positive_exact_wait_witness :
  0 < getTimeUntilReset 30 (mk [10; 20] 2 60).
Proof.
  assert (Hcap : 0 < maxRequests (mk [10; 20] 2 60)) by (simpl; lia).
  exact (proj1 (X2_denial_gives_positive_exact_wait
                  (mk [10; 20] 2 60) (mk [10; 20] 2 60) 30 Hcap eq_refl)).
Defined.

(** X3.  With a positive window, a request recorded at [now] is counted
    by a check at the same instant: the count is one more than before
    the record, and the check admits exactly when that count is below
    the capacity. *)
Theorem X3_record_counts_at_once (l : t) (now : Z) (Hwin : 0 < windowMs l) :
  fst (getCurrentCount now (recordRequest now l)) = fst (getCurrentCount now l) + 1
  /\ fst (canMakeRequest now (recordRequest now l))
     = (fst (getCurrentCount now l) + 1 <? maxRequests l).
Proof.
  assert (Hself : inWindow l now now = true)
    by (unfold inWindow; apply Z.ltb_lt; lia).
  unfold getCurrentCount, canMakeRequest, prune, recordRequest.
  cbn [fst requests maxRequests windowMs].
  change (inWindow (mk (requests l ++ [now]) (maxRequests l) (windowMs l)))
    with (inWindow l).
  rewrite filter_app, length_app. cbn [filter]. rewrite Hself.
  cbn [List.length]. rewrite Nat2Z.inj_add. now split.
Qed.

Lemma X3_record_counts_at_once_witness :
  fst (getCurrentCount 5 (recordRequest 5 (mk [1; 2] 3 60))) = 3.
Proof.
  assert (Hwin : 0 < windowMs (mk [1; 2] 3 60)) by (simpl; lia).
  exact (proj1 (X3_record_counts_at_once (mk [1; 2] 3 60) 5 Hwin)).
Defined.

End RateLimiterMore.

(* ================================================================== *)
(** * Further properties of the validators *)
(* ================================================================== *)

Section ValidationMore.
Import Js Validation Further.

Lemma checkQuery_returns (raw : JsValue) (q : string) :
  checkQuery raw = Returns q ->
  exists s,
    field raw "query" = JsStr s /\ q = trim s
    /\ q <> "" /\ trim q = q /\ strLength q <= 500 /\ strLength s <= 500.
Proof.
  unfold checkQuery. cbv zeta.
  destruct (negb (truthy (field raw "query"))
            || negb (typeof (field raw "query") =? "string")%string) eqn:E0;
    [discriminate|].
  apply orb_false_elim in E0 as [_ Ety]. apply negb_false_iff in Ety.
  rewrite (typeof_string _ Ety). simpl str.
  set (s := str (field raw "query")).
  destruct (strLength (trim s) =? 0) eqn:E1; [discriminate|].
  destruct (strLength s >? 500) eqn:E2; [discriminate|].
  intros [= <-]. exists s.
  rewrite Z.gtb_ltb in E2. apply Z.ltb_ge in E2.
  pose proof (trim_length s).
  repeat split; try reflexivity; try lia.
  - intro Hempty. rewrite Hempty in E1. discriminate.
  - apply trim_idem.
Qed.

Lemma checkMaxResults_returns (raw : JsValue) (n : Z) :
  checkMaxResults raw = Returns (Some n) ->
  1 <= n <= 300 /\ exists k d, field raw "max_results" = JsNum (Finite k d)
                               /\ k = n * Z.pos d.
Proof.
  unfold checkMaxResults. cbv zeta.
  destruct (field raw "max_results") as [| |b|[k d| |neg]|s|xs|ps]; try discriminate.
  unfold typeof, isInteger, int. simpl.
  destruct (k mod Z.pos d =? 0) eqn:Ei; simpl; [|discriminate].
  destruct ((k / Z.pos d <? 1) || (k / Z.pos d >? 300)) eqn:Er; [discriminate|].
  intros [= <-]. apply orb_false_elim in Er as [E1 E2].
  apply Z.ltb_ge in E1. rewrite Z.gtb_ltb in E2. apply Z.ltb_ge in E2.
  split; [lia|]. exists k, d. split; [reflexivity|].
  apply Z.eqb_eq in Ei.
  rewrite (Z.div_mod k (Z.pos d)) at 1 by lia. rewrite Ei. lia.
Qed.

Lemma checkMaxResultsPerQuery_returns (raw : JsValue) (n : Z) :
  checkMaxResultsPerQuery raw = Returns (Some n) -> 1 <= n <= 50.
Proof.
  unfold checkMaxResultsPerQuery. cbv zeta.
  destruct (field raw "max_results_per_query") as [| |b|[k d| |neg]|s|xs|ps];
    try discriminate.
  unfold typeof, isInteger, int. simpl.
  destruct (k mod Z.pos d =? 0) eqn:Ei; simpl; [|discriminate].
  destruct ((k / Z.pos d <? 1) || (k / Z.pos d >? 50)) eqn:Er; [discriminate|].
  intros [= <-]. apply orb_false_elim in Er as [E1 E2].
  apply Z.ltb_ge in E1. rewrite Z.gtb_ltb in E2. apply Z.ltb_ge in E2. lia.
Qed.

Lemma checkSiteRestrict_trimmed (raw : JsValue) (v : string) :
  checkSiteRestrict raw = Returns (Some v) -> trim v = v.
Proof.
  unfold checkSiteRestrict. cbv zeta.
  destruct (field raw "site_restrict"); try discriminate;
    (destruct (negb _); [discriminate|]);
    (destruct (strLength _ =? 0); [discriminate|]);
    intros [= <-]; apply trim_idem.
Qed.

(** X4.  Every record returned by [validateSearchParams] satisfies the
    constraints of its fields: the query is non-empty, trimmed and at
    most 500 code units long; [max_results], when present, is between
    1 and 300; [region] is two lower-case letters; [site_restrict] is
    non-empty and trimmed; [file_type] and [date_range] are members of
    their allow-lists. *)
Theorem X4_validated_search_record (raw : JsValue) (p : SearchParams)
  (H : validateSearchParams raw = Returns p) :
  (query p <> "" /\ trim (query p) = query p /\ strLength (query p) <= 500)
  /\ (forall n, max_results p = Some n -> 1 <= n <= 300)
  /\ (forall r, region p = Some r -> regionPattern r = true)
  /\ (forall s, site_restrict p = Some s -> s <> "" /\ trim s = s)
  /\ (forall t, file_type p = Some t -> In t allowedTypes)
  /\ (forall d, date_range p = Some d -> In d allowedRanges).
Proof.
  destruct (validateSearchParams_returns raw p H)
    as (q & m & r & s & sr & ft & dr & _ & Hq & Hm & Hr & _ & Hsr & Hft & Hdr & ->).
  simpl. split; [|split; [|split; [|split; [|split]]]].
  - destruct (checkQuery_returns raw q Hq) as (s0 & _ & _ & H1 & H2 & H3 & _).
    now repeat split.
  - intros n ->. exact (proj1 (checkMaxResults_returns raw n Hm)).
  - intros x ->. exact (proj2 (checkRegion_returns raw x Hr)).
  - intros x ->. split;
      [exact (checkSiteRestrict_returns raw x Hsr)
      | exact (checkSiteRestrict_trimmed raw x Hsr)].
  - intros x ->. exact (checkFileType_returns raw x Hft).
  - intros x ->. exact (checkDateRange_returns raw x Hdr).
Qed.

Lemma X4_validated_search_record_witness :
  trim "rust" = "rust" /\ In "pdf" allowedTypes.
Proof.
  destruct (X4_validated_search_record
              (JsObj [("query", JsStr " rust "); ("file_type", JsStr "Pdf")])
              (mkSearchParams "rust" None None None None (Some "pdf") None)
              eq_refl) as ((_ & Htrim & _) & _ & _ & _ & Hft & _).
  split; [exact Htrim | exact (Hft "pdf" eq_refl)].
Defined.

(** X5.  Every record returned by [validateBulkSearchParams] holds
    between 1 and 20 queries, each non-empty, trimmed and at most 500
    code units long, in the order of the input array;
    [max_results_per_query], when present, is between 1 and 50, and
    [region] is two lower-case letters. *)
Theorem X5_validated_bulk_record (raw : JsValue) (p : BulkSearchParams)
  (H : validateBulkSearchParams raw = Returns p) :
  (1 <= List.length (queries p) <= 20)%nat
  /\ Forall (fun q => q <> "" /\ trim q = q /\ strLength q <= 500) (queries p)
  /\ (exists elems, field raw "queries" = JsArr elems
                    /\ queries p = map (fun v => trim (str v)) elems)
  /\ (forall n, max_results_per_query p = Some n -> 1 <= n <= 50)
  /\ (forall r, bulk_region p = Some r -> regionPattern r = true).
Proof.
  destruct (validateBulkSearchParams_returns raw p H)
    as (qs & m & r & s & _ & Hq & Hm & Hr & _ & ->).
  destruct (checkQueries_returns raw qs Hq) as (elems & Hf & Hlen & Hall & ->).
  simpl. split; [now rewrite length_map|]. split; [|split; [|split]].
  - rewrite Forall_map. eapply Forall_impl; [|exact Hall].
    intros v Hv. unfold elementFault in Hv.
    destruct v as [| |b|n|s0|xs|ps]; try discriminate. simpl.
    destruct (strLength (trim s0) =? 0) eqn:E1; [discriminate|].
    destruct (strLength s0 >? 500) eqn:E2; [discriminate|].
    rewrite Z.gtb_ltb in E2. apply Z.ltb_ge in E2.
    pose proof (trim_length s0).
    split; [intro He; rewrite He in E1; discriminate|].
    split; [apply trim_idem | lia].
  - exists elems. now split.
  - intros n ->. exact (checkMaxResultsPerQuery_returns raw n Hm).
  - intros x ->. exact (proj2 (checkRegion_returns raw x Hr)).
Qed.

Lemma X5_validated_bulk_record_witness :
  (1 <= List.length ["a"; "b c"] <= 20)%nat.
Proof.
  exact (proj1 (X5_validated_bulk_record
                  (JsObj [("queries", JsArr [JsStr " a"; JsStr "b c "])])
                  (mkBulkSearchParams ["a"; "b c"] None None None) eq_refl)).
Defined.

Lemma validQuery_nonempty (q : string) : validQuery q = true -> q <> "".
Proof.
  unfold validQuery. intros H ->. simpl in H. discriminate.
Qed.

Lemma checkQuery_valid (raw : JsValue) (q : string) :
  field raw "query" = JsStr q -> validQuery q = true ->
  checkQuery raw = Returns (trim q).
Proof.
  intros F Hv. pose proof (validQuery_nonempty q Hv) as Hne.
  unfold validQuery in Hv. apply andb_prop in Hv as [H1 H2].
  apply negb_true_iff in H1. apply negb_true_iff in H2.
  unfold checkQuery. cbv zeta. rewrite F. simpl.
  apply String.eqb_neq in Hne. rewrite Hne. simpl.
  now rewrite H1, H2.
Qed.

Lemma checkMaxResults_integer (raw : JsValue) (n : Z) :
  field raw "max_results" = JsInt n ->
  checkMaxResults raw
  = if (n <? 1) || (n >? 300)
    then throw "max_results must be between 1 and 300" (Some "max_results")
    else Returns (Some n).
Proof.
  intro F. unfold checkMaxResults. cbv zeta. rewrite F.
  destruct (JsInt_integer n) as [Hi Hv].
  change (JsInt n) with (JsNum (Finite n 1)) in *.
  cbv beta iota. simpl typeof. rewrite Hi, Hv. reflexivity.
Qed.

Lemma checkMaxResultsPerQuery_integer (raw : JsValue) (n : Z) :
  field raw "max_results_per_query" = JsInt n ->
  checkMaxResultsPerQuery raw
  = if (n <? 1) || (n >? 50)
    then throw "max_results_per_query must be between 1 and 50"
               (Some "max_results_per_query")
    else Returns (Some n).
Proof.
  intro F. unfold checkMaxResultsPerQuery. cbv zeta. rewrite F.
  destruct (JsInt_integer n) as [Hi Hv].
  change (JsInt n) with (JsNum (Finite n 1)) in *.
  cbv beta iota. simpl typeof. rewrite Hi, Hv. reflexivity.
Qed.

Lemma in_range_test (n hi : Z) :
  ((n <? 1) || (n >? hi) = false <-> 1 <= n <= hi).
Proof.
  rewrite orb_false_iff, Z.ltb_ge, Z.gtb_ltb, Z.ltb_ge. lia.
Qed.

(** X6.  The result limits are enforced, never clamped.  For a valid
    query, [validateSearchParams] accepts an integer [max_results]
    exactly when it lies between 1 and 300, and then returns it
    unchanged; outside that range it throws the range error of
    [max_results], and a finite non-integer throws the integer error.
    The same three facts hold for [max_results_per_query] of
    [validateBulkSearchParams] with the range 1 to 50: accepted and
    returned unchanged exactly between 1 and 50, the range error of
    [max_results_per_query] for any other integer, and its integer
    error for a finite non-integer. *)
Theorem X6_result_limits_enforced (q : string) (Hq : validQuery q = true) :
  (forall n,
      let raw := JsObj [("query", JsStr q); ("max_results", JsInt n)] in
      (1 <= n <= 300 <->
       validateSearchParams raw
       = Returns (mkSearchParams (trim q) (Some n) None None None None None))
      /\ (~ 1 <= n <= 300 ->
          validateSearchParams raw
          = Throws (mkValidationError "max_results must be between 1 and 300"
                                      (Some "max_results"))))
  /\ (forall k d,
         k mod Z.pos d <> 0 ->
         validateSearchParams
           (JsObj [("query", JsStr q); ("max_results", JsNum (Finite k d))])
         = Throws (mkValidationError "max_results must be an integer"
                                     (Some "max_results")))
  /\ (forall n,
         let raw := JsObj [("queries", JsArr [JsStr q]);
                           ("max_results_per_query", JsInt n)] in
         (1 <= n <= 50 <->
          validateBulkSearchParams raw
          = Returns (mkBulkSearchParams [trim q] (Some n) None None))
         /\ (~ 1 <= n <= 50 ->
             validateBulkSearchParams raw
             = Throws (mkValidationError
                         "max_results_per_query must be between 1 and 50"
                         (Some "max_results_per_query"))))
  /\ (forall k d,
         k mod Z.pos d <> 0 ->
         validateBulkSearchParams
           (JsObj [("queries", JsArr [JsStr q]);
                   ("max_results_per_query", JsNum (Finite k d))])
         = Throws (mkValidationError "max_results_per_query must be an integer"
                                     (Some "max_results_per_query"))).
Proof.
  assert (Hqueries : forall raw, field raw "queries" = JsArr [JsStr q] ->
                                 checkQueries raw = Returns [trim q]).
  { intros raw F. unfold checkQueries. cbv zeta. rewrite F.
    simpl. pose proof Hq as Hq'. unfold validQuery in Hq'.
    apply andb_prop in Hq' as [H1 H2].
    apply negb_true_iff in H1. apply negb_true_iff in H2.
    now rewrite H1, H2. }
  split; [|split; [|split]].
  - intro n. cbv zeta.
    set (raw := JsObj [("query", JsStr q); ("max_results", JsInt n)]).
    assert (Hcq : checkQuery raw = Returns (trim q))
      by (apply checkQuery_valid; [reflexivity | exact Hq]).
    assert (Hcm := checkMaxResults_integer raw n eq_refl).
    assert (Hv : validateSearchParams raw
                 = if (n <? 1) || (n >? 300)
                   then Throws (mkValidationError "max_results must be between 1 and 300"
                                                  (Some "max_results"))
                   else Returns (mkSearchParams (trim q) (Some n) None None None None None)).
    { unfold validateSearchParams, bind.
      change (checkObject raw) with (@Returns unit tt). cbv iota beta.
      rewrite Hcq, Hcm. destruct ((n <? 1) || (n >? 300)); reflexivity. }
    rewrite Hv. pose proof (in_range_test n 300) as Hr.
    destruct ((n <? 1) || (n >? 300)); split.
    + split; [intro H; apply Hr in H; discriminate | discriminate].
    + reflexivity.
    + split; [reflexivity | intros _; now apply Hr].
    + intro H. exfalso. apply H. now apply Hr.
  - intros k d Hk.
    set (raw := JsObj [("query", JsStr q); ("max_results", JsNum (Finite k d))]).
    assert (Hcq : checkQuery raw = Returns (trim q))
      by (apply checkQuery_valid; [reflexivity | exact Hq]).
    unfold validateSearchParams, bind.
    change (checkObject raw) with (@Returns unit tt). cbv iota beta.
    rewrite Hcq. unfold checkMaxResults. cbv zeta.
    change (field raw "max_results") with (JsNum (Finite k d)).
    cbv beta iota. unfold isInteger.
    apply Z.eqb_neq in Hk. rewrite Hk. reflexivity.
  - intro n. cbv zeta.
    set (raw := JsObj [("queries", JsArr [JsStr q]); ("max_results_per_query", JsInt n)]).
    assert (Hcq : checkQueries raw = Returns [trim q])
      by (apply Hqueries; reflexivity).
    assert (Hcm := checkMaxResultsPerQuery_integer raw n eq_refl).
    assert (Hv : validateBulkSearchParams raw
                 = if (n <? 1) || (n >? 50)
                   then Throws (mkValidationError
                                  "max_results_per_query must be between 1 and 50"
                                  (Some "max_results_per_query"))
                   else Returns (mkBulkSearchParams [trim q] (Some n) None None)).
    { unfold validateBulkSearchParams, bind.
      change (checkObject raw) with (@Returns unit tt). cbv iota beta.
      rewrite Hcq, Hcm. destruct ((n <? 1) || (n >? 50)); reflexivity. }
    rewrite Hv. pose proof (in_range_test n 50) as Hr.
    destruct ((n <? 1) || (n >? 50)); split.
    + split; [intro H; apply Hr in H; discriminate | discriminate].
    + reflexivity.
    + split; [reflexivity | intros _; now apply Hr].
    + intro H. exfalso. apply H. now apply Hr.
  - intros k d Hk.
    set (raw := JsObj [("queries", JsArr [JsStr q]);
                       ("max_results_per_query", JsNum (Finite k d))]).
    assert (Hcq : checkQueries raw = Returns [trim q])
      by (apply Hqueries; reflexivity).
    unfold validateBulkSearchParams, bind.
    change (checkObject raw) with (@Returns unit tt). cbv iota beta.
    rewrite Hcq. unfold checkMaxResultsPerQuery. cbv zeta.
    change (field raw "max_results_per_query") with (JsNum (Finite k d)).
    cbv beta iota. unfold isInteger.
    apply Z.eqb_neq in Hk. rewrite Hk. reflexivity.
Qed.

Lemma X6_result_limits_enforced_witness :
  validateSearchParams (JsObj [("query", JsStr "rust"); ("max_results", JsInt 300)])
  = Returns (mkSearchParams "rust" (Some 300) None None None None None)
  /\ validateSearchParams (JsObj [("query", JsStr "rust"); ("max_results", JsInt 301)])
     = Throws (mkValidationError "max_results must be between 1 and 300"
                                 (Some "max_results"))
  /\ validateSearchParams (JsObj [("query", JsStr "rust"); ("max_results", JsInt 0)])
     = Throws (mkValidationError "max_results must be between 1 and 300"
                                 (Some "max_results"))
  /\ validateSearchParams
       (JsObj [("query", JsStr "rust"); ("max_results", JsNum (Finite 3 2))])
     = Throws (mkValidationError "max_results must be an integer" (Some "max_results"))
  /\ validateBulkSearchParams
       (JsObj [("queries", JsArr [JsStr "rust"]); ("max_results_per_query", JsInt 50)])
     = Returns (mkBulkSearchParams ["rust"] (Some 50) None None)
  /\ validateBulkSearchParams
       (JsObj [("queries", JsArr [JsStr "rust"]); ("max_results_per_query", JsInt 51)])
     = Throws (mkValidationError "max_results_per_query must be between 1 and 50"
                                 (Some "max_results_per_query"))
  /\ validateBulkSearchParams
       (JsObj [("queries", JsArr [JsStr "rust"]);
               ("max_results_per_query", JsNum (Finite 21 2))])
     = Throws (mkValidationError "max_results_per_query must be an integer"
                                 (Some "max_results_per_query")).
Proof.
  destruct (X6_result_limits_enforced "rust" eq_refl)
    as (Hsearch & Hfrac & Hbulk & Hbulkfrac).
  destruct (Hsearch 300) as [Hok _]. destruct (Hsearch 301) as [_ Hhigh].
  destruct (Hsearch 0) as [_ Hlow].
  destruct (Hbulk 50) as [Hbok _]. destruct (Hbulk 51) as [_ Hbhigh].
  split; [apply Hok; lia|].
  split; [apply Hhigh; lia|].
  split; [apply Hlow; lia|].
  split; [apply (Hfrac 3 2%positive); discriminate|].
  split; [apply Hbok; lia|].
  split; [apply Hbhigh; lia|].
  apply (Hbulkfrac 21 2%positive). discriminate.
Defined.

(** X7.  The validators read nothing but their own fields: two
    argument objects that pass or fail the object test alike and agree
    on [query], [max_results], [region], [safe_search],
    [site_restrict], [file_type] and [date_range] get the same answer
    from [validateSearchParams]; likewise for
    [validateBulkSearchParams] and [queries],
    [max_results_per_query], [region] and [safe_search].  Any other
    property of the argument is ignored and never reaches the record. *)
Theorem X7_only_named_fields_are_read (raw raw' : JsValue)
  (Hobj : checkObject raw = checkObject raw') :
  ((forall k, In k searchFieldNames -> field raw k = field raw' k) ->
   validateSearchParams raw = validateSearchParams raw')
  /\ ((forall k, In k bulkFieldNames -> field raw k = field raw' k) ->
      validateBulkSearchParams raw = validateBulkSearchParams raw').
Proof.
  split; intro H.
  - unfold validateSearchParams, checkQuery, checkMaxResults, checkRegion,
      checkSafeSearch, checkSiteRestrict, checkFileType, checkDateRange.
    rewrite Hobj.
    rewrite (H "query"), (H "max_results"), (H "region"), (H "safe_search"),
      (H "site_restrict"), (H "file_type"), (H "date_range");
      try reflexivity; simpl; tauto.
  - unfold validateBulkSearchParams, checkQueries, checkMaxResultsPerQuery,
      checkRegion, checkSafeSearch.
    rewrite Hobj.
    rewrite (H "queries"), (H "max_results_per_query"), (H "region"),
      (H "safe_search"); try reflexivity; simpl; tauto.
Qed.

Lemma X7_only_named_fields_are_read_witness :
  validateSearchParams (JsObj [("api_key", JsStr "k"); ("query", JsStr "rust");
                               ("limit", JsInt 5)])
  = validateSearchParams (JsObj [("query", JsStr "rust")]).
Proof.
  apply (proj1 (X7_only_named_fields_are_read
                  (JsObj [("api_key", JsStr "k"); ("query", JsStr "rust");
                          ("limit", JsInt 5)])
                  (JsObj [("query", JsStr "rust")]) eq_refl)).
  intros k Hk. simpl in Hk.
  repeat (destruct Hk as [<- | Hk]; [reflexivity|]). contradiction.
Defined.

End ValidationMore.

(* ================================================================== *)
(** * Properties of the sanitizer *)
(* ================================================================== *)

Section SanitizerFacts.
Import Js Validation Further.

Lemma space_is_white : isWhiteSpace " "%char = true.
Proof. reflexivity. Qed.

Lemma space_not_injection : isInjectionChar " "%char = false.
Proof. reflexivity. Qed.

Lemma white_32_is_space (c : ascii) : (codeUnit c =? 32)%nat = true -> c = " "%char.
Proof.
  intro H. apply Nat.eqb_eq in H. unfold codeUnit in H.
  rewrite <- (ascii_nat_embedding c), H. reflexivity.
Qed.

(** ** The three passes and the deleted characters *)

Lemma removeInjectionChars_none (s : string) :
  noInjectionChars (removeInjectionChars s) = true.
Proof.
  induction s as [|c s IH]; simpl; [reflexivity|].
  destruct (isInjectionChar c) eqn:E; [exact IH|]. simpl. now rewrite E.
Qed.

Lemma collapseFrom_none (b : bool) (s : string) :
  noInjectionChars s = true -> noInjectionChars (collapseFrom b s) = true.
Proof.
  revert b. induction s as [|c s IH]; intros b H; simpl in *; [reflexivity|].
  apply andb_prop in H as [Hc Hs].
  destruct (isWhiteSpace c); [destruct b|].
  - exact (IH true Hs).
  - change (negb (isInjectionChar " "%char) && noInjectionChars (collapseFrom true s) = true).
    rewrite space_not_injection. exact (IH true Hs).
  - simpl. rewrite Hc. exact (IH false Hs).
Qed.

Lemma trimStart_none (s : string) :
  noInjectionChars s = true -> noInjectionChars (trimStart s) = true.
Proof.
  induction s as [|c s IH]; intro H; simpl in *; [reflexivity|].
  apply andb_prop in H as [Hc Hs].
  destruct (isWhiteSpace c); [auto|]. simpl. now rewrite Hc, Hs.
Qed.

Lemma trimEnd_none (s : string) :
  noInjectionChars s = true -> noInjectionChars (trimEnd s) = true.
Proof.
  induction s as [|c s IH]; intro H; simpl in *; [reflexivity|].
  apply andb_prop in H as [Hc Hs]. specialize (IH Hs).
  destruct (trimEnd s) as [|d r].
  - destruct (isWhiteSpace c); simpl; [reflexivity | now rewrite Hc].
  - change (noInjectionChars (String c (String d r)))
      with (negb (isInjectionChar c) && noInjectionChars (String d r)).
    now rewrite Hc, IH.
Qed.

Lemma removeInjectionChars_id (s : string) :
  noInjectionChars s = true -> removeInjectionChars s = s.
Proof.
  induction s as [|c s IH]; intro H; simpl in *; [reflexivity|].
  apply andb_prop in H as [Hc Hs]. apply negb_true_iff in Hc.
  now rewrite Hc, IH.
Qed.

(** ** White space *)

Lemma collapseFrom_single (b : bool) (s : string) :
  singleSpaced b (collapseFrom b s) = true.
Proof.
  revert b. induction s as [|c s IH]; intro b; simpl; [reflexivity|].
  destruct (isWhiteSpace c) eqn:E.
  - destruct b; [apply IH|]. simpl. exact (IH true).
  - simpl. rewrite E. apply IH.
Qed.

Lemma singleSpaced_weaken (s : string) :
  singleSpaced true s = true -> singleSpaced false s = true.
Proof.
  destruct s as [|c s]; simpl; [reflexivity|].
  destruct (isWhiteSpace c); [discriminate | auto].
Qed.

Lemma trimStart_single (b : bool) (s : string) :
  singleSpaced b s = true -> singleSpaced false (trimStart s) = true.
Proof.
  revert b. induction s as [|c s IH]; intros b H; simpl in *; [reflexivity|].
  destruct (isWhiteSpace c) eqn:E.
  - apply andb_prop in H as [_ Hs]. exact (IH true Hs).
  - simpl. now rewrite E.
Qed.

Lemma trimEnd_single (b : bool) (s : string) :
  singleSpaced b s = true -> singleSpaced b (trimEnd s) = true.
Proof.
  revert b. induction s as [|c s IH]; intros b H; [reflexivity|].
  simpl in H. simpl trimEnd.
  destruct (isWhiteSpace c) eqn:E.
  - apply andb_prop in H as [Hhead Hs]. specialize (IH true Hs).
    destruct (trimEnd s) as [|d r]; [reflexivity|].
    change (singleSpaced b (String c (String d r)))
      with (if isWhiteSpace c
            then negb b && (codeUnit c =? 32)%nat && singleSpaced true (String d r)
            else singleSpaced false (String d r)).
    now rewrite E, Hhead, IH.
  - specialize (IH false H).
    destruct (trimEnd s) as [|d r]; [simpl; now rewrite E|].
    change (singleSpaced b (String c (String d r)))
      with (if isWhiteSpace c
            then negb b && (codeUnit c =? 32)%nat && singleSpaced true (String d r)
            else singleSpaced false (String d r)).
    now rewrite E.
Qed.

Lemma collapseFrom_id (b : bool) (s : string) :
  singleSpaced b s = true -> collapseFrom b s = s.
Proof.
  revert b. induction s as [|c s IH]; intros b H; simpl in *; [reflexivity|].
  destruct (isWhiteSpace c).
  - apply andb_prop in H as [Hhead Hs]. apply andb_prop in Hhead as [Hb Hc].
    apply negb_true_iff in Hb. subst b.
    rewrite (white_32_is_space c Hc). now rewrite (IH true Hs).
  - now rewrite (IH false H).
Qed.

(** ** The other characters *)

Lemma visible_removeInjectionChars (s : string) :
  visible (removeInjectionChars s) = visible s.
Proof.
  induction s as [|c s IH]; simpl; [reflexivity|].
  destruct (isInjectionChar c) eqn:E; simpl.
  - rewrite orb_true_r. exact IH.
  - rewrite E. destruct (isWhiteSpace c); simpl; now rewrite IH.
Qed.

Lemma visible_collapseFrom (b : bool) (s : string) :
  visible (collapseFrom b s) = visible s.
Proof.
  revert b. induction s as [|c s IH]; intro b; simpl; [reflexivity|].
  destruct (isWhiteSpace c) eqn:E; simpl.
  - destruct b; simpl; apply IH.
  - rewrite E. simpl. destruct (isInjectionChar c); now rewrite IH.
Qed.

Lemma visible_trimStart (s : string) : visible (trimStart s) = visible s.
Proof.
  induction s as [|c s IH]; simpl; [reflexivity|].
  destruct (isWhiteSpace c) eqn:E; simpl; [exact IH | now rewrite E].
Qed.

Lemma visible_trimEnd (s : string) : visible (trimEnd s) = visible s.
Proof.
  induction s as [|c s IH]; [reflexivity|].
  simpl trimEnd. destruct (trimEnd s) as [|d r].
  - simpl in IH. destruct (isWhiteSpace c) eqn:E; simpl; rewrite E; simpl;
      rewrite <- IH; reflexivity.
  - change (visible (String c (String d r)))
      with (if isWhiteSpace c || isInjectionChar c then visible (String d r)
            else String c (visible (String d r))).
    rewrite IH. reflexivity.
Qed.

Lemma collapseFrom_length (b : bool) (s : string) :
  (String.length (collapseFrom b s) <= String.length s)%nat.
Proof.
  revert b. induction s as [|c s IH]; intro b; simpl; [lia|].
  pose proof (IH true). pose proof (IH false).
  destruct (isWhiteSpace c); [destruct b|]; simpl; lia.
Qed.

Lemma removeInjectionChars_length (s : string) :
  (String.length (removeInjectionChars s) <= String.length s)%nat.
Proof.
  induction s as [|c s IH]; simpl; [lia|].
  destruct (isInjectionChar c); simpl; lia.
Qed.

Lemma sanitizeQuery_shape (s : string) :
  noInjectionChars (sanitizeQuery s) = true
  /\ singleSpaced false (sanitizeQuery s) = true
  /\ trim (sanitizeQuery s) = sanitizeQuery s.
Proof.
  unfold sanitizeQuery, collapseWhiteSpace.
  split; [|split].
  - unfold trim. apply trimEnd_none, trimStart_none, collapseFrom_none,
      removeInjectionChars_none.
  - unfold trim. apply trimEnd_single. eapply trimStart_single.
    apply collapseFrom_single.
  - apply trim_idem.
Qed.

(** X8.  Whatever the input, the sanitized query contains none of the
    four deleted characters, has no leading or trailing white space,
    has every run of white space reduced to one SPACE, and is no longer
    than the input. *)
Theorem X8_sanitized_shape (s : string) :
  noInjectionChars (sanitizeQuery s) = true
  /\ singleSpaced false (sanitizeQuery s) = true
  /\ trim (sanitizeQuery s) = sanitizeQuery s
  /\ strLength (sanitizeQuery s) <= strLength s.
Proof.
  destruct (sanitizeQuery_shape s) as (H1 & H2 & H3).
  split; [exact H1|]. split; [exact H2|]. split; [exact H3|].
  unfold sanitizeQuery, collapseWhiteSpace.
  - pose proof (trim_length (collapseFrom false (removeInjectionChars s))).
    pose proof (collapseFrom_length false (removeInjectionChars s)).
    pose proof (removeInjectionChars_length s).
    unfold strLength in *. lia.
Qed.

(** X9.  The sanitizer leaves a query unchanged exactly when the query
    already has that shape: none of the four characters, every white
    space a single SPACE between other characters, nothing to trim.
    Search operators such as [site:a.com] or [-term] therefore pass
    through untouched. *)
Theorem X9_sanitizer_fixed_points (s : string) :
  sanitizeQuery s = s
  <-> (noInjectionChars s = true /\ singleSpaced false s = true /\ trim s = s).
Proof.
  split.
  - intro H. destruct (sanitizeQuery_shape s) as (H1 & H2 & H3).
    rewrite H in H1, H2, H3. now repeat split.
  - intros (H1 & H2 & H3). unfold sanitizeQuery, collapseWhiteSpace.
    now rewrite (removeInjectionChars_id s H1), (collapseFrom_id false s H2).
Qed.

(** X10.  Sanitizing is idempotent. *)
Theorem X10_sanitizer_idempotent (s : string) :
  sanitizeQuery (sanitizeQuery s) = sanitizeQuery s.
Proof.
  destruct (sanitizeQuery_shape s) as (H1 & H2 & H3).
  unfold sanitizeQuery at 1. unfold collapseWhiteSpace.
  now rewrite (removeInjectionChars_id _ H1), (collapseFrom_id false _ H2).
Qed.

(** X11.  The sanitizer only deletes the four characters and white
    space: every other code unit of the query is kept, in order. *)
Theorem X11_sanitizer_keeps_other_characters (s : string) :
  visible (sanitizeQuery s) = visible s.
Proof.
  unfold sanitizeQuery, collapseWhiteSpace, trim.
  now rewrite visible_trimEnd, visible_trimStart, visible_collapseFrom,
    visible_removeInjectionChars.
Qed.

End SanitizerFacts.

(* ================================================================== *)
(** * Further properties of the search orchestrator *)
(* ================================================================== *)

Section ServiceMore.
Import Js Effects Validation Service Handlers Further.
Context {engine : Engine} {W : Type} {world : World W}.

(** ** Parsing a payload *)

Lemma parseItems_inr (items : list JsValue) (i : nat) (acc : list SearchResult) :
  forallb (fun item => negb (isNullish item)) items = true ->
  exists new,
    parseItems i items acc = inr (acc ++ new)%list
    /\ List.length new = List.length items
    /\ map position new = map (fun k => Z.of_nat k + 1) (seq i (List.length items)).
Proof.
  revert i acc. induction items as [|item items IH]; intros i acc H.
  - exists []. simpl. now rewrite app_nil_r.
  - simpl in H. apply andb_prop in H as [Hitem Hrest].
    apply negb_true_iff in Hitem.
    simpl. unfold parseItem. rewrite Hitem.
    destruct (IH (S i) (acc ++ [mkSearchResult
                                  (orElse (field item "title") (JsStr ""))
                                  (orElse (field item "url") (JsStr ""))
                                  (orElse (field item "snippet") (JsStr ""))
                                  (Z.of_nat i + 1)
                                  (field item "domain")
                                  (field item "favicon")
                                  (field item "date")])%list Hrest)
      as (new & Hp & Hlen & Hpos).
    eexists (_ :: new). rewrite Hp. split; [now rewrite <- app_assoc|].
    split; [simpl; now rewrite Hlen|]. simpl. now rewrite Hpos.
Qed.

Lemma parseItems_inl (items : list JsValue) (i : nat) (acc : list SearchResult) :
  forallb (fun item => negb (isNullish item)) items = false ->
  exists e, parseItems i items acc = inl e.
Proof.
  revert i acc. induction items as [|item items IH]; intros i acc H;
    [discriminate|].
  simpl in H. simpl. unfold parseItem.
  destruct (isNullish item) eqn:E; [eauto|].
  simpl in H. apply IH. exact H.
Qed.

(** What [parseSearchResponse] returns, by the shape of the payload. *)
Lemma parseSearchResponse_result (body : JsValue) (originalQuery : string) (w : W) :
  let r := result (exec (parseSearchResponse body originalQuery) w) in
  if parseable body
  then exists d,
         r = inr d
         /\ List.length (results d) = List.length (payloadItems body)
         /\ map position (results d)
            = map (fun k => Z.of_nat k + 1) (seq 0 (List.length (payloadItems body)))
         /\ response_query d = originalQuery
         /\ total_results d
            = orElse (field body "total_results")
                     (JsInt (Z.of_nat (List.length (payloadItems body))))
  else exists e, r = inl e.
Proof.
  cbv zeta. unfold parseable, payloadItems, parseSearchResponse, prop.
  destruct (isNullish body); simpl negb; cbv iota;
    [exists (TypeError body "data"); reflexivity|].
  simpl andb.
  destruct (truthy (field body "data") && isArray (field body "data")).
  - destruct (forallb (fun item => negb (isNullish item))
                      (items (field body "data"))) eqn:Hall.
    + destruct (parseItems_inr _ 0 [] Hall) as (new & Hp & Hlen & Hpos).
      rewrite Hp. simpl app.
      destruct (truthy (field body "search_time")).
      * eexists. unfold result. simpl. rewrite Hlen. repeat split; assumption.
      * unfold result. simpl. destruct (readClock w) as [t w1]. simpl.
        eexists. rewrite Hlen. repeat split; assumption.
    + destruct (parseItems_inl _ 0 [] Hall) as (e & He). rewrite He.
      exists e. reflexivity.
  - destruct (truthy (field body "search_time")).
    + eexists. unfold result. simpl. repeat split.
    + unfold result. simpl. destruct (readClock w) as [t w1]. simpl.
      eexists. repeat split.
Qed.

(** X12.  When [parseSearchResponse] returns, it holds one result per
    item of the payload's [data] array (none when [data] is not an
    array), in order, and the position of the result at index [k] is
    [k + 1]: ranks are dense and assigned by the parser, whatever the
    items carry.  The response repeats the caller's query.  It throws
    exactly when the payload, or an item of the array, is [null] or
    [undefined]. *)
Theorem X12_parsed_positions_are_dense (body : JsValue) (originalQuery : string) (w : W) :
  let r := result (exec (parseSearchResponse body originalQuery) w) in
  (forall d, r = inr d ->
     parseable body = true
     /\ List.length (results d) = List.length (payloadItems body)
     /\ map position (results d)
        = map (fun k => Z.of_nat k + 1) (seq 0 (List.length (results d)))
     /\ response_query d = originalQuery)
  /\ (forall e, r = inl e -> parseable body = false).
Proof.
  cbv zeta. pose proof (parseSearchResponse_result body originalQuery w) as H.
  cbv zeta in H. destruct (parseable body).
  - destruct H as (d & Hr & Hlen & Hpos & Hq & _). rewrite Hr. split.
    + intros d' [= <-]. rewrite Hlen. now repeat split.
    + intros e Habs. discriminate.
  - destruct H as (e & Hr). rewrite Hr. split.
    + intros d Habs. discriminate.
    + reflexivity.
Qed.

(** ** The outcome of one search *)

Lemma orElse_truthy (a b : JsValue) : truthy b = true -> truthy (orElse a b) = true.
Proof. intro H. unfold orElse. destruct (truthy a) eqn:E; [exact E | exact H]. Qed.

Lemma parseError_message (e : Thrown) :
  truthy (error_message (parseError e)) = true.
Proof.
  destruct e as [v k|message code [[status data]|]]; simpl;
    apply orElse_truthy; reflexivity.
Qed.

Lemma search_outcome (params : SearchParams) (w : W) :
  let r := result (exec (search params) w) in
  match fst (provider (buildRequest params) w) with
  | Rejected e => r = failure e
  | Resolved body headers =>
      if parseable body
      then exists d,
             r = mkAPIResponse true (Some d) None (Some (extractRateLimit headers))
             /\ List.length (results d) = List.length (payloadItems body)
             /\ response_query d = query params
      else exists e, r = failure e
  end.
Proof.
  cbv zeta. unfold search. rewrite exec_bind, exec_httpGet.
  destruct (fst (provider (buildRequest params) w)) as [body headers|e];
    [|reflexivity].
  rewrite exec_bind.
  pose proof (parseSearchResponse_result body (query params)
                (snd (provider (buildRequest params) w))) as H.
  cbv zeta in H.
  destruct (exec (parseSearchResponse body (query params))
                 (snd (provider (buildRequest params) w))) as [[parsed tr] w2].
  unfold result in *. simpl in *.
  destruct (parseable body).
  - destruct H as (d & -> & Hlen & _ & Hq & _). exists d. now repeat split.
  - destruct H as (e & ->). exists e. reflexivity.
Qed.

(** X13.  [search] makes exactly one provider call, with the request
    built from its parameters, and always resolves to a well-formed
    outcome: either success with a payload and no error, or failure
    with no payload and an error whose message is never empty.  It
    succeeds exactly when the provider resolved with a readable
    payload. *)
Theorem X13_search_outcome_is_tagged (params : SearchParams) (w : W) :
  let run := exec (search params) w in
  let r := result run in
  (exists reply, calls (trace run) = [(buildRequest params, reply)])
  /\ ((success r = true /\ (exists d, data r = Some d) /\ error r = None)
      \/ (success r = false /\ data r = None
          /\ exists e, error r = Some e /\ truthy (error_message e) = true))
  /\ (success r = true <->
      exists body headers,
        fst (provider (buildRequest params) w) = Resolved body headers
        /\ parseable body = true).
Proof.
  cbv zeta. split.
  - destruct (search_exec params w) as (reply & Hc & _). eauto.
  - pose proof (search_outcome params w) as H. cbv zeta in H.
    destruct (fst (provider (buildRequest params) w)) as [body headers|e].
    + destruct (parseable body) eqn:Ep.
      * destruct H as (d & -> & _). split.
        -- left. simpl.
           split; [reflexivity | split; [eexists; reflexivity | reflexivity]].
        -- simpl. split; [intros _; exists body, headers; now split | reflexivity].
      * destruct H as (e & ->). split.
        -- right. simpl. split; [reflexivity|]. split; [reflexivity|].
           eexists. split; [reflexivity|]. apply parseError_message.
        -- simpl. split; [discriminate|].
           intros (b & h & [= <- <-] & Habs). rewrite Ep in Habs. discriminate.
    + rewrite H. split.
      * right. simpl. split; [reflexivity|]. split; [reflexivity|].
        eexists. split; [reflexivity|]. apply parseError_message.
      * simpl. split; [discriminate|]. intros (b & h & Habs & _). discriminate.
Qed.

(** X15.  [healthCheck] makes exactly one provider call, asking for one
    result for the query [test], and never throws: it returns [true]
    exactly when the provider resolved with a readable payload, and
    [false] on any rejection. *)
Theorem X15_health_check (w : W) :
  let run := exec healthCheck w in
  let request := mkRequest "test" (Some "1") None None in
  (exists reply, calls (trace run) = [(request, reply)])
  /\ (result run = true <->
      exists body headers,
        fst (provider request w) = Resolved body headers /\ parseable body = true)
  /\ (forall e, fst (provider request w) = Rejected e -> result run = false).
Proof.
  cbv zeta. unfold healthCheck.
  set (params := mkSearchParams "test" (Some 1) None None None None None).
  rewrite exec_bind_ret.
  change (mkRequest "test" (Some "1") None None) with (buildRequest params).
  pose proof (search_outcome params w) as H. cbv zeta in H.
  destruct (search_exec params w) as (reply & Hc & _).
  split; [eauto|].
  set (r := result (exec (search params) w)) in *.
  unfold result. simpl fst.
  destruct (fst (provider (buildRequest params) w)) as [body headers|e].
  - destruct (parseable body) eqn:Ep.
    + destruct H as (d & Hr & _). rewrite Hr. simpl.
      split; [|intros e Habs; discriminate].
      split; [intros _; exists body, headers; now split | reflexivity].
    + destruct H as (e & Hr). rewrite Hr. simpl.
      split; [|intros e' Habs; discriminate].
      split; [discriminate|].
      intros (b & h & [= <- <-] & Habs). rewrite Ep in Habs. discriminate.
  - rewrite H. simpl. split; [|reflexivity].
    split; [discriminate|]. intros (b & h & Habs & _). discriminate.
Qed.

(** ** The rhythm of a bulk search *)

Lemma rhythm_app (tr tr' : list Event) :
  rhythm (tr ++ tr') = (rhythm tr ++ rhythm tr')%list.
Proof.
  induction tr as [|ev tr IH]; simpl; [reflexivity|].
  destruct ev; simpl; now rewrite IH.
Qed.

Lemma parseSearchResponse_rhythm (body : JsValue) (originalQuery : string) (w : W) :
  rhythm (trace (exec (parseSearchResponse body originalQuery) w)) = [].
Proof.
  unfold parseSearchResponse.
  destruct (prop body "data") as [e|its]; [reflexivity|].
  destruct (if truthy its && isArray its then parseItems 0 (items its) [] else inr [])
    as [e|rs]; [reflexivity|].
  destruct (truthy (field body "search_time")); [reflexivity|].
  unfold trace. simpl. destruct (readClock w) as [t w1]. reflexivity.
Qed.

Lemma search_rhythm (params : SearchParams) (w : W) :
  rhythm (trace (exec (search params) w)) = [inl (query params)].
Proof.
  unfold search. rewrite exec_bind, exec_httpGet.
  destruct (fst (provider (buildRequest params) w)) as [body headers|e];
    [|reflexivity].
  rewrite exec_bind.
  pose proof (parseSearchResponse_rhythm body (query params)
                (snd (provider (buildRequest params) w))) as Hr.
  destruct (exec (parseSearchResponse body (query params))
                 (snd (provider (buildRequest params) w))) as [[parsed tr] w2].
  unfold trace in *. simpl in Hr.
  destruct parsed; simpl; rewrite app_nil_r, Hr; reflexivity.
Qed.

Lemma bulkLoop_rhythm (params : BulkSearchParams) (rest : list string)
  (acc : list BulkEntry) (w : W) :
  rhythm (trace (exec (bulkLoop params rest acc) w))
  = flat_map (beat (queries params)) rest.
Proof.
  revert acc w. induction rest as [|query rest IH]; intros acc w; [reflexivity|].
  rewrite bulkLoop_cons, exec_bind.
  pose proof (search_rhythm (subSearch params query) w) as Hs.
  destruct (exec (search (subSearch params query)) w) as [[searchResult tr1] w1].
  unfold trace in Hs. simpl in Hs.
  rewrite exec_bind.
  fold (pauseFollows (queries params) query).
  set (pause := if pauseFollows (queries params) query then delay 100 else Ret tt).
  assert (Hp : rhythm (trace (exec pause w1))
               = if pauseFollows (queries params) query then [inr 100] else []).
  { unfold pause. destruct (pauseFollows _ _); reflexivity. }
  destruct (exec pause w1) as [[u tr2] w2]. unfold trace in Hp. simpl in Hp.
  specialize (IH (acc ++ [entryOf query searchResult])%list w2).
  destruct (exec (bulkLoop params rest (acc ++ [entryOf query searchResult])%list) w2)
    as [[out tr3] w3].
  unfold trace in *. simpl in *.
  rewrite !rhythm_app, Hs, Hp, IH. unfold beat. simpl.
  destruct (pauseFollows (queries params) query); reflexivity.
Qed.

Lemma indexOfFrom_skip (x : string) (pre l : list string) (i : Z) :
  ~ In x pre ->
  indexOfFrom i x (pre ++ l) = indexOfFrom (i + Z.of_nat (List.length pre)) x l.
Proof.
  revert i. induction pre as [|y pre IH]; intros i Hnot; simpl.
  - now rewrite Z.add_0_r.
  - destruct (x =? y)%string eqn:E.
    + apply String.eqb_eq in E. subst y. exfalso. apply Hnot. now left.
    + rewrite IH by (intro Hin; apply Hnot; now right).
      f_equal. lia.
Qed.

Lemma indexOf_first (x : string) (pre post : list string) :
  ~ In x pre -> indexOf x (pre ++ x :: post) = Z.of_nat (List.length pre).
Proof.
  intro Hnot. unfold indexOf. rewrite indexOfFrom_skip by exact Hnot.
  simpl. now rewrite String.eqb_refl.
Qed.

Lemma flat_map_beat_init (qs init : list string) :
  (forall x, In x init -> pauseFollows qs x = true) ->
  flat_map (beat qs) init = flat_map (fun x => [inl x; inr 100]) init.
Proof.
  induction init as [|x init IH]; intro H; [reflexivity|].
  cbn [flat_map]. rewrite IH by (intros y Hy; apply H; now right).
  unfold beat. now rewrite (H x (or_introl eq_refl)).
Qed.

(** X14.  [bulkSearch] calls the provider once per query, in order,
    and pauses 100 ms after a call exactly when the first occurrence of
    its query is not the last element of the list.  For queries without
    repetition this is one pause between every two consecutive calls
    and none after the last; when the last query repeats an earlier
    one, a pause follows the last call too. *)
Theorem X14_bulk_rhythm (params : BulkSearchParams) (w : W) :
  let run := exec (bulkSearch params) w in
  rhythm (trace run) = flat_map (beat (queries params)) (queries params)
  /\ (forall init final,
         queries params = (init ++ [final])%list ->
         NoDup (queries params) ->
         rhythm (trace run)
         = (flat_map (fun x => [inl x; inr 100]) init ++ [inl final])%list)
  /\ (forall init final,
         queries params = (init ++ [final])%list ->
         In final init ->
         exists before, rhythm (trace run) = (before ++ [inl final; inr 100])%list).
Proof.
  cbv zeta.
  assert (Hgen : rhythm (trace (exec (bulkSearch params) w))
                 = flat_map (beat (queries params)) (queries params)).
  { unfold bulkSearch. rewrite exec_bind.
    pose proof (bulkLoop_rhythm params (queries params) [] w) as H.
    destruct (exec (bulkLoop params (queries params) []) w) as [[out tr] w1].
    unfold trace in *. simpl in *. destruct (readClock w1) as [t w2]. simpl.
    rewrite rhythm_app. simpl. now rewrite app_nil_r. }
  split; [exact Hgen|]. split.
  - intros init final Hqs Hnd. rewrite Hgen.
    replace (flat_map (beat (queries params)) (queries params))
      with (flat_map (beat (queries params)) (init ++ [final])%list)
      by now rewrite <- Hqs.
    rewrite flat_map_app. simpl. rewrite app_nil_r.
    assert (Hlen : Z.of_nat (List.length (queries params)) - 1
                   = Z.of_nat (List.length init)).
    { rewrite Hqs, length_app. simpl. lia. }
    rewrite Hqs in Hnd.
    f_equal.
    + apply flat_map_beat_init. intros x Hx.
      unfold pauseFollows. rewrite Hlen.
      destruct (in_split x init Hx) as (a & b & ->).
      rewrite <- app_assoc in Hnd. simpl in Hnd.
      apply NoDup_remove_2 in Hnd.
      rewrite Hqs. rewrite <- app_assoc. simpl.
      rewrite indexOf_first by (intro Hin; apply Hnd; apply in_or_app; now left).
      apply Z.ltb_lt. rewrite length_app. simpl. lia.
    + unfold beat, pauseFollows. rewrite Hlen, Hqs.
      apply NoDup_remove_2 in Hnd. rewrite app_nil_r in Hnd.
      rewrite indexOf_first by exact Hnd.
      rewrite Z.ltb_irrefl. reflexivity.
  - intros init final Hqs Hin. rewrite Hgen.
    replace (flat_map (beat (queries params)) (queries params))
      with (flat_map (beat (queries params)) (init ++ [final])%list)
      by now rewrite <- Hqs.
    rewrite flat_map_app. simpl. rewrite app_nil_r.
    exists (flat_map (beat (queries params)) init). f_equal.
    unfold beat, pauseFollows.
    assert (Hlt : indexOf final (queries params)
                  < Z.of_nat (List.length (queries params)) - 1).
    { rewrite Hqs, length_app. simpl.
      assert (Hfirst : forall xs, In final xs ->
                 exists a b, xs = (a ++ final :: b)%list /\ ~ In final a).
      { induction xs as [|y xs IHxs]; intro Hx; [destruct Hx|].
        destruct (String.eqb_spec final y) as [->|Hne].
        - exists [], xs. split; [reflexivity | intros []].
        - destruct Hx as [Hx|Hx]; [congruence|].
          destruct (IHxs Hx) as (a & b & -> & Hna).
          exists (y :: a), b. split; [reflexivity|].
          intros [Hy|Hy]; [congruence | contradiction]. }
      destruct (Hfirst init Hin) as (a & b & -> & Hna).
      rewrite <- app_assoc. simpl.
      rewrite indexOf_first by exact Hna.
      rewrite length_app. simpl. lia. }
    apply Z.ltb_lt in Hlt. now rewrite Hlt.
Qed.

End ServiceMore.

(* ================================================================== *)
(** * Further properties of the tool handlers *)
(* ================================================================== *)

Section HandlerMore.
Import Js Effects Validation Service Handlers Further.
Context {engine : Engine} {W : Type} {world : World W}.

Lemma handle_single (tool : Tool) :
  tool <> bulk_web_search ->
  handle tool = handleWith (fun p => search (searched tool p)).
Proof.
  destruct tool; intro H; [reflexivity | reflexivity | contradiction].
Qed.

Lemma exec_getTimeUntilReset (l : RateLimiter.t) (w : W) :
  result (exec (getTimeUntilReset l) w)
  = RateLimiter.getTimeUntilReset (fst (readClock w)) l.
Proof.
  unfold getTimeUntilReset, RateLimiter.getTimeUntilReset.
  destruct (RateLimiter.requests l); [reflexivity|].
  unfold result. simpl. destruct (readClock w). reflexivity.
Qed.

(** The run of a single-search handler, by the three ways it can go. *)
Lemma handleWith_denied_run (f : SearchParams -> SearchParams)
  (raw : JsValue) (l : RateLimiter.t) (w : W) :
  fst (RateLimiter.canMakeRequest (fst (readClock w)) l) = false ->
  let run := exec (handleWith (fun p => search (f p)) raw l) w in
  let l1 := RateLimiter.prune (fst (readClock w)) l in
  result run
  = (RateLimitExceeded
       (RateLimiter.getTimeUntilReset (fst (readClock (snd (readClock w)))) l1), l1)
  /\ calls (trace run) = [].
Proof.
  intro Hden. cbv zeta. unfold handleWith.
  rewrite exec_bind, exec_canMakeRequest.
  destruct (RateLimiter.canMakeRequest (fst (readClock w)) l) as [admitted l1] eqn:E.
  assert (El : l1 = RateLimiter.prune (fst (readClock w)) l)
    by (unfold RateLimiter.canMakeRequest in E; now injection E as _ <-).
  simpl in Hden. subst admitted. cbn [negb].
  rewrite exec_bind_ret.
  pose proof (getTimeUntilReset_calls l1 (snd (readClock w))) as Hc.
  pose proof (exec_getTimeUntilReset l1 (snd (readClock w))) as Hr.
  destruct (exec (getTimeUntilReset l1) (snd (readClock w))) as [[rt tr] w2].
  unfold trace, result in *. simpl in *. subst l1 rt. rewrite Hc. now split.
Qed.

Lemma handleWith_invalid_run (f : SearchParams -> SearchParams)
  (raw : JsValue) (e : ValidationError) (l : RateLimiter.t) (w : W) :
  fst (RateLimiter.canMakeRequest (fst (readClock w)) l) = true ->
  validateSearchParams raw = Throws e ->
  exec (handleWith (fun p => search (f p)) raw l) w
  = ((ValidationFailed e, RateLimiter.prune (fst (readClock w)) l),
     [Clock (fst (readClock w))], snd (readClock w)).
Proof.
  intros Hadm Hval. unfold handleWith.
  rewrite exec_bind, exec_canMakeRequest.
  destruct (RateLimiter.canMakeRequest (fst (readClock w)) l) as [admitted l1] eqn:E.
  assert (El : l1 = RateLimiter.prune (fst (readClock w)) l)
    by (unfold RateLimiter.canMakeRequest in E; now injection E as _ <-).
  simpl in Hadm. subst admitted l1. cbn [negb]. rewrite Hval. reflexivity.
Qed.

Lemma handleWith_valid_run (f : SearchParams -> SearchParams)
  (raw : JsValue) (p : SearchParams) (l : RateLimiter.t) (w : W) :
  fst (RateLimiter.canMakeRequest (fst (readClock w)) l) = true ->
  validateSearchParams raw = Returns p ->
  let t1 := fst (readClock w) in
  let w1 := snd (readClock w) in
  let t2 := fst (readClock w1) in
  let p' := set_query (sanitizeQuery (query p)) p in
  let s := exec (search (f p')) (snd (readClock w1)) in
  exec (handleWith (fun p => search (f p)) raw l) w
  = ((outcome (result s) p', RateLimiter.recordRequest t2 (RateLimiter.prune t1 l)),
     Clock t1 :: Clock t2 :: trace s, snd s).
Proof.
  intros Hadm Hval. cbv zeta. unfold handleWith.
  rewrite exec_bind, exec_canMakeRequest.
  destruct (RateLimiter.canMakeRequest (fst (readClock w)) l) as [admitted l1] eqn:E.
  assert (El : l1 = RateLimiter.prune (fst (readClock w)) l)
    by (unfold RateLimiter.canMakeRequest in E; now injection E as _ <-).
  simpl in Hadm. subst admitted l1. cbn [negb].
  rewrite Hval, exec_bind, exec_recordRequest, exec_bind.
  destruct (exec (search (f (set_query (sanitizeQuery (query p)) p)))
                 (snd (readClock (snd (readClock w))))) as [[res tr] w3].
  unfold outcome, result, trace. simpl.
  destruct (negb (success res));
    [|destruct (data res) as [d|]; [destruct (_ =? 0)|]];
    simpl; now rewrite app_nil_r.
Qed.

(** X16.  The rate limit is checked before anything else.  When the
    limiter denies, a single-search handler ([web_search] or
    [advanced_web_search]) returns the rate-limit error with the wait
    read from the limiter, whatever the arguments are, even invalid
    ones; it calls no provider and records nothing. *)
Theorem X16_denial_precedes_validation (tool : Tool) (raw : JsValue)
  (l : RateLimiter.t) (w : W)
  (Hsingle : tool <> bulk_web_search)
  (Hdenied : fst (RateLimiter.canMakeRequest (fst (readClock w)) l) = false) :
  let run := exec (handle tool raw l) w in
  let pruned := RateLimiter.prune (fst (readClock w)) l in
  fst (result run)
  = RateLimitExceeded
      (RateLimiter.getTimeUntilReset (fst (readClock (snd (readClock w)))) pruned)
  /\ isError (fst (result run)) = true
  /\ calls (trace run) = []
  /\ snd (result run) = pruned.
Proof.
  cbv zeta. rewrite (handle_single tool Hsingle).
  destruct (handleWith_denied_run (searched tool) raw l w Hdenied) as [Hr Hc].
  cbv zeta in Hr. rewrite Hr. simpl. repeat split. exact Hc.
Qed.

(** X17.  Arguments that fail validation cost nothing: an admitted
    single-search handler returns the validator's error as a
    validation error, calls no provider, reads the clock once and
    leaves the limiter without a new timestamp. *)
Theorem X17_invalid_arguments_cost_nothing (tool : Tool) (raw : JsValue)
  (e : ValidationError) (l : RateLimiter.t) (w : W)
  (Hsingle : tool <> bulk_web_search)
  (Hadmitted : fst (RateLimiter.canMakeRequest (fst (readClock w)) l) = true)
  (Hinvalid : validateSearchParams raw = Throws e) :
  let run := exec (handle tool raw l) w in
  fst (result run) = ValidationFailed e
  /\ trace run = [Clock (fst (readClock w))]
  /\ snd (result run) = RateLimiter.prune (fst (readClock w)) l.
Proof.
  cbv zeta. rewrite (handle_single tool Hsingle).
  rewrite (handleWith_invalid_run (searched tool) raw e l w Hadmitted Hinvalid).
  now repeat split.
Qed.

(** X18.  An admitted single-search invocation with valid arguments
    records exactly one timestamp, the instant read after validation,
    and then makes exactly one provider call, for the sanitized query
    (composed with the filters for [advanced_web_search]).  The
    timestamp is recorded before the call and stays recorded whatever
    the provider answers. *)
Theorem X18_valid_invocation_records_then_calls (tool : Tool) (raw : JsValue)
  (p : SearchParams) (l : RateLimiter.t) (w : W)
  (Hsingle : tool <> bulk_web_search)
  (Hadmitted : fst (RateLimiter.canMakeRequest (fst (readClock w)) l) = true)
  (Hvalid : validateSearchParams raw = Returns p) :
  let run := exec (handle tool raw l) w in
  let t1 := fst (readClock w) in
  let t2 := fst (readClock (snd (readClock w))) in
  let w2 := snd (readClock (snd (readClock w))) in
  let request :=
    buildRequest (searched tool (set_query (sanitizeQuery (query p)) p)) in
  RateLimiter.requests (snd (result run))
  = (RateLimiter.requests (RateLimiter.prune t1 l) ++ [t2])%list
  /\ calls (trace run) = [(request, fst (provider request w2))]
  /\ (exists after, trace run
                    = Clock t1 :: Clock t2
                        :: Call request (fst (provider request w2)) :: after).
Proof.
  cbv zeta. rewrite (handle_single tool Hsingle).
  rewrite (handleWith_valid_run (searched tool) raw p l w Hadmitted Hvalid).
  set (p' := searched tool (set_query (sanitizeQuery (query p)) p)).
  set (w2 := snd (readClock (snd (readClock w)))).
  destruct (search_exec p' w2) as (reply & Hcalls & Hreply & _).
  destruct (search_trace p' w2) as (reply' & after & Htr & _).
  assert (reply' = reply).
  { rewrite Htr in Hcalls. simpl in Hcalls. now injection Hcalls as ->. }
  subst reply'. rewrite <- Hreply. clear Hreply.
  destruct (exec (search p') w2) as [[res tr] w3].
  unfold result, trace in *. simpl in *.
  split; [reflexivity|]. split; [exact Hcalls|].
  exists after. now rewrite Htr.
Qed.

(** X19.  A provider answer without results is not an error.  When an
    admitted, valid single-search invocation gets a readable payload
    without items, the handler returns the no-results message, which is
    not flagged as an error.  A payload that cannot be read is reported
    as a failed search, which is. *)
Theorem X19_empty_result_is_not_an_error (tool : Tool) (raw : JsValue)
  (p : SearchParams) (l : RateLimiter.t) (w : W)
  (body : JsValue) (headers : list (string * string))
  (Hsingle : tool <> bulk_web_search)
  (Hadmitted : fst (RateLimiter.canMakeRequest (fst (readClock w)) l) = true)
  (Hvalid : validateSearchParams raw = Returns p)
  (Hreply : fst (provider
                   (buildRequest (searched tool (set_query (sanitizeQuery (query p)) p)))
                   (snd (readClock (snd (readClock w)))))
            = Resolved body headers) :
  let run := exec (handle tool raw l) w in
  let p' := set_query (sanitizeQuery (query p)) p in
  (parseable body = true -> payloadItems body = [] ->
   fst (result run) = NoResults p' /\ isError (fst (result run)) = false)
  /\ (parseable body = false ->
      isError (fst (result run)) = true
      /\ exists e, fst (result run) = SearchFailed (Some e)).
Proof.
  cbv zeta. rewrite (handle_single tool Hsingle).
  rewrite (handleWith_valid_run (searched tool) raw p l w Hadmitted Hvalid).
  set (p' := set_query (sanitizeQuery (query p)) p) in *.
  pose proof (search_outcome (searched tool p') (snd (readClock (snd (readClock w)))))
    as H.
  cbv zeta in H. rewrite Hreply in H.
  destruct (exec (search (searched tool p')) (snd (readClock (snd (readClock w)))))
    as [[res tr] w3].
  unfold result in *. simpl fst in *.
  split.
  - intros Hp Hitems. rewrite Hp in H.
    destruct H as (d & Hr & Hlen & _). rewrite Hr. unfold outcome. simpl.
    rewrite Hitems in Hlen. simpl in Hlen. rewrite Hlen. now split.
  - intro Hp. rewrite Hp in H.
    destruct H as (e & Hr). rewrite Hr. unfold outcome. simpl. eauto.
Qed.

Lemma prune_length (now : Z) (l : RateLimiter.t) :
  (List.length (RateLimiter.requests (RateLimiter.prune now l))
   <= List.length (RateLimiter.requests l))%nat.
Proof. unfold RateLimiter.prune. simpl. apply filter_length_le. Qed.

(** X20.  No handler lets the limiter grow beyond its capacity or
    changes its configuration: if the limiter holds at most
    [maxRequests] timestamps before a tool invocation, it holds at most
    [maxRequests] after it, with the same [maxRequests] and
    [windowMs], whatever the tool, the arguments and the world. *)
Theorem X20_handlers_keep_the_limiter_bounded (tool : Tool) (raw : JsValue)
  (l : RateLimiter.t) (w : W)
  (Hbounded : Z.of_nat (List.length (RateLimiter.requests l))
              <= RateLimiter.maxRequests l) :
  let l' := snd (result (exec (handle tool raw l) w)) in
  Z.of_nat (List.length (RateLimiter.requests l')) <= RateLimiter.maxRequests l'
  /\ RateLimiter.maxRequests l' = RateLimiter.maxRequests l
  /\ RateLimiter.windowMs l' = RateLimiter.windowMs l.
Proof.
  cbv zeta. pose proof (prune_length (fst (readClock w)) l) as Hprune.
  assert (Hpruned : forall l',
             l' = RateLimiter.prune (fst (readClock w)) l ->
             Z.of_nat (List.length (RateLimiter.requests l')) <= RateLimiter.maxRequests l'
             /\ RateLimiter.maxRequests l' = RateLimiter.maxRequests l
             /\ RateLimiter.windowMs l' = RateLimiter.windowMs l).
  { intros l' ->. simpl RateLimiter.maxRequests. simpl RateLimiter.windowMs.
    repeat split. lia. }
  assert (Hcases : tool = bulk_web_search \/ tool <> bulk_web_search)
    by (destruct tool; [right; discriminate | right; discriminate | left; reflexivity]).
  destruct Hcases as [-> | Hsingle].
  - simpl handle.
    destruct (BulkSearchHandler_never_records raw l w) as [-> | Hp].
    + now repeat split.
    + now apply Hpruned.
  - rewrite (handle_single tool Hsingle).
    destruct (fst (RateLimiter.canMakeRequest (fst (readClock w)) l)) eqn:Hadm.
    + destruct (validateSearchParams raw) as [p|e] eqn:Hval.
      * rewrite (handleWith_valid_run (searched tool) raw p l w Hadm Hval).
        unfold result. simpl fst. simpl snd.
        unfold RateLimiter.canMakeRequest in Hadm. simpl in Hadm.
        apply Z.ltb_lt in Hadm.
        unfold RateLimiter.recordRequest. simpl.
        rewrite length_app. simpl. repeat split. lia.
      * rewrite (handleWith_invalid_run (searched tool) raw e l w Hadm Hval).
        now apply Hpruned.
    + destruct (handleWith_denied_run (searched tool) raw l w Hadm) as [Hr _].
      cbv zeta in Hr. rewrite Hr. now apply Hpruned.
Qed.

(** ** The bulk handler *)

Lemma estimatedRequests_array (raw : JsValue) (elems : list JsValue) :
  field raw "queries" = JsArr elems ->
  estimatedRequests raw = JsInt (Z.max 1 (Z.of_nat (List.length elems))).
Proof.
  intro H. unfold estimatedRequests, optLength. rewrite H.
  destruct elems as [|v elems]; [reflexivity|].
  unfold orElse, JsInt, truthy.
  replace (Z.of_nat (List.length (v :: elems)) =? 0) with false
    by (symmetry; apply Z.eqb_neq; simpl; lia).
  simpl negb. cbv iota. do 2 f_equal. simpl List.length. lia.
Qed.

Lemma wouldExceed_integer (count m : Z) :
  wouldExceed count (JsInt m) = (count + m >? 100).
Proof.
  unfold wouldExceed. destruct (JsInt_integer m) as [Hi Hv]. now rewrite Hi, Hv.
Qed.

Lemma field_not_nullish (raw : JsValue) (k : string) (elems : list JsValue) :
  field raw k = JsArr elems -> isNullish raw = false.
Proof. destruct raw; simpl; intro H; try discriminate; reflexivity. Qed.

Lemma bulkSearch_run (params : BulkSearchParams) (w : W) :
  exists d,
    result (exec (bulkSearch params) w) = mkAPIResponse true (Some d) None None
    /\ map entry_query (searches d) = queries params
    /\ map fst (calls (trace (exec (bulkSearch params) w)))
       = map (fun query => buildRequest (subSearch params query)) (queries params).
Proof.
  unfold bulkSearch. rewrite exec_bind.
  destruct (bulkLoop_exec params (queries params) [] w)
    as (entries & Hres & Hq & Hreqs & _).
  destruct (exec (bulkLoop params (queries params) []) w) as [[out tr] w1].
  unfold result, trace in *. simpl in *. subst out.
  destruct (readClock w1) as [t w2]. simpl.
  eexists. split; [reflexivity|]. simpl.
  rewrite calls_app. simpl. rewrite app_nil_r. now split.
Qed.

(** The run of the bulk handler up to its admission test. *)
Lemma BulkSearchHandler_run (raw : JsValue) (l : RateLimiter.t) (w : W) :
  isNullish raw = false ->
  let pruned := RateLimiter.prune (fst (readClock w)) l in
  let count := Z.of_nat (List.length (RateLimiter.requests pruned)) in
  let w1 := snd (readClock w) in
  exec (BulkSearchHandler_handle raw l) w
  = if wouldExceed count (estimatedRequests raw)
    then ((RateLimitWouldBeExceeded (estimatedRequests raw)
             (RateLimiter.getTimeUntilReset (fst (readClock w1)) pruned), pruned),
          Clock (fst (readClock w)) :: trace (exec (getTimeUntilReset pruned) w1),
          snd (exec (getTimeUntilReset pruned) w1))
    else match validateBulkSearchParams raw with
         | Throws e => ((ValidationFailed e, pruned), [Clock (fst (readClock w))], w1)
         | Returns p =>
             let s := exec (bulkSearch (set_queries (map sanitizeQuery (queries p)) p)) w1 in
             ((match data (result s) with
               | Some d =>
                   if negb (success (result s)) then SearchFailed (error (result s))
                   else if Z.of_nat (List.length (searches d)) =? 0
                        then NoBulkResults else BulkResults d
               | None =>
                   if negb (success (result s)) then SearchFailed (error (result s))
                   else NoBulkResults
               end, pruned),
              Clock (fst (readClock w)) :: trace s, snd s)
         end.
Proof.
  intro Hnn. cbv zeta. unfold BulkSearchHandler_handle. rewrite Hnn.
  rewrite exec_bind, exec_getCurrentCount. cbn [RateLimiter.getCurrentCount].
  cbv zeta.
  destruct (wouldExceed _ (estimatedRequests raw)).
  - rewrite exec_bind_ret, exec_getTimeUntilReset. reflexivity.
  - destruct (validateBulkSearchParams raw) as [p|e]; [|reflexivity].
    rewrite exec_bind.
    destruct (exec (bulkSearch (set_queries (map sanitizeQuery (queries p)) p))
                   (snd (readClock w))) as [[res tr] w2].
    unfold result, trace. simpl.
    destruct (negb (success res));
      [|destruct (data res) as [d|]; [destruct (_ =? 0)|]];
      simpl; rewrite ?app_nil_r; try reflexivity.
    destruct (data res); reflexivity.
Qed.

(** X21.  The bulk handler admits by a fixed threshold of 100, not by
    the limiter's capacity.  For an argument whose [queries] is an
    array, it refuses exactly when the timestamps still inside the
    window plus the number of queries (at least 1) exceed 100; it then
    returns the rate-limit error naming that number, calls no provider
    and leaves the limiter pruned.  [maxRequests] plays no part. *)
Theorem X21_bulk_threshold_is_fixed (raw : JsValue) (elems : list JsValue)
  (l : RateLimiter.t) (w : W)
  (Hqueries : field raw "queries" = JsArr elems) :
  let run := exec (handle bulk_web_search raw l) w in
  let pruned := RateLimiter.prune (fst (readClock w)) l in
  let count := Z.of_nat (List.length (RateLimiter.requests pruned)) in
  let estimated := Z.max 1 (Z.of_nat (List.length elems)) in
  (count + estimated > 100 ->
   fst (result run)
   = RateLimitWouldBeExceeded (JsInt estimated)
       (RateLimiter.getTimeUntilReset (fst (readClock (snd (readClock w)))) pruned)
   /\ calls (trace run) = []
   /\ snd (result run) = pruned)
  /\ (count + estimated <= 100 ->
      forall est rt, fst (result run) <> RateLimitWouldBeExceeded est rt).
Proof.
  cbv zeta. simpl handle.
  rewrite (BulkSearchHandler_run raw l w (field_not_nullish raw _ _ Hqueries)).
  cbv zeta. rewrite (estimatedRequests_array raw elems Hqueries), wouldExceed_integer.
  set (pruned := RateLimiter.prune (fst (readClock w)) l).
  set (count := Z.of_nat (List.length (RateLimiter.requests pruned))).
  set (estimated := Z.max 1 (Z.of_nat (List.length elems))).
  destruct (count + estimated >? 100) eqn:E.
  - split; [|intro H; apply Z.gtb_lt in E; lia].
    intros _. unfold result, trace. simpl. repeat split.
    apply getTimeUntilReset_calls.
  - split; [intro H; rewrite Z.gtb_ltb in E; apply Z.ltb_ge in E; lia|].
    intros _ est rt.
    destruct (validateBulkSearchParams raw) as [p|e]; [|discriminate].
    cbv zeta. unfold result at 1. simpl fst.
    destruct (data _); destruct (negb _); try destruct (_ =? 0); discriminate.
Qed.

(** X22.  An admitted bulk invocation with valid arguments calls the
    provider once per query, in input order, each time for the trimmed
    and sanitized text of the query, and leaves the limiter without a
    new timestamp. *)
Theorem X22_bulk_runs_every_query (raw : JsValue) (p : BulkSearchParams)
  (l : RateLimiter.t) (w : W)
  (Hvalid : validateBulkSearchParams raw = Returns p)
  (Hadmitted : Z.of_nat (List.length
                           (RateLimiter.requests
                              (RateLimiter.prune (fst (readClock w)) l)))
               + Z.of_nat (List.length (queries p)) <= 100) :
  let run := exec (handle bulk_web_search raw l) w in
  map (fun call => q (fst call)) (calls (trace run))
  = map sanitizeQuery (queries p)
  /\ List.length (calls (trace run)) = List.length (queries p)
  /\ snd (result run) = RateLimiter.prune (fst (readClock w)) l.
Proof.
  cbv zeta. simpl handle.
  destruct (validateBulkSearchParams_returns raw p Hvalid)
    as (qs & m & r & s & _ & Hq & _ & _ & _ & ->).
  destruct (checkQueries_returns raw qs Hq) as (elems & Hf & Hlen & _ & Hqs).
  simpl queries in *.
  assert (Hn : List.length qs = List.length elems) by (rewrite Hqs; apply length_map).
  rewrite (BulkSearchHandler_run raw l w (field_not_nullish raw _ _ Hf)).
  cbv zeta. rewrite (estimatedRequests_array raw elems Hf), wouldExceed_integer.
  replace (_ + Z.max 1 (Z.of_nat (List.length elems)) >? 100) with false
    by (symmetry; rewrite Z.gtb_ltb; apply Z.ltb_ge; lia).
  rewrite Hvalid. cbv zeta.
  set (params := set_queries (map sanitizeQuery (queries (mkBulkSearchParams qs m r s)))
                             (mkBulkSearchParams qs m r s)).
  destruct (bulkSearch_run params (snd (readClock w))) as (d & _ & _ & Hreqs).
  destruct (exec (bulkSearch params) (snd (readClock w))) as [[res tr] w2].
  unfold result, trace in *. simpl fst in *. simpl snd in *.
  simpl calls.
  assert (Hqtexts : map (fun call => q (fst call)) (calls tr) = map sanitizeQuery qs).
  { rewrite <- (map_map fst q), Hreqs, map_map. unfold params. simpl.
    rewrite map_map. reflexivity. }
  split; [exact Hqtexts|].
  split; [|reflexivity].
  rewrite <- (length_map (fun call => q (fst call))), Hqtexts. apply length_map.
Qed.

(** X23.  Arguments that are [null] or [undefined].  The bulk handler
    fails on them before it touches the limiter or the clock and
    reports an unexpected error, not a validation error; an admitted
    single-search handler reports the validator's error, which names no
    field. *)
Theorem X23_null_arguments (raw : JsValue) (l : RateLimiter.t) (w : W)
  (Hnull : isNullish raw = true) :
  exec (handle bulk_web_search raw l) w
  = ((UnexpectedError (TypeError raw "queries"), l), [], w)
  /\ (forall tool,
         tool <> bulk_web_search ->
         fst (RateLimiter.canMakeRequest (fst (readClock w)) l) = true ->
         fst (result (exec (handle tool raw l) w))
         = ValidationFailed (mkValidationError "Parameters must be an object" None)).
Proof.
  split.
  - simpl handle. unfold BulkSearchHandler_handle. now rewrite Hnull.
  - intros tool Hsingle Hadm. rewrite (handle_single tool Hsingle).
    assert (Hval : validateSearchParams raw
                   = Throws (mkValidationError "Parameters must be an object" None))
      by (destruct raw; try discriminate; reflexivity).
    now rewrite (handleWith_invalid_run (searched tool) raw _ l w Hadm Hval).
Qed.

End HandlerMore.

(* ================================================================== *)
(** * Properties of the bulk summary *)
(* ================================================================== *)

Section SummaryFacts.
Import Js Effects Service Handlers Further.

Lemma resultCount_nonneg (s : BulkEntry) : 0 <= resultCount s.
Proof. unfold resultCount. lia. Qed.

Lemma sum_from (searches : list BulkEntry) (start : Z) :
  fold_left (fun sum search => sum + resultCount search) searches start
  = start + fold_left (fun sum search => sum + resultCount search) searches 0.
Proof.
  revert start. induction searches as [|s searches IH]; intro start; simpl; [lia|].
  rewrite (IH (start + resultCount s)), (IH (resultCount s)). lia.
Qed.

Lemma summary_cons (s : BulkEntry) (searches : list BulkEntry) :
  totalQueries (summary (s :: searches)) = totalQueries (summary searches) + 1
  /\ totalResults (summary (s :: searches))
     = totalResults (summary searches) + resultCount s
  /\ successfulQueries (summary (s :: searches))
     = successfulQueries (summary searches) + (if resultCount s >? 0 then 1 else 0)
  /\ failedQueries (summary (s :: searches))
     = failedQueries (summary searches) + (if resultCount s =? 0 then 1 else 0).
Proof.
  unfold summary. cbn [totalQueries totalResults successfulQueries failedQueries].
  cbn [fold_left filter List.length].
  rewrite (sum_from searches (0 + resultCount s)).
  destruct (resultCount s >? 0), (resultCount s =? 0); cbn [List.length];
    repeat split; lia.
Qed.

Lemma count_flags (n : Z) :
  0 <= n ->
  (if n >? 0 then 1 else 0) + (if n =? 0 then 1 else 0) = 1
  /\ 0 <= (if n >? 0 then 1 else 0) <= n.
Proof.
  intro H. rewrite Z.gtb_ltb.
  destruct (Z.ltb_spec 0 n), (Z.eqb_spec n 0); lia.
Qed.

(** X24.  In the summary of a bulk result, every query is counted
    exactly once, as successful when its entry holds results and as
    failed when it holds none; the total of results is the sum over
    the entries and is zero exactly when no query is successful.  An
    entry built from a failed search, or from a successful search
    without results, counts as failed. *)
Theorem X24_summary_counts (searches : list BulkEntry) :
  let s := summary searches in
  successfulQueries s + failedQueries s = totalQueries s
  /\ 0 <= successfulQueries s <= totalResults s
  /\ (totalResults s = 0 <-> successfulQueries s = 0)
  /\ (forall query searchResult,
         success searchResult = false
         \/ (exists d, data searchResult = Some d /\ results d = []) ->
         failedQueries (summary (entryOf query searchResult :: searches))
         = failedQueries s + 1).
Proof.
  cbv zeta.
  assert (Hall : successfulQueries (summary searches) + failedQueries (summary searches)
                 = totalQueries (summary searches)
                 /\ 0 <= successfulQueries (summary searches)
                      <= totalResults (summary searches)).
  { induction searches as [|e searches IH]; [simpl; lia|].
    destruct (summary_cons e searches) as (Hq & Hr & Hs & Hf).
    rewrite Hq, Hr, Hs, Hf.
    destruct (count_flags (resultCount e) (resultCount_nonneg e)) as [H1 H2].
    lia. }
  destruct Hall as [Hsum Hbound].
  split; [exact Hsum|]. split; [exact Hbound|]. split.
  - split; [lia|]. intro Hnone.
    assert (Hzero : forall xs,
               successfulQueries (summary xs) = 0 -> totalResults (summary xs) = 0).
    { induction xs as [|x xs IHx]; [reflexivity|].
      destruct (summary_cons x xs) as (_ & Hr & Hs & _). rewrite Hr, Hs.
      pose proof (resultCount_nonneg x) as Hx.
      assert (0 <= successfulQueries (summary xs)) by (unfold summary; simpl; lia).
      rewrite Z.gtb_ltb. destruct (Z.ltb_spec 0 (resultCount x)); intro Hs0; [lia|].
      rewrite IHx by lia. lia. }
    now apply Hzero.
  - intros query searchResult H.
    destruct (summary_cons (entryOf query searchResult) searches) as (_ & _ & _ & Hf).
    rewrite Hf.
    assert (Hzero : resultCount (entryOf query searchResult) = 0).
    { unfold entryOf. destruct H as [H | (d & Hd & Hres)].
      - rewrite H. reflexivity.
      - rewrite Hd. destruct (success searchResult); [|reflexivity].
        unfold resultCount. simpl. now rewrite Hres. }
    now rewrite Hzero.
Qed.

Lemma X24_summary_counts_witness :
  failedQueries (summary [entryOf "a" (mkAPIResponse false None None None)]) = 1.
Proof.
  destruct (X24_summary_counts []) as (_ & _ & _ & Hfailed).
  exact (Hfailed "a" (mkAPIResponse false None None None) (or_introl eq_refl)).
Defined.

End SummaryFacts.

(* ================================================================== *)
(** * Further runs in the scripted environment *)
(* ================================================================== *)

Section ScriptedRunsMore.
Import Js Effects Validation Service Handlers Further Scripted.

Lemma X9_sanitizer_fixed_points_witness :
  sanitizeQuery "rust site:a.com -beta" = "rust site:a.com -beta".
Proof.
  apply (proj2 (X9_sanitizer_fixed_points "rust site:a.com -beta")).
  repeat split; reflexivity.
Defined.

Lemma X12_parsed_positions_are_dense_witness :
  map position
      [mkSearchResult (JsStr "A") (JsStr "https://example.org/") (JsStr "") 1
                      JsUndefined JsUndefined JsUndefined]
  = map (fun k => Z.of_nat k + 1) (seq 0 1).
Proof.
  destruct (X12_parsed_positions_are_dense (oneResult "A") "a" (mkScript 1000 []))
    as [Hok _].
  destruct (Hok (mkWebSearchResponse
                   [mkSearchResult (JsStr "A") (JsStr "https://example.org/") (JsStr "")
                                   1 JsUndefined JsUndefined JsUndefined]
                   (JsInt 1) (JsInt 12) "a") eq_refl) as (_ & _ & Hpos & _).
  exact Hpos.
Defined.

Lemma X13_search_outcome_is_tagged_witness :
  success (result (exec (search (mkSearchParams "a" None None None None None None))
                        (mkScript 1000 [Resolved (oneResult "A") []])))
  = true.
Proof.
  destruct (X13_search_outcome_is_tagged
              (mkSearchParams "a" None None None None None None)
              (mkScript 1000 [Resolved (oneResult "A") []])) as (_ & _ & Hiff).
  apply Hiff. exists (oneResult "A"), []. split; reflexivity.
Defined.

Lemma X14_bulk_rhythm_witness :
  rhythm (trace (exec (bulkSearch (mkBulkSearchParams ["a"; "b"] None None None))
                      (mkScript 1000 [])))
  = [inl "a"; inr 100; inl "b"].
Proof.
  destruct (X14_bulk_rhythm (mkBulkSearchParams ["a"; "b"] None None None)
                            (mkScript 1000 [])) as (_ & Hdistinct & _).
  apply (Hdistinct ["a"] "b" eq_refl).
  constructor; [intros [H | []]; discriminate H|].
  constructor; [intros []|]. constructor.
Defined.

Lemma X15_health_check_witness :
  result (exec healthCheck (mkScript 1000 [Resolved (oneResult "A") []])) = true
  /\ result (exec healthCheck (mkScript 1000 [])) = false.
Proof.
  destruct (X15_health_check (mkScript 1000 [Resolved (oneResult "A") []]))
    as (_ & Hiff & _).
  destruct (X15_health_check (mkScript 1000 [])) as (_ & _ & Hrej).
  split.
  - apply Hiff. exists (oneResult "A"), []. split; reflexivity.
  - exact (Hrej networkError eq_refl).
Defined.

Lemma X16_denial_precedes_validation_witness :
  fst (result (exec (handle web_search JsNull (RateLimiter.mk [990; 995] 2 60000))
                    (mkScript 1000 [])))
  = RateLimitExceeded 59990.
Proof.
  assert (Hsingle : web_search <> bulk_web_search) by discriminate.
  exact (proj1 (X16_denial_precedes_validation web_search JsNull
                  (RateLimiter.mk [990; 995] 2 60000) (mkScript 1000 [])
                  Hsingle eq_refl)).
Defined.

Lemma X17_invalid_arguments_cost_nothing_witness :
  trace (exec (handle advanced_web_search (JsObj []) RateLimiter.default)
              (mkScript 1000 []))
  = [Clock 1000].
Proof.
  assert (Hsingle : advanced_web_search <> bulk_web_search) by discriminate.
  destruct (X17_invalid_arguments_cost_nothing advanced_web_search (JsObj [])
              (mkValidationError "Query is required and must be a string" (Some "query"))
              RateLimiter.default (mkScript 1000 []) Hsingle eq_refl eq_refl)
    as (_ & Htrace & _).
  exact Htrace.
Defined.

Lemma X18_valid_invocation_records_then_calls_witness :
  RateLimiter.requests
    (snd (result (exec (handle web_search (JsObj [("query", JsStr " <b>rust</b> ")])
                               RateLimiter.default)
                       (mkScript 1000 []))))
  = [1000]
  /\ calls (trace (exec (handle web_search (JsObj [("query", JsStr " <b>rust</b> ")])
                                RateLimiter.default)
                        (mkScript 1000 [])))
     = [(mkRequest "brust/b" None None None, Rejected networkError)].
Proof.
  assert (Hsingle : web_search <> bulk_web_search) by discriminate.
  destruct (X18_valid_invocation_records_then_calls web_search
              (JsObj [("query", JsStr " <b>rust</b> ")])
              (mkSearchParams "<b>rust</b>" None None None None None None)
              RateLimiter.default (mkScript 1000 []) Hsingle eq_refl eq_refl)
    as (Hreq & Hcalls & _).
  split; [exact Hreq | exact Hcalls].
Defined.

Lemma X19_empty_result_is_not_an_error_witness :
  fst (result (exec (handle web_search (JsObj [("query", JsStr "rust")])
                            RateLimiter.default)
                    (mkScript 1000 [Resolved (JsObj []) []])))
  = NoResults (mkSearchParams "rust" None None None None None None).
Proof.
  assert (Hsingle : web_search <> bulk_web_search) by discriminate.
  assert (Hreply : fst (provider
                          (buildRequest
                             (searched web_search
                                (set_query (sanitizeQuery "rust")
                                   (mkSearchParams "rust" None None None None None None))))
                          (snd (readClock (snd (readClock
                             (mkScript 1000 [Resolved (JsObj []) []]))))))
                   = Resolved (JsObj []) []) by reflexivity.
  destruct (X19_empty_result_is_not_an_error web_search
              (JsObj [("query", JsStr "rust")])
              (mkSearchParams "rust" None None None None None None)
              RateLimiter.default (mkScript 1000 [Resolved (JsObj []) []])
              (JsObj []) [] Hsingle eq_refl eq_refl Hreply) as [Hok _].
  exact (proj1 (Hok eq_refl eq_refl)).
Defined.

Lemma X20_handlers_keep_the_limiter_bounded_witness :
  Z.of_nat (List.length
              (RateLimiter.requests
                 (snd (result (exec (handle web_search (JsObj [("query", JsStr "rust")])
                                            (RateLimiter.mk [990] 2 60000))
                                    (mkScript 1000 []))))))
  <= 2.
Proof.
  assert (Hbounded : Z.of_nat (List.length (RateLimiter.requests
                                              (RateLimiter.mk [990] 2 60000)))
                     <= RateLimiter.maxRequests (RateLimiter.mk [990] 2 60000))
    by (simpl; lia).
  exact (proj1 (X20_handlers_keep_the_limiter_bounded web_search
                  (JsObj [("query", JsStr "rust")]) (RateLimiter.mk [990] 2 60000)
                  (mkScript 1000 []) Hbounded)).
Defined.

Lemma X21_bulk_threshold_is_fixed_witness :
  fst (result (exec (handle bulk_web_search
                            (JsObj [("queries", JsArr (repeat (JsStr "a") 6))])
                            (RateLimiter.mk (repeat 995 95) 1000 60000))
                    (mkScript 1000 [])))
  = RateLimitWouldBeExceeded (JsInt 6) 59995.
Proof.
  destruct (X21_bulk_threshold_is_fixed
              (JsObj [("queries", JsArr (repeat (JsStr "a") 6))])
              (repeat (JsStr "a") 6)
              (RateLimiter.mk (repeat 995 95) 1000 60000)
              (mkScript 1000 []) eq_refl) as [Hrefused _].
  assert (Hover : Z.of_nat (List.length
                              (RateLimiter.requests
                                 (RateLimiter.prune 1000
                                    (RateLimiter.mk (repeat 995 95) 1000 60000))))
                  + Z.max 1 (Z.of_nat (List.length (repeat (JsStr "a") 6))) > 100)
    by (vm_compute; reflexivity).
  exact (proj1 (Hrefused Hover)).
Defined.

Lemma X22_bulk_runs_every_query_witness :
  map (fun call => q (fst call))
      (calls (trace (exec (handle bulk_web_search
                                  (JsObj [("queries", JsArr [JsStr " a "; JsStr "<b>"])])
                                  RateLimiter.default)
                          (mkScript 1000 []))))
  = ["a"; "b"].
Proof.
  assert (Hadmitted : Z.of_nat (List.length
                                  (RateLimiter.requests
                                     (RateLimiter.prune 1000 RateLimiter.default)))
                      + Z.of_nat (List.length ["a"; "<b>"]) <= 100)
    by (vm_compute; discriminate).
  exact (proj1 (X22_bulk_runs_every_query
                         (JsObj [("queries", JsArr [JsStr " a "; JsStr "<b>"])])
                         (mkBulkSearchParams ["a"; "<b>"] None None None)
                         RateLimiter.default (mkScript 1000 []) eq_refl Hadmitted)).
Defined.

Lemma X23_null_arguments_witness :
  exec (handle bulk_web_search JsNull RateLimiter.default) (mkScript 1000 [])
  = ((UnexpectedError (TypeError JsNull "queries"), RateLimiter.default), [],
     mkScript 1000 []).
Proof.
  exact (proj1 (X23_null_arguments JsNull RateLimiter.default (mkScript 1000 [])
                  eq_refl)).
Defined.

End ScriptedRunsMore.

(* ================================================================== *)
(** * Properties of the HTTP route *)
(* ================================================================== *)

Section RouteFacts.
Import Js Effects Validation Service Handlers Further Route.
Context {engine : Engine} {W : Type} {world : World W}.

Lemma handleToolCall_single (tool : Tool) :
  tool <> bulk_web_search ->
  handleToolCall (toolName tool) = singleCase (fun p => search (searched tool p)).
Proof.
  destruct tool; intro H; [reflexivity | reflexivity | contradiction].
Qed.

Lemma singleCase_valid_run (f : SearchParams -> SearchParams)
  (args : JsValue) (p : SearchParams) (l : RateLimiter.t) (w : W) :
  fst (RateLimiter.canMakeRequest (fst (readClock w)) l) = true ->
  validateSearchParams args = Returns p ->
  let t1 := fst (readClock w) in
  let w1 := snd (readClock w) in
  let t2 := fst (readClock w1) in
  let s := exec (search (f p)) (snd (readClock w1)) in
  exec (singleCase (fun p => search (f p)) args l) w
  = (RateLimiter.recordRequest t2 (RateLimiter.prune t1 l),
     Clock t1 :: Clock t2 :: trace s, snd s).
Proof.
  intros Hadm Hval. cbv zeta. unfold singleCase.
  rewrite exec_bind, exec_canMakeRequest.
  destruct (RateLimiter.canMakeRequest (fst (readClock w)) l) as [admitted l1] eqn:E.
  assert (El : l1 = RateLimiter.prune (fst (readClock w)) l)
    by (unfold RateLimiter.canMakeRequest in E; now injection E as _ <-).
  simpl in Hadm. subst admitted l1. cbn [negb].
  rewrite Hval, exec_bind, exec_recordRequest, exec_bind.
  destruct (exec (search (f p)) (snd (readClock (snd (readClock w)))))
    as [[res tr] w3].
  unfold trace. simpl. now rewrite app_nil_r.
Qed.

Lemma length_append (a b : string) :
  String.length (a ++ b) = (String.length a + String.length b)%nat.
Proof. induction a as [|x a IH]; simpl; [reflexivity | now rewrite IH]. Qed.

(** Two texts followed by the same text are equal only if they are
    equal themselves. *)
Lemma append_cancel_r (a b c : string) : (a ++ c = b ++ c)%string -> a = b.
Proof.
  revert b. induction a as [|x a IH]; intros [|y b] H; simpl in H.
  - reflexivity.
  - exfalso. apply (f_equal String.length) in H. simpl in H.
    rewrite length_append in H. lia.
  - exfalso. apply (f_equal String.length) in H. simpl in H.
    rewrite length_append in H. lia.
  - injection H as -> H. f_equal. now apply IH.
Qed.

(** The query a single-search tool sends for a validated record whose
    query is [text]: [text] itself for [web_search], and [text]
    followed by the operators of the record for
    [advanced_web_search]. *)
Lemma searched_query (tool : Tool) (args : JsValue) (p : SearchParams)
  (text : string) :
  tool <> bulk_web_search ->
  validateSearchParams args = Returns p ->
  q (buildRequest (searched tool (set_query text p)))
  = (text ++ match tool with
             | advanced_web_search =>
                 fragment " site:" (site_restrict p)
                 ++ fragment " filetype:" (file_type p)
                 ++ dateFragment (date_range p)
             | _ => ""
             end)%string.
Proof.
  intros Hsingle Hvalid.
  destruct (validateSearchParams_returns args p Hvalid)
    as (q0 & m & r & s & sr & ft & dr & _ & _ & _ & _ & _ & Hsr & Hft & Hdr & ->).
  destruct tool; [|clear Hsingle|contradiction].
  - simpl. now rewrite append_empty_r.
  - unfold searched, set_query, buildRequest.
    cbn [query max_results region safe_search site_restrict file_type date_range q].
    rewrite advancedQuery_spec; [reflexivity| | |].
    + intros x ->. exact (checkSiteRestrict_returns args x Hsr).
    + intros x ->. exact (checkFileType_returns args x Hft).
    + intros x ->. exact (checkDateRange_returns args x Hdr).
Qed.

Lemma set_query_same (p : SearchParams) : set_query (query p) p = p.
Proof. destruct p; reflexivity. Qed.

(** X25.  The HTTP route does not sanitize.  For an admitted, valid
    invocation of either single-search tool, [web_search] or
    [advanced_web_search], the route and the handler class record the
    same timestamp and make one provider call each.  The route sends
    the validated query as it is (trimmed only) and the handler the
    sanitized query, each followed by the same operators: none for
    [web_search], and the [site:], [filetype:] and date fragments of
    the record for [advanced_web_search].  For both tools the two
    requests are the same exactly when sanitizing leaves the validated
    query unchanged. *)
Theorem X25_route_does_not_sanitize (tool : Tool) (args : JsValue)
  (p : SearchParams) (l : RateLimiter.t) (w : W)
  (Hsingle : tool <> bulk_web_search)
  (Hadmitted : fst (RateLimiter.canMakeRequest (fst (readClock w)) l) = true)
  (Hvalid : validateSearchParams args = Returns p) :
  let route := exec (handleToolCall (toolName tool) args l) w in
  let handler := exec (handle tool args l) w in
  let w2 := snd (readClock (snd (readClock w))) in
  let sent := buildRequest (searched tool p) in
  let sanitized :=
    buildRequest (searched tool (set_query (sanitizeQuery (query p)) p)) in
  let operators :=
    match tool with
    | advanced_web_search =>
        (fragment " site:" (site_restrict p)
         ++ fragment " filetype:" (file_type p)
         ++ dateFragment (date_range p))%string
    | _ => ""
    end in
  calls (trace route) = [(sent, fst (provider sent w2))]
  /\ calls (trace handler) = [(sanitized, fst (provider sanitized w2))]
  /\ result route = snd (result handler)
  /\ q sent = (query p ++ operators)%string
  /\ q sanitized = (sanitizeQuery (query p) ++ operators)%string
  /\ (tool = web_search ->
      q sent = query p /\ q sanitized = sanitizeQuery (query p))
  /\ (sent = sanitized <-> sanitizeQuery (query p) = query p).
Proof.
  cbv zeta.
  assert (Hsent := searched_query tool args p (query p) Hsingle Hvalid).
  assert (Hsanitized := searched_query tool args p (sanitizeQuery (query p))
                          Hsingle Hvalid).
  rewrite set_query_same in Hsent.
  rewrite (handleToolCall_single tool Hsingle), (handle_single tool Hsingle).
  rewrite (singleCase_valid_run (searched tool) args p l w Hadmitted Hvalid).
  rewrite (handleWith_valid_run (searched tool) args p l w Hadmitted Hvalid).
  set (w2 := snd (readClock (snd (readClock w)))).
  set (p' := set_query (sanitizeQuery (query p)) p) in *.
  destruct (search_exec (searched tool p) w2) as (r1 & Hc1 & Hr1 & _).
  destruct (search_exec (searched tool p') w2) as (r2 & Hc2 & Hr2 & _).
  rewrite <- Hr1, <- Hr2.
  destruct (exec (search (searched tool p)) w2) as [[res1 tr1] w3].
  destruct (exec (search (searched tool p')) w2) as [[res2 tr2] w4].
  unfold result, trace in *. cbn [fst snd] in *.
  split; [exact Hc1|]. split; [exact Hc2|]. split; [reflexivity|].
  split; [exact Hsent|]. split; [exact Hsanitized|]. split.
  - intros ->. rewrite Hsent, Hsanitized, !append_empty_r. now split.
  - split.
    + intro Hsame. apply (f_equal q) in Hsame.
      rewrite Hsent, Hsanitized in Hsame.
      symmetry. exact (append_cancel_r _ _ _ Hsame).
    + intro Hsame. unfold p'. rewrite Hsame, set_query_same. reflexivity.
Qed.

(** X26.  The bulk case of the route: an admitted, valid invocation
    calls the provider once per query, in order, with the validated
    queries as they are (trimmed, not sanitized), and leaves the
    limiter without a new timestamp. *)
Theorem X26_route_bulk_case (args : JsValue) (p : BulkSearchParams)
  (l : RateLimiter.t) (w : W)
  (Hvalid : validateBulkSearchParams args = Returns p)
  (Hadmitted : Z.of_nat (List.length
                           (RateLimiter.requests
                              (RateLimiter.prune (fst (readClock w)) l)))
               + Z.of_nat (List.length (queries p)) <= 100) :
  let run := exec (handleToolCall "bulk_web_search" args l) w in
  map (fun call => q (fst call)) (calls (trace run)) = queries p
  /\ result run = RateLimiter.prune (fst (readClock w)) l.
Proof.
  cbv zeta. change (handleToolCall "bulk_web_search" args l) with (bulkCase args l).
  destruct (validateBulkSearchParams_returns args p Hvalid)
    as (qs & m & r & s & _ & Hq & _ & _ & _ & ->).
  destruct (checkQueries_returns args qs Hq) as (elems & Hf & Hlen & _ & Hqs).
  simpl queries in *.
  assert (Hn : List.length qs = List.length elems) by (rewrite Hqs; apply length_map).
  unfold bulkCase. rewrite (field_not_nullish args _ _ Hf).
  rewrite exec_bind, exec_getCurrentCount. cbn [RateLimiter.getCurrentCount].
  cbv zeta. rewrite (estimatedRequests_array args elems Hf), wouldExceed_integer.
  replace (_ + Z.max 1 (Z.of_nat (List.length elems)) >? 100) with false
    by (symmetry; rewrite Z.gtb_ltb; apply Z.ltb_ge; lia).
  rewrite Hvalid. rewrite exec_bind.
  destruct (bulkSearch_run (mkBulkSearchParams qs m r s) (snd (readClock w)))
    as (d & _ & _ & Hreqs).
  destruct (exec (bulkSearch (mkBulkSearchParams qs m r s)) (snd (readClock w)))
    as [[res tr] w2].
  unfold result, trace in *. simpl in *. rewrite app_nil_r.
  split; [|reflexivity].
  rewrite <- (map_map fst q), Hreqs, map_map. simpl.
  clear. induction qs as [|x qs IH]; simpl; [reflexivity | now rewrite IH].
Qed.

End RouteFacts.

(* ================================================================== *)
(** * Runs of the HTTP route in the scripted environment *)
(* ================================================================== *)

Section ScriptedRouteRuns.
Import Js Effects Validation Service Handlers Further Route Scripted.

Lemma X25_route_does_not_sanitize_witness :
  calls (trace (exec (handleToolCall "web_search"
                        (JsObj [("query", JsStr " <b>rust</b> ")]) RateLimiter.default)
                     (mkScript 1000 [])))
  = [(mkRequest "<b>rust</b>" None None None, Rejected networkError)]
  /\ calls (trace (exec (handle web_search
                           (JsObj [("query", JsStr " <b>rust</b> ")]) RateLimiter.default)
                        (mkScript 1000 [])))
     = [(mkRequest "brust/b" None None None, Rejected networkError)]
  /\ calls (trace (exec (handleToolCall "advanced_web_search"
                           (JsObj [("query", JsStr " <b>rust</b> ");
                                   ("site_restrict", JsStr "x.com")])
                           RateLimiter.default)
                        (mkScript 1000 [])))
     = [(mkRequest "<b>rust</b> site:x.com" None None None, Rejected networkError)]
  /\ calls (trace (exec (handle advanced_web_search
                           (JsObj [("query", JsStr " <b>rust</b> ");
                                   ("site_restrict", JsStr "x.com")])
                           RateLimiter.default)
                        (mkScript 1000 [])))
     = [(mkRequest "brust/b site:x.com" None None None, Rejected networkError)]
  /\ (buildRequest (searched advanced_web_search
                       (mkSearchParams "rust" None None None (Some "x.com") None None))
      = buildRequest (searched advanced_web_search
                        (set_query (sanitizeQuery "rust")
                           (mkSearchParams "rust" None None None (Some "x.com")
                                           None None)))).
Proof.
  assert (Hsingle : web_search <> bulk_web_search) by discriminate.
  assert (Hadvanced : advanced_web_search <> bulk_web_search) by discriminate.
  destruct (X25_route_does_not_sanitize web_search
              (JsObj [("query", JsStr " <b>rust</b> ")])
              (mkSearchParams "<b>rust</b>" None None None None None None)
              RateLimiter.default (mkScript 1000 []) Hsingle eq_refl eq_refl)
    as (Hroute & Hhandler & _).
  destruct (X25_route_does_not_sanitize advanced_web_search
              (JsObj [("query", JsStr " <b>rust</b> "); ("site_restrict", JsStr "x.com")])
              (mkSearchParams "<b>rust</b>" None None None (Some "x.com") None None)
              RateLimiter.default (mkScript 1000 []) Hadvanced eq_refl eq_refl)
    as (Hroute' & Hhandler' & _).
  destruct (X25_route_does_not_sanitize advanced_web_search
              (JsObj [("query", JsStr "rust"); ("site_restrict", JsStr "x.com")])
              (mkSearchParams "rust" None None None (Some "x.com") None None)
              RateLimiter.default (mkScript 1000 []) Hadvanced eq_refl eq_refl)
    as (_ & _ & _ & _ & _ & _ & Hsame).
  split; [exact Hroute|]. split; [exact Hhandler|].
  split; [exact Hroute'|]. split; [exact Hhandler'|].
  apply Hsame. reflexivity.
Defined.

Lemma X26_route_bulk_case_witness :
  map (fun call => q (fst call))
      (calls (trace (exec (handleToolCall "bulk_web_search"
                             (JsObj [("queries", JsArr [JsStr " a "; JsStr "<b>"])])
                             RateLimiter.default)
                          (mkScript 1000 []))))
  = ["a"; "<b>"].
Proof.
  assert (Hadmitted : Z.of_nat (List.length
                                  (RateLimiter.requests
                                     (RateLimiter.prune 1000 RateLimiter.default)))
                      + Z.of_nat (List.length ["a"; "<b>"]) <= 100)
    by (vm_compute; discriminate).
  exact (proj1 (X26_route_bulk_case
                  (JsObj [("queries", JsArr [JsStr " a "; JsStr "<b>"])])
                  (mkBulkSearchParams ["a"; "<b>"] None None None)
                  RateLimiter.default (mkScript 1000 []) eq_refl Hadmitted)).
Defined.

End ScriptedRouteRuns.
